(** * Knowledge acquisition and retrieval-orchestration core

    A shallow embedding of the retrieval quality gate
    ([modules/knowledge_base.py]), the relevance gate
    ([modules/legal_content_filter.py]), the incremental crawl manager
    ([modules/incremental_scraper.py]) and the fallback search
    orchestrator ([modules/dynamic_search.py]), followed by the
    properties of the specification that concern them.  The embedding
    goes on with the code around them: the rescan and the statistics of
    the crawl manager, the portal search and its static lookup, the
    writing side of the store ([add_document]), the scraping tracker
    ([modules/scraping_tracker.py]), the storing of scraped pages
    ([WebScraper.add_to_knowledge_base] in [modules/web_scraper.py]) and
    the two chunking loops of [modules/text_processing.py], each with
    the facts its code shows.

    Conventions of the embedding.
    - A Python [str] is a list of Unicode code points ([N]); string
      literals of the source are written as UTF-8 text and decoded by
      [u].  [str.lower] works one code point at a time on the Latin and
      Cyrillic letters of the corpus.
    - A Python [float] is the rational number it denotes ([Q]); the
      scoring arithmetic is exact, and no distance is NaN.
    - A Python [dict] keyed by URL is a [gmap]; the order in which the
      keys of a dict or the elements of a [set] are enumerated is the
      order of [map_to_list] / [elements].
    - [datetime] values are microseconds on the integer line ([Z]);
      writing a time stamp with [isoformat] and reading it back with
      [fromisoformat] is the identity.  Every call of [datetime.now()]
      is a reading of its own of the clock.
    - Network, vector-store and language-model calls are oracles of the
      environment; an oracle that may raise returns a [Res].  Logging
      and [time.sleep] have no effect, and [_save_pages_info] leaves
      the object as it is. *)

From Stdlib Require Import ZArith NArith QArith Qminmax Lia Lqa Bool.
From Stdlib Require Import Strings.String Strings.Ascii Strings.Byte.
From stdpp Require Import base gmap list.

Local Open Scope N_scope.

(* ===================================================================== *)
(** ** Python strings *)
(* ===================================================================== *)

Module PyStr.

Definition str := list N.

(** UTF-8 decoding of a literal of the source text. *)
Fixpoint utf8_decode (bs : list N) : str :=
  match bs with
  | [] => []
  | b :: r =>
      if b <? 0x80 then b :: utf8_decode r
      else if b <? 0xE0 then
        match r with
        | b1 :: r1 => ((b - 0xC0) * 64 + (b1 - 0x80)) :: utf8_decode r1
        | _ => []
        end
      else if b <? 0xF0 then
        match r with
        | b1 :: b2 :: r2 =>
            ((b - 0xE0) * 4096 + (b1 - 0x80) * 64 + (b2 - 0x80))
              :: utf8_decode r2
        | _ => []
        end
      else
        match r with
        | b1 :: b2 :: b3 :: r3 =>
            ((b - 0xF0) * 262144 + (b1 - 0x80) * 4096
             + (b2 - 0x80) * 64 + (b3 - 0x80)) :: utf8_decode r3
        | _ => []
        end
  end.

Definition u (s : string) : str :=
  utf8_decode (List.map Byte.to_N (list_byte_of_string s)).

(** [str.encode('utf-8')]: lone surrogates raise [UnicodeEncodeError]
    ([None]); a [str] holds no code point above U+10FFFF. *)
Definition utf8_encode_char (c : N) : option (list N) :=
  if c <? 0x80 then Some [c]
  else if c <? 0x800 then Some [0xC0 + c / 64; 0x80 + c mod 64]
  else if (0xD800 <=? c) && (c <? 0xE000) then None
  else if c <? 0x10000 then
    Some [0xE0 + c / 4096; 0x80 + (c / 64) mod 64; 0x80 + c mod 64]
  else if c <? 0x110000 then
    Some [0xF0 + c / 262144; 0x80 + (c / 4096) mod 64;
          0x80 + (c / 64) mod 64; 0x80 + c mod 64]
  else None.

Fixpoint utf8_encode (s : str) : option (list N) :=
  match s with
  | [] => Some []
  | c :: r =>
      match utf8_encode_char c, utf8_encode r with
      | Some bs, Some rest => Some (bs ++ rest)
      | _, _ => None
      end
  end.

Definition in_range (lo hi c : N) : bool := (lo <=? c) && (c <=? hi).

(** [str.lower()], one code point at a time, on the alphabets of the
    corpus: Basic Latin, Latin-1 Supplement and Cyrillic
    (U+0400..U+042F).  Code points outside these blocks are left as
    they are. *)
Definition lower_char (c : N) : N :=
  if in_range 0x41 0x5A c then c + 32
  else if in_range 0xC0 0xD6 c then c + 32
  else if in_range 0xD8 0xDE c then c + 32
  else if in_range 0x400 0x40F c then c + 80
  else if in_range 0x410 0x42F c then c + 32
  else c.

Definition lower (s : str) : str := List.map lower_char s.

(** The white space of [str.isspace], [str.strip], [str.split] and of
    [\s] in [re]. *)
Definition whitespace : list N :=
  [0x09; 0x0A; 0x0B; 0x0C; 0x0D; 0x1C; 0x1D; 0x1E; 0x1F; 0x20; 0x85; 0xA0;
   0x1680; 0x2000; 0x2001; 0x2002; 0x2003; 0x2004; 0x2005; 0x2006;
   0x2007; 0x2008; 0x2009; 0x200A; 0x2028; 0x2029; 0x202F; 0x205F;
   0x3000].

Definition is_space (c : N) : bool := existsb (N.eqb c) whitespace.

(** The zero digits of the decimal-digit class ([\d] in [re]); each is
    followed by its nine successors. *)
Definition digit_zeros : list N :=
  [0x30; 0x660; 0x6F0; 0x7C0; 0x966; 0x9E6; 0xA66; 0xAE6; 0xB66; 0xBE6;
   0xC66; 0xCE6; 0xD66; 0xDE6; 0xE50; 0xED0; 0xF20; 0x1040; 0x1090;
   0x17E0; 0x1810; 0x1946; 0x19D0; 0x1A80; 0x1A90; 0x1B50; 0x1BB0;
   0x1C40; 0x1C50; 0xA620; 0xA8D0; 0xA900; 0xA9D0; 0xA9F0; 0xAA50;
   0xABF0; 0xFF10; 0x104A0; 0x10D30; 0x11066; 0x110F0; 0x11136;
   0x111D0; 0x112F0; 0x11450; 0x114D0; 0x11650; 0x116C0; 0x11730;
   0x118E0; 0x11950; 0x11C50; 0x11D50; 0x11DA0; 0x16A60; 0x16AC0;
   0x16B50; 0x1D7CE; 0x1D7D8; 0x1D7E2; 0x1D7EC; 0x1D7F6; 0x1E140;
   0x1E2F0; 0x1E950; 0x1FBF0].

Definition is_digit (c : N) : bool :=
  existsb (fun z => in_range z (z + 9) c) digit_zeros.

Fixpoint lstrip (s : str) : str :=
  match s with
  | c :: r => if is_space c then lstrip r else s
  | [] => []
  end.

Definition rstrip (s : str) : str := rev (lstrip (rev s)).

(** [s.strip()] *)
Definition strip (s : str) : str := rstrip (lstrip s).

(** [s.split()]: the maximal runs of non-space characters.  [cur] is
    the run being read, in reverse. *)
Fixpoint split_from (cur : str) (s : str) : list str :=
  match s with
  | [] => match cur with [] => [] | _ => [rev cur] end
  | c :: r =>
      if is_space c then
        match cur with
        | [] => split_from [] r
        | _ => rev cur :: split_from [] r
        end
      else split_from (c :: cur) r
  end.

Definition split (s : str) : list str := split_from [] s.

(** [sep.join(parts)] *)
Fixpoint join (sep : str) (parts : list str) : str :=
  match parts with
  | [] => []
  | [p] => p
  | p :: rest => p ++ sep ++ join sep rest
  end.

Fixpoint starts_with (p s : str) : bool :=
  match p, s with
  | [], _ => true
  | a :: p', b :: s' => (a =? b) && starts_with p' s'
  | _ :: _, [] => false
  end.

(** [p in s] *)
Fixpoint contains (p s : str) : bool :=
  starts_with p s || match s with [] => false | _ :: r => contains p r end.

(** [any(k in s for k in keywords)] *)
Definition any_in (keywords : list str) (s : str) : bool :=
  existsb (fun k => contains k s) keywords.

(** [not s]: the empty string is falsy. *)
Definition falsy (s : str) : bool := match s with [] => true | _ => false end.

End PyStr.

Import PyStr.
Arguments u s%_string.

(** The outcome of a call that may raise. *)
Inductive Res (A : Type) : Type :=
| Ok (a : A)
| Raise.
Arguments Ok {A} a.
Arguments Raise {A}.

(** Computations that read and write a state [S] and may raise; the
    state reached when an exception is raised is kept, as the attributes
    of a Python object are. *)
Definition M (S A : Type) : Type := S -> Res A * S.

Definition ret {S A} (a : A) : M S A := fun s => (Ok a, s).

Definition bind {S A B} (m : M S A) (k : A -> M S B) : M S B :=
  fun s =>
    match m s with
    | (Ok a, s') => k a s'
    | (Raise, s') => (Raise, s')
    end.

Definition gets {S A} (f : S -> A) : M S A := fun s => (Ok (f s), s).

Definition modify {S} (f : S -> S) : M S unit := fun s => (Ok tt, f s).

(** A call whose outcome does not depend on the state. *)
Definition lift_res {S A} (r : Res A) : M S A := fun s => (r, s).

(** [try: m  except Exception: handler] *)
Definition try_except {S A} (m handler : M S A) : M S A :=
  fun s =>
    match m s with
    | (Ok a, s') => (Ok a, s')
    | (Raise, s') => handler s'
    end.

(** [for x in l: acc = body(x, acc)] *)
Fixpoint for_each {S A B} (l : list B) (body : B -> A -> M S A) (acc : A)
    : M S A :=
  match l with
  | [] => ret acc
  | x :: rest => bind (body x acc) (for_each rest body)
  end.

Declare Scope py_scope.
Delimit Scope py_scope with py.
Notation "x <- c ;; k" := (bind c (fun x => k))
  (at level 100, c at next level, right associativity) : py_scope.
Notation "c ;; k" := (bind c (fun _ => k))
  (at level 100, right associativity) : py_scope.

(** Strict comparison of two floats, as a boolean. *)
Definition Qlt_bool (x y : Q) : bool := negb (Qle_bool y x).

(* ===================================================================== *)
(** ** Retrieval quality gate ([modules/knowledge_base.py]) *)
(* ===================================================================== *)

Module KnowledgeBase.

(** A metadata dict; [None] and [{}] are both the empty list. *)
Definition metadata := list (str * str).

(** One entry of the list returned by [search_relevant_docs]. *)
Record doc := {
  content : str;
  doc_metadata : metadata;
  distance : Q
}.

(** What [collection.query] returns for the single query text. *)
Record query_result := {
  documents : list str;
  distances : list Q;
  metadatas : list metadata
}.

(** The ChromaDB collection, over the state [Store] of the index. *)
Record collection (Store : Type) := {
  count : Store -> Res Z;
  query : Store -> str -> Z -> Res query_result
}.
Arguments count {Store} _ _.
Arguments query {Store} _ _ _ _.

(** The loop over [enumerate(zip(documents, distances))]. *)
Fixpoint relevant_from (i : nat) (docs : list str) (dists : list Q)
    (metas : list metadata) : list doc :=
  match docs, dists with
  | d :: docs', x :: dists' =>
      if Qlt_bool x 0.9
      then {| content := d; doc_metadata := nth i metas []; distance := x |}
             :: relevant_from (S i) docs' dists' metas
      else relevant_from (S i) docs' dists' metas
  | _, _ => []
  end.

Definition procedural_keywords : list str := List.map u [
  "как получить"; "как оформить"; "как подать"; "как зарегистрировать";
  "какие документы"; "какие справки"; "где получить"; "куда обратиться";
  "процедура"; "порядок"; "инструкция"; "пошагово"; "алгоритм";
  "лицензия"; "разрешение"; "справка"; "регистрация"; "оформление" ]%string.

Definition bot_keywords : list str := List.map u [
  "бот"; "не работает"; "не отвечает"; "не обращается"; "ошибка";
  "pravo.by"; "сайт"; "поиск"; "динамический" ]%string.

Definition procedural_content_keywords : list str := List.map u [
  "процедура"; "порядок"; "инструкция"; "алгоритм"; "пошагово";
  "документы"; "справка"; "заявление"; "подача"; "получение";
  "регистрация"; "оформление"; "лицензия"; "разрешение" ]%string.

Definition is_procedural (query_text : str) : bool :=
  any_in procedural_keywords (lower query_text).

Definition is_bot_related (query_text : str) : bool :=
  any_in bot_keywords (lower query_text).

Definition has_procedural_content (best_doc : doc) : bool :=
  any_in procedural_content_keywords (lower (content best_doc)).

(** [min(doc['distance'] for doc in relevant_docs)] of a non-empty
    list [first :: rest]. *)
Definition best_distance (first : doc) (rest : list doc) : Q :=
  fold_left (fun m d => if Qlt_bool (distance d) m then distance d else m)
    rest (distance first).

Section Gate.
Context {Store : Type} (coll : collection Store).

Definition search_relevant_docs (st : Store) (query_text : str)
    (n_results : Z) : list doc :=
  if falsy query_text || falsy (strip query_text) then []
  else
    match count coll st with
    | Raise => []
    | Ok collection_count =>
        if (collection_count =? 0)%Z then []
        else
          let n_results := Z.min n_results collection_count in
          match query coll st query_text n_results with
          | Raise => []
          | Ok results =>
              relevant_from 0 (documents results) (distances results)
                (metadatas results)
          end
    end.

Definition should_use_dynamic_search (st : Store) (query_text : str)
    (n_results : Z) : bool * list doc :=
  let relevant_docs := search_relevant_docs st query_text n_results in
  match relevant_docs with
  | [] => (true, [])
  | first :: rest =>
      let best := best_distance first rest in
      if is_bot_related query_text then (false, relevant_docs)
      else if is_procedural query_text then
        if negb (has_procedural_content first) || Qlt_bool 0.35 best
        then (true, relevant_docs)
        else (false, relevant_docs)
      else if Qlt_bool 0.6 best then (true, relevant_docs)
      else (false, relevant_docs)
  end.

End Gate.

(** The store's matches, paired up in the order the store gave them. *)
Definition store_matches (r : query_result) : list doc :=
  imap (fun i '(d, x) =>
          {| content := d; doc_metadata := nth i (metadatas r) [];
             distance := x |})
       (zip (documents r) (distances r)).

End KnowledgeBase.

(* ===================================================================== *)
(** ** The fragment of [re] the filter uses *)
(* ===================================================================== *)

Module Re.

(** The first code point of a literal. *)
Definition ch (s : string) : N := hd 0 (u s).
Arguments ch s%_string.

Inductive charset :=
| Chr (c : N)              (* a literal character *)
| Space                    (* \s *)
| Digit                    (* \d *)
| OneOf (cs : list N).     (* [abc] *)

Inductive node :=
| One (cs : charset)
| Rep (cs : charset) (lo : nat) (hi : option nat)  (* greedy x*, x+, x{m,n} *)
| Group (alts : list str).                         (* (lit|lit|...) *)

Definition pattern := list node.

(** *** Reading a pattern *)

Definition is_ascii_alnum (c : N) : bool :=
  in_range 0x30 0x39 c || in_range 0x41 0x5A c || in_range 0x61 0x7A c.

Definition is_special (c : N) : bool :=
  existsb (N.eqb c)
    (u ".^$*+?{}[]\|()")%string.

(** The members of a [[...]] set up to the closing bracket. *)
Fixpoint read_set (acc : list N) (s : str) : option (list N * str) :=
  match s with
  | [] => None
  | c :: r =>
      if c =? ch "]" then Some (rev acc, r)
      else if (c =? ch "\") || (c =? ch "-") || (c =? ch "^") then None
      else read_set (c :: acc) r
  end.

(** The alternatives of a group up to the closing parenthesis. *)
Fixpoint read_alts (done : list str) (cur : str) (s : str)
    : option (list str * str) :=
  match s with
  | [] => None
  | c :: r =>
      if c =? ch ")" then Some (rev (rev cur :: done), r)
      else if c =? ch "|" then read_alts (rev cur :: done) [] r
      else if is_special c then None
      else read_alts done (c :: cur) r
  end.

(** A decimal number and the rest of the text. *)
Fixpoint read_nat (acc : option nat) (s : str) : option nat * str :=
  match s with
  | c :: r =>
      if in_range 0x30 0x39 c
      then read_nat (Some (10 * default 0%nat acc + N.to_nat (c - 0x30))%nat) r
      else (acc, s)
  | [] => (acc, s)
  end.

Inductive atom :=
| ASet (cs : charset)
| AGroup (alts : list str).

Definition read_atom (s : str) : option (atom * str) :=
  match s with
  | [] => None
  | c :: r =>
      if c =? ch "\" then
        match r with
        | e :: r' =>
            if e =? ch "s" then Some (ASet Space, r')
            else if e =? ch "d" then Some (ASet Digit, r')
            else if is_ascii_alnum e then None
            else Some (ASet (Chr e), r')
        | [] => None
        end
      else if c =? ch "[" then
        match read_set [] r with
        | Some (cs, r') => Some (ASet (OneOf cs), r')
        | None => None
        end
      else if c =? ch "(" then
        match read_alts [] [] r with
        | Some (alts, r') => Some (AGroup alts, r')
        | None => None
        end
      else if is_special c then None
      else Some (ASet (Chr c), r)
  end.

(** The quantifier that follows an atom, if any. *)
Definition read_quant (s : str) : option (option (nat * option nat) * str) :=
  match s with
  | c :: r =>
      if c =? ch "*" then Some (Some (0%nat, None), r)
      else if c =? ch "+" then Some (Some (1%nat, None), r)
      else if c =? ch "?" then Some (Some (0%nat, Some 1%nat), r)
      else if c =? ch "{" then
        match read_nat None r with
        | (Some m, c1 :: r1) =>
            if c1 =? ch "}" then Some (Some (m, Some m), r1)
            else if c1 =? ch "," then
              match read_nat None r1 with
              | (hi, c2 :: r2) =>
                  if c2 =? ch "}" then Some (Some (m, hi), r2) else None
              | _ => None
              end
            else None
        | _ => None
        end
      else Some (None, s)
  | [] => Some (None, s)
  end.

Fixpoint parse (fuel : nat) (s : str) : option pattern :=
  match fuel with
  | O => None
  | S fuel' =>
      match s with
      | [] => Some []
      | _ =>
          match read_atom s with
          | None => None
          | Some (a, r) =>
              match read_quant r with
              | None => None
              | Some (q, r') =>
                  match a, q with
                  | ASet cs, None => option_map (cons (One cs)) (parse fuel' r')
                  | ASet cs, Some (lo, hi) =>
                      option_map (cons (Rep cs lo hi)) (parse fuel' r')
                  | AGroup alts, None =>
                      option_map (cons (Group alts)) (parse fuel' r')
                  | AGroup _, Some _ => None
                  end
              end
          end
      end
  end.

(** [re.compile(text)]; a pattern outside the fragment matches
    nothing. *)
Definition compile (text : string) : pattern :=
  let s := u text in
  match parse (S (length s)) s with
  | Some p => p
  | None => [One (OneOf [])]
  end.
Arguments compile text%_string.

(** *** Matching *)

Definition char_eq (ignorecase : bool) (p c : N) : bool :=
  if ignorecase then lower_char p =? lower_char c else p =? c.

Definition cs_match (ignorecase : bool) (cs : charset) (c : N) : bool :=
  match cs with
  | Chr p => char_eq ignorecase p c
  | Space => is_space c
  | Digit => is_digit c
  | OneOf l => existsb (fun p => char_eq ignorecase p c) l
  end.

(** Greedy repetition with backtracking; [k] matches the rest of the
    pattern and returns the text after the whole match. *)
Fixpoint rep_match (ic : bool) (cs : charset) (lo : nat) (hi : option nat)
    (s : str) (k : str -> option str) : option str :=
  let stop := match lo with O => k s | S _ => None end in
  match s with
  | c :: r =>
      if cs_match ic cs c && match hi with Some O => false | _ => true end
      then match rep_match ic cs (pred lo) (option_map pred hi) r k with
           | Some e => Some e
           | None => stop
           end
      else stop
  | [] => stop
  end.

Fixpoint lit_match (ic : bool) (p s : str) : option str :=
  match p, s with
  | [], _ => Some s
  | a :: p', c :: s' => if char_eq ic a c then lit_match ic p' s' else None
  | _ :: _, [] => None
  end.

Fixpoint alts_match (ic : bool) (alts : list str) (s : str)
    (k : str -> option str) : option str :=
  match alts with
  | [] => None
  | a :: rest =>
      match lit_match ic a s with
      | Some r =>
          match k r with
          | Some e => Some e
          | None => alts_match ic rest s k
          end
      | None => alts_match ic rest s k
      end
  end.

(** A match of the whole pattern at the head of [s]; the result is
    the text that follows the match. *)
Fixpoint match_here (ic : bool) (p : pattern) (s : str) : option str :=
  match p with
  | [] => Some s
  | One cs :: p' =>
      match s with
      | c :: r => if cs_match ic cs c then match_here ic p' r else None
      | [] => None
      end
  | Rep cs lo hi :: p' => rep_match ic cs lo hi s (match_here ic p')
  | Group alts :: p' => alts_match ic alts s (match_here ic p')
  end.

(** [bool(re.search(p, s))] *)
Fixpoint search (ic : bool) (p : pattern) (s : str) : bool :=
  match match_here ic p s with
  | Some _ => true
  | None => match s with [] => false | _ :: r => search ic p r end
  end.

(** [len(re.findall(p, s))]: non-overlapping matches, left to right. *)
Fixpoint count_from (fuel : nat) (ic : bool) (p : pattern) (s : str) : nat :=
  match fuel with
  | O => 0%nat
  | S fuel' =>
      match match_here ic p s with
      | Some rest =>
          if (length rest <? length s)%nat
          then S (count_from fuel' ic p rest)
          else match s with
               | [] => 1%nat
               | _ :: r => S (count_from fuel' ic p r)
               end
      | None =>
          match s with
          | [] => 0%nat
          | _ :: r => count_from fuel' ic p r
          end
      end
  end.

Definition findall_count (ic : bool) (p : pattern) (s : str) : nat :=
  count_from (S (length s)) ic p s.

End Re.

(* ===================================================================== *)
(** ** Scraped pages ([modules/web_scraper.py]) *)
(* ===================================================================== *)

Module WebScraper.
Local Open Scope Q_scope.

(** The explanation text of the relevance gate, by its content: the
    reason of an early rejection, or the signals listed (those above
    0.3, with their scores) and the total. *)
Inductive signal := LegalTerms | DocumentStructure | LegalTerminology.

Inductive explanation :=
| TooShort
| NonLegalContent
| Found (parts : list (signal * Q)) (total : Q)
| Insufficient (total : Q).

(** The dict returned by [scrape_single_page], with the keys
    [filter_scraped_content] adds to it (the [filtered_at] time
    stamp, which nothing reads, is left out). *)
Record page := {
  url : str;
  title : str;
  page_content : str;
  domain : str;
  legal_score : option Q;
  legal_explanation : option explanation
}.

End WebScraper.

(* ===================================================================== *)
(** ** Relevance gate ([modules/legal_content_filter.py]) *)
(* ===================================================================== *)

Module LegalContentFilter.
Import Re WebScraper.
Local Open Scope Q_scope.

(** [_load_legal_keywords], the categories in the order of the dict. *)
Definition legal_keywords : list (str * list str) := [
  (u "core_legal", List.map u [
    "закон"; "кодекс"; "статья"; "пункт"; "часть"; "глава"; "раздел";
    "постановление"; "указ"; "декрет"; "решение"; "определение";
    "право"; "обязанность"; "ответственность"; "нарушение"; "штраф";
    "суд"; "судебный"; "правосудие"; "иск"; "истец"; "ответчик";
    "договор"; "соглашение"; "контракт"; "сделка"; "обязательство";
    "собственность"; "имущество"; "наследство"; "завещание";
    "регистрация"; "лицензия"; "разрешение"; "уведомление" ]%string);
  (u "belarus_legal", List.map u [
    "республика беларусь"; "беларусь"; "рб"; "белорусский";
    "совет министров"; "президент"; "парламент"; "палата представителей";
    "совет республики"; "конституционный суд"; "верховный суд";
    "министерство юстиции"; "генеральная прокуратура";
    "национальный банк"; "комитет государственного контроля" ]%string);
  (u "law_branches", List.map u [
    "гражданское право"; "трудовое право"; "семейное право";
    "административное право"; "уголовное право"; "налоговое право";
    "хозяйственное право"; "земельное право"; "экологическое право";
    "жилищное право"; "наследственное право"; "авторское право";
    "патентное право"; "банковское право"; "страховое право" ]%string);
  (u "legal_procedures", List.map u [
    "регистрация"; "лицензирование"; "сертификация"; "аккредитация";
    "судопроизводство"; "арбитраж"; "медиация"; "нотариат";
    "исполнительное производство"; "банкротство"; "ликвидация";
    "реорганизация"; "слияние"; "поглощение"; "аудит" ]%string);
  (u "legal_entities", List.map u [
    "физическое лицо"; "юридическое лицо"; "индивидуальный предприниматель";
    "общество с ограниченной ответственностью"; "акционерное общество";
    "унитарное предприятие"; "учреждение"; "организация";
    "государственный орган"; "местный орган"; "должностное лицо" ]%string);
  (u "legal_documents", List.map u [
    "паспорт"; "удостоверение"; "справка"; "выписка"; "копия";
    "заявление"; "жалоба"; "ходатайство"; "протокол"; "акт";
    "приказ"; "распоряжение"; "инструкция"; "положение"; "устав" ]%string)
]%string.

(** [_load_legal_patterns] *)
Definition legal_patterns : list pattern := List.map compile [
  "стать[яи]\s*\d+";
  "пункт\s*\d+";
  "част[ьи]\s*\d+";
  "глав[ае]\s*\d+";
  "раздел\s*\d+";
  "подпункт\s*\d+\.\d+";
  "абзац\s*\d+";
  "№\s*\d+";
  "от\s*\d{1,2}\.\d{1,2}\.\d{4}";
  "в редакции";
  "с изменениями";
  "утратил силу";
  "вступает в силу";
  "в соответствии с";
  "согласно";
  "на основании";
  "в порядке";
  "не позднее";
  "в течение";
  "подлежит";
  "обязан";
  "вправе";
  "имеет право";
  "несет ответственность";
  "штраф\s*в размере";
  "базовых величин";
  "белорусских рублей" ]%string.

(** [_load_non_legal_patterns] *)
Definition non_legal_patterns : list pattern := List.map compile [
  "рецепт"; "кулинар"; "готовить"; "приготовление"; "спорт"; "футбол";
  "хоккей"; "погода"; "гороскоп"; "развлечения"; "кино"; "музыка";
  "игры"; "мода"; "красота"; "здоровье"; "медицина"; "лечение";
  "болезнь"; "туризм"; "путешествие"; "отдых"; "реклама"; "скидка";
  "распродажа"; "купить"; "продать"; "цена"; "стоимость"; "технологии";
  "компьютер"; "интернет"; "социальные сети" ]%string.

Definition min_legal_score : Q := 0.20.

(** The [weights] table of [_calculate_legal_score]. *)
Definition weights : list (str * Q) := [
  (u "core_legal", 0.3); (u "belarus_legal", 0.25);
  (u "law_branches", 0.2); (u "legal_procedures", 0.15);
  (u "legal_entities", 0.1); (u "legal_documents", 0.05) ]%string.

(** [weights.get(category, 0.1)] *)
Fixpoint weights_get (table : list (str * Q)) (category : str) : Q :=
  match table with
  | [] => 0.1
  | (k, w) :: rest =>
      if decide (k = category) then w else weights_get rest category
  end.

Definition of_nat (n : nat) : Q := inject_Z (Z.of_nat n).

(** The number of [keywords] that occur in [text]. *)
Definition count_present (keywords : list str) (text : str) : nat :=
  length (List.filter (fun k => contains k text) keywords).

Definition cap1 (x : Q) : Q := if Qlt_bool 1 x then 1 else x.

Definition legal_url_patterns : list str := List.map u [
  "pravo.by"; "law"; "legal"; "юридический"; "право"; "закон";
  "government"; "gov"; "министерство"; "комитет"; "совет" ]%string.

(** The sum over the categories of
    [(category_score / len(keywords)) * weight]. *)
Fixpoint keyword_score (cats : list (str * list str)) (text : str) : Q :=
  match cats with
  | [] => 0
  | (category, keywords) :: rest =>
      (of_nat (count_present keywords text) / of_nat (length keywords))
        * weights_get weights category
      + keyword_score rest text
  end.

(** The sum over the patterns of [len(matches) * 0.1]. *)
Fixpoint matches_score (pats : list pattern) (text : str) : Q :=
  match pats with
  | [] => 0
  | p :: rest =>
      of_nat (findall_count true p text) * 0.1 + matches_score rest text
  end.

Definition _calculate_legal_score (text url : str) : Q :=
  let score := keyword_score legal_keywords text in
  let pattern_score := matches_score legal_patterns text in
  let url_score :=
    if falsy url then 0
    else of_nat (count_present legal_url_patterns (lower url)) * 0.1 in
  cap1 (score + pattern_score * 0.1 + url_score).

Definition _calculate_non_legal_score (text : str) : Q :=
  cap1 (matches_score non_legal_patterns text).

Definition _check_legal_structure (text : str) : Q :=
  let s1 := if search false (compile "\d+\.\s") text then 0.3 else 0 in
  let s2 :=
    if search true (compile "(статья|пункт|часть|глава)\s*\d+") text
    then 0.4 else 0 in
  let s3 :=
    if search false (compile "\d{1,2}\.\d{1,2}\.\d{4}") text then 0.2 else 0 in
  let s4 := if search false (compile "№\s*\d+") text then 0.1 else 0 in
  cap1 (s1 + s2 + s3 + s4).

Definition legal_terms : list str := List.map u [
  "в соответствии с"; "согласно"; "на основании"; "в порядке";
  "не позднее"; "в течение"; "подлежит"; "обязан"; "вправе";
  "имеет право"; "несет ответственность"; "установленный";
  "предусмотренный"; "определенный"; "указанный" ]%string.

Definition _check_legal_terminology (text : str) : Q :=
  cap1 (of_nat (count_present legal_terms text) / of_nat (length legal_terms)).

Definition _generate_explanation (legal_score structure_score
    terminology_score total_score : Q) : explanation :=
  let parts :=
    (if Qlt_bool 0.3 legal_score then [(LegalTerms, legal_score)] else [])
    ++ (if Qlt_bool 0.3 structure_score
        then [(DocumentStructure, structure_score)] else [])
    ++ (if Qlt_bool 0.3 terminology_score
        then [(LegalTerminology, terminology_score)] else []) in
  match parts with
  | [] => Insufficient total_score
  | _ => Found parts total_score
  end.

(** [f"{title} {text}".lower()] *)
Definition full_text_of (title text : str) : str :=
  lower (title ++ [ch " "] ++ text).

Definition jurisdiction_marker (full_text url : str) : bool :=
  contains (u "беларусь") full_text
  || contains (u "республика беларусь") full_text
  || contains (u "pravo.by") (lower url).

Definition official_marker (full_text : str) : bool :=
  any_in (List.map u ["постановление"; "декрет"; "указ"; "закон"; "кодекс"]%string)
    full_text.

Definition is_legal_content (text title url : str)
    : bool * Q * explanation :=
  if falsy text || (length (strip text) <? 50)%nat then (false, 0, TooShort)
  else
    let full_text := full_text_of title text in
    let non_legal_score := _calculate_non_legal_score full_text in
    if Qlt_bool 0.5 non_legal_score
    then (false, non_legal_score, NonLegalContent)
    else
      let legal_score := _calculate_legal_score full_text url in
      let structure_score := _check_legal_structure text in
      let terminology_score := _check_legal_terminology full_text in
      let total_score :=
        legal_score * 0.6 + structure_score * 0.25
        + terminology_score * 0.15 in
      let total_score :=
        if jurisdiction_marker full_text url then total_score + 0.1
        else total_score in
      let total_score :=
        if official_marker full_text then total_score + 0.05
        else total_score in
      let is_legal := Qle_bool min_legal_score total_score in
      (is_legal, total_score,
       _generate_explanation legal_score structure_score
         terminology_score total_score).

Fixpoint filter_scraped_content (scraped_data : list page) : list page :=
  match scraped_data with
  | [] => []
  | p :: rest =>
      if falsy (page_content p) then filter_scraped_content rest
      else
        let '(is_legal, score, expl) :=
          is_legal_content (page_content p) (title p) (url p) in
        if is_legal
        then {| url := url p; title := title p;
                page_content := page_content p; domain := domain p;
                legal_score := Some score;
                legal_explanation := Some expl |}
               :: filter_scraped_content rest
        else filter_scraped_content rest
  end.

End LegalContentFilter.

(* ===================================================================== *)
(** ** [hashlib.md5] (RFC 1321) *)
(* ===================================================================== *)

Module MD5.

Definition w32 (x : N) : N := x mod 0x100000000.
Definition not32 (x : N) : N := N.lxor x 0xFFFFFFFF.
Definition rotl (x c : N) : N :=
  w32 (N.lor (N.shiftl x c) (N.shiftr x (32 - c))).

Definition shifts : list N :=
  [7; 12; 17; 22; 7; 12; 17; 22; 7; 12; 17; 22; 7; 12; 17; 22;
   5;  9; 14; 20; 5;  9; 14; 20; 5;  9; 14; 20; 5;  9; 14; 20;
   4; 11; 16; 23; 4; 11; 16; 23; 4; 11; 16; 23; 4; 11; 16; 23;
   6; 10; 15; 21; 6; 10; 15; 21; 6; 10; 15; 21; 6; 10; 15; 21].

Definition K : list N :=
  [0xd76aa478; 0xe8c7b756; 0x242070db; 0xc1bdceee;
   0xf57c0faf; 0x4787c62a; 0xa8304613; 0xfd469501;
   0x698098d8; 0x8b44f7af; 0xffff5bb1; 0x895cd7be;
   0x6b901122; 0xfd987193; 0xa679438e; 0x49b40821;
   0xf61e2562; 0xc040b340; 0x265e5a51; 0xe9b6c7aa;
   0xd62f105d; 0x02441453; 0xd8a1e681; 0xe7d3fbc8;
   0x21e1cde6; 0xc33707d6; 0xf4d50d87; 0x455a14ed;
   0xa9e3e905; 0xfcefa3f8; 0x676f02d9; 0x8d2a4c8a;
   0xfffa3942; 0x8771f681; 0x6d9d6122; 0xfde5380c;
   0xa4beea44; 0x4bdecfa9; 0xf6bb4b60; 0xbebfbc70;
   0x289b7ec6; 0xeaa127fa; 0xd4ef3085; 0x04881d05;
   0xd9d4d039; 0xe6db99e5; 0x1fa27cf8; 0xc4ac5665;
   0xf4292244; 0x432aff97; 0xab9423a7; 0xfc93a039;
   0x655b59c3; 0x8f0ccc92; 0xffeff47d; 0x85845dd1;
   0x6fa87e4f; 0xfe2ce6e0; 0xa3014314; 0x4e0811a1;
   0xf7537e82; 0xbd3af235; 0x2ad7d2bb; 0xeb86d391].

Definition state := (N * N * N * N)%type.

Definition init : state := (0x67452301, 0xefcdab89, 0x98badcfe, 0x10325476).

(** One of the 64 operations on the block [M] of sixteen words. *)
Definition step (M : list N) (st : state) (i : N) : state :=
  let '(A, B, C, D) := st in
  let '(F, g) :=
    if i <? 16 then (N.lor (N.land B C) (N.land (not32 B) D), i)
    else if i <? 32 then
      (N.lor (N.land D B) (N.land (not32 D) C), (5 * i + 1) mod 16)
    else if i <? 48 then (N.lxor B (N.lxor C D), (3 * i + 5) mod 16)
    else (N.lxor C (N.lor B (not32 D)), (7 * i) mod 16) in
  let F := w32 (F + A + nth (N.to_nat i) K 0 + nth (N.to_nat g) M 0) in
  (D, w32 (B + rotl F (nth (N.to_nat i) shifts 0)), B, C).

Definition rounds : list N := List.map N.of_nat (seq 0 64).

Definition process_block (st : state) (M : list N) : state :=
  let '(a0, b0, c0, d0) := st in
  let '(A, B, C, D) := fold_left (step M) rounds st in
  (w32 (a0 + A), w32 (b0 + B), w32 (c0 + C), w32 (d0 + D)).

(** The [n] low bytes of [x], least significant first. *)
Fixpoint le_bytes (n : nat) (x : N) : list N :=
  match n with
  | O => []
  | S n' => x mod 256 :: le_bytes n' (x / 256)
  end.

Definition pad (msg : list N) : list N :=
  let len := N.of_nat (length msg) in
  msg ++ [0x80] ++ repeat 0 (N.to_nat ((119 - len mod 64) mod 64))
      ++ le_bytes 8 (8 * len).

(** Little-endian 32-bit words of a byte string. *)
Fixpoint words (bytes : list N) : list N :=
  match bytes with
  | b0 :: b1 :: b2 :: b3 :: rest =>
      (b0 + 256 * b1 + 65536 * b2 + 16777216 * b3) :: words rest
  | _ => []
  end.

Fixpoint blocks (n : nat) (ws : list N) : list (list N) :=
  match n with
  | O => []
  | S n' => firstn 16 ws :: blocks n' (skipn 16 ws)
  end.

Definition digest (msg : list N) : list N :=
  let ws := words (pad msg) in
  let '(a, b, c, d) :=
    fold_left process_block (blocks (length ws / 16) ws) init in
  le_bytes 4 a ++ le_bytes 4 b ++ le_bytes 4 c ++ le_bytes 4 d.

Definition hex_digit (x : N) : N := if x <? 10 then 0x30 + x else 0x57 + x.

(** [hashlib.md5(msg).hexdigest()] *)
Definition hexdigest (msg : list N) : str :=
  flat_map (fun b => [hex_digit (b / 16); hex_digit (b mod 16)]) (digest msg).

End MD5.

(* ===================================================================== *)
(** ** Incremental crawl manager ([modules/incremental_scraper.py]) *)
(* ===================================================================== *)

Module IncrementalScraper.
Import WebScraper.
Local Open Scope Z_scope.

(** [timedelta(hours=n)] and [timedelta(days=n)], in microseconds. *)
Definition hours (n : Z) : Z := n * 3600000000.
Definition days (n : Z) : Z := hours (24 * n).

Definition check_interval_hours : Z := 24.

(** The hash raises [UnicodeEncodeError] on a text that cannot be
    encoded. *)
Definition _get_content_hash (content : str) : Res str :=
  let normalized := strip (lower content) in
  let normalized := join [Re.ch " "] (split normalized) in
  match utf8_encode normalized with
  | Some bytes => Ok (MD5.hexdigest bytes)
  | None => Raise
  end.

(** [pages_info["pages"][url]]; a key that is absent (or holds an
    empty value) is [None]. *)
Record page_info := {
  content_hash : option str;
  info_title : option str;
  last_check : option Z;
  last_scraped : option Z;
  content_length : option nat
}.

(** [pages_info["site_maps"][domain]] *)
Record site_map := {
  urls : list str;
  last_scan : option Z;
  total_urls : nat
}.

(** The dict built by [_get_page_info] (its [last_modified] entry,
    which nothing reads, is left out). *)
Record current_info := {
  cur_title : str;
  cur_content_hash : str;
  cur_content_length : nat;
  check_time : Z
}.

(** The dict returned by [incremental_scrape]; the early return has
    no [scraped_urls]. *)
Record report := {
  total_urls_checked : nat;
  new_pages : nat;
  changed_pages : nat;
  deleted_pages : nat;
  pages_scraped : nat;
  chunks_added : Z;
  scraped_urls : option (list str)
}.

Section Scraper.
(** [X] is the state of the collaborators (vector store, tracker). *)
Context {X : Type}.

(** The environment: the clock, the site and the collaborators.
    - [clock k] is the [k]-th reading of [datetime.now()];
    - [get_page url] is the title and the main content that
      [_get_page_info] extracts from the page, [None] when the
      request or the parsing raises;
    - [get_links url] is the outcome of [get_legal_links] on the
      page during discovery, [None] when the request itself raises;
    - [scrape_single_page] and [add_to_knowledge_base] are the
      methods of the [WebScraper], [update_scraping_info] the one
      of the [ScrapingTracker]. *)
Record env := {
  clock : nat -> Z;
  netloc : str -> str;
  get_page : str -> option (str * str);
  get_links : str -> option (Res (list str));
  scrape_single_page : str -> option page;
  add_to_knowledge_base : list page -> X -> Res Z * X;
  update_scraping_info : str -> nat -> Z -> X -> X
}.

(** The scraper object: [self.pages_info], the number of clock
    readings taken so far, and the collaborators. *)
Record state := {
  pages : gmap str page_info;
  site_maps : gmap str site_map;
  tick : nat;
  ext : X
}.

Definition set_pages (f : gmap str page_info -> gmap str page_info)
    (s : state) : state :=
  {| pages := f (pages s); site_maps := site_maps s;
     tick := tick s; ext := ext s |}.

Definition set_site_maps (f : gmap str site_map -> gmap str site_map)
    (s : state) : state :=
  {| pages := pages s; site_maps := f (site_maps s);
     tick := tick s; ext := ext s |}.

(** One more reading of the clock has been taken. *)
Definition advance (s : state) : state :=
  {| pages := pages s; site_maps := site_maps s;
     tick := S (tick s); ext := ext s |}.

Variable e : env.

Local Open Scope py_scope.

(** [datetime.now()] *)
Definition now : M state Z :=
  fun s => (Ok (clock e (tick s)), advance s).

Definition _get_page_info (url : str) : M state (option current_info) :=
  match get_page e url with
  | None => ret None
  | Some (title_text, content) =>
      match _get_content_hash content with
      | Raise => ret None
      | Ok h =>
          t <- now ;;
          ret (Some {| cur_title := title_text; cur_content_hash := h;
                       cur_content_length := length content;
                       check_time := t |})
      end
  end.

(** The traversal of [_discover_site_urls].  [budget] is
    [max_pages - len(urls_found)]: every page fetched is new to
    [urls_found], because it was not in [checked_urls], which
    contains [urls_found].  [scan] pops the queue until a fetch
    succeeds. *)
Fixpoint traverse (budget : nat) (urls_found checked_urls : gset str)
    (urls_to_check : list str) : gset str :=
  match budget with
  | O => urls_found
  | S budget' =>
      (fix scan (checked_urls : gset str) (urls_to_check : list str)
           {struct urls_to_check} : gset str :=
         match urls_to_check with
         | [] => urls_found
         | current_url :: queue =>
             if decide (current_url ∈ checked_urls)
             then scan checked_urls queue
             else
               let checked_urls := {[current_url]} ∪ checked_urls in
               match get_links e current_url with
               | None => scan checked_urls queue
               | Some links =>
                   let urls_found := {[current_url]} ∪ urls_found in
                   let added :=
                     match links, budget' with
                     | Ok new_links, S _ =>
                         List.filter
                           (fun link =>
                              negb (bool_decide (link ∈ checked_urls)))
                           new_links
                     | _, _ => []
                     end in
                   traverse budget' urls_found checked_urls
                     (queue ++ added)
               end
         end) checked_urls urls_to_check
  end.

(** [_discover_site_urls]; nothing in its [try] block raises here
    (the requests are oracles, the time stamps are well formed), so the
    [except] branch that returns [[start_url]] is never taken. *)
Definition _discover_site_urls (start_url : str) (max_pages : Z)
    : M state (list str) :=
  let domain := netloc e start_url in
  cached <-
    (sm <- gets (fun s => site_maps s !! domain) ;;
     match sm with
     | Some site_map =>
         match last_scan site_map with
         | Some last_scan =>
             t <- now ;;
             if t - last_scan <? days 7
             then ret (Some (urls site_map))
             else ret None
         | None => ret None
         end
     | None => ret None
     end) ;;
  match cached with
  | Some urls => ret urls
  | None =>
      let urls_found := traverse (Z.to_nat max_pages) ∅ ∅ [start_url] in
      let urls_list := elements urls_found in
      t <- now ;;
      modify (set_site_maps
                (insert domain
                   {| urls := urls_list; last_scan := Some t;
                      total_urls := length urls_list |})) ;;
      ret urls_list
  end.

(** One round of the first loop of [check_for_changes]; the three
    lists grow at their ends. *)
Definition check_one (url : str) (acc : list str * list str * list str)
    : M state (list str * list str * list str) :=
  let '(new_pages, changed_pages, deleted_pages) := acc in
  known <- gets (fun s => pages s !! url) ;;
  match known with
  | None => ret (new_pages ++ [url], changed_pages, deleted_pages)
  | Some page_info =>
      fresh <-
        match last_check page_info with
        | Some last_check =>
            t <- now ;;
            ret (t - last_check <? hours check_interval_hours)
        | None => ret false
        end ;;
      if (fresh : bool) then ret acc
      else
        current_info <- _get_page_info url ;;
        match current_info with
        | None => ret (new_pages, changed_pages, deleted_pages ++ [url])
        | Some current_info =>
            let old_hash := content_hash page_info in
            let new_hash := cur_content_hash current_info in
            let changed_pages :=
              if decide (old_hash = Some new_hash) then changed_pages
              else changed_pages ++ [url] in
            modify (set_pages
              (insert url
                 {| content_hash := Some new_hash;
                    info_title := Some (cur_title current_info);
                    last_check := Some (check_time current_info);
                    last_scraped := last_scraped page_info;
                    content_length := content_length page_info |})) ;;
            ret (new_pages, changed_pages, deleted_pages)
        end
  end.

Definition check_for_changes (urls : list str)
    : M state (list str * list str * list str) :=
  acc <- for_each urls check_one ([], [], []) ;;
  let '(new_pages, changed_pages, deleted_pages) := acc in
  known <- gets (fun s => List.map fst (map_to_list (pages s))) ;;
  let removed :=
    List.filter (fun url => negb (bool_decide (url ∈ urls))) known in
  ret (new_pages, changed_pages, deleted_pages ++ removed).

(** One round of the loop of [incremental_scrape] over
    [pages_to_scrape]. *)
Definition scrape_one (url : str) (scraped_data : list page)
    : M state (list page) :=
  match scrape_single_page e url with
  | Some page_data =>
      h <- lift_res (_get_content_hash (page_content page_data)) ;;
      t1 <- now ;;
      t2 <- now ;;
      modify (set_pages
        (insert url
           {| content_hash := Some h;
              info_title := Some (title page_data);
              last_check := Some t1;
              last_scraped := Some t2;
              content_length := Some (length (page_content page_data)) |})) ;;
      ret (scraped_data ++ [page_data])
  | None => ret scraped_data
  end.

(** [for url in deleted_pages: if url in pages: del pages[url]] *)
Definition forget (deleted_pages : list str) (s : state) : state :=
  set_pages (fun m => fold_left (fun m url => delete url m) deleted_pages m) s.

Definition incremental_scrape (start_url : str) (max_pages : Z)
    : M state report :=
  all_urls <- _discover_site_urls start_url max_pages ;;
  found <- check_for_changes all_urls ;;
  let '(new, changed, deleted) := found in
  let pages_to_scrape := new ++ changed in
  match pages_to_scrape with
  | [] =>
      ret {| total_urls_checked := length all_urls;
             new_pages := 0; changed_pages := 0;
             deleted_pages := length deleted;
             pages_scraped := 0; chunks_added := 0;
             scraped_urls := None |}
  | _ =>
      scraped_data <- for_each pages_to_scrape scrape_one [] ;;
      modify (forget deleted) ;;
      added <-
        match scraped_data with
        | [] => ret 0
        | _ =>
            fun s =>
              let '(r, x) := add_to_knowledge_base e scraped_data (ext s) in
              (r, {| pages := pages s; site_maps := site_maps s;
                     tick := tick s; ext := x |})
        end ;;
      modify (fun s =>
        {| pages := pages s; site_maps := site_maps s; tick := tick s;
           ext := update_scraping_info e start_url (length scraped_data)
                    added (ext s) |}) ;;
      ret {| total_urls_checked := length all_urls;
             new_pages := length new;
             changed_pages := length changed;
             deleted_pages := length deleted;
             pages_scraped := length scraped_data;
             chunks_added := added;
             scraped_urls := Some (List.map url scraped_data) |}
  end.

End Scraper.

Arguments env : clear implicits.
Arguments state : clear implicits.

End IncrementalScraper.

(* ===================================================================== *)
(** ** Fallback search orchestrator ([modules/dynamic_search.py]) *)
(* ===================================================================== *)

Module DynamicSearcher.
Import WebScraper.
Local Open Scope Z_scope.

Definition max_search_results : nat := 5.

Definition stop_words : list str := List.map u [
  "как"; "что"; "где"; "когда"; "почему"; "зачем"; "кто"; "какой"; "какая";
  "какие"; "в"; "на"; "с"; "по"; "для"; "от"; "до"; "при"; "за"; "под";
  "над"; "между"; "и"; "или"; "но"; "а"; "да"; "нет"; "не"; "ни"; "же";
  "ли"; "бы"; "то"; "это"; "этот"; "эта"; "эти"; "тот"; "та"; "те"; "мой";
  "моя"; "мои"; "его"; "её"; "их"; "наш"; "наша"; "наши"; "ваш"; "ваша";
  "ваши" ]%string.

Definition rb_specific_terms : list str := List.map u [
  "республика беларусь"; "беларусь"; "рб"; "белорусский";
  "закон"; "кодекс"; "постановление"; "указ"; "декрет" ]%string.

(** [str(n)] for a length. *)
Fixpoint digits_from (fuel : nat) (n : N) (acc : str) : str :=
  match fuel with
  | O => acc
  | S fuel' =>
      let acc := ((0x30 + n mod 10)%N :: acc) in
      if (n / 10 =? 0)%N then acc else digits_from fuel' (n / 10)%N acc
  end.

Definition str_of_nat (n : nat) : str := digits_from (S n) (N.of_nat n) [].

Section Searcher.
(** [X] is the state of everything outside the searcher: the
    network, the vector store and the tracker. *)
Context {X : Type}.

(** The collaborators.  [extract_words text] is
    [re.findall(r'\b[а-яё]+\b', text)]; a collaborator that may
    raise returns a [Res]. *)
Record env := {
  extract_words : str -> list str;
  _search_pravo_by : str -> M X (list str);
  scrape_single_page : str -> M X (option page);
  add_to_knowledge_base : list page -> M X Z;
  update_scraping_info : str -> nat -> Z -> M X unit;
  store : KnowledgeBase.collection X;
  get_answer : str -> list KnowledgeBase.doc -> M X (option str)
}.

Variable e : env.

Local Open Scope py_scope.

Definition _extract_keywords (text : str) : list str :=
  let words := extract_words e (lower text) in
  let keywords :=
    List.filter
      (fun word =>
         negb (bool_decide (word ∈ stop_words)) && (2 <? length word)%nat)
      words in
  firstn 10 keywords.

Definition _generate_search_queries (user_question : str) : list str :=
  let queries := [user_question] in
  let keywords := _extract_keywords user_question in
  let queries :=
    if (1 <? length keywords)%nat
    then queries ++ [join (u " ") (firstn 3 keywords)]
    else queries in
  let queries :=
    match List.find (fun term => contains term (lower user_question))
            rb_specific_terms with
    | Some term =>
        let term_query :=
          term ++ u " " ++ join (u " ") (firstn 2 keywords) in
        if bool_decide (term_query ∈ queries) then queries
        else queries ++ [term_query]
    | None => queries
    end in
  firstn 3 queries.

(** [for query in search_queries: all_found_urls.extend(...)] *)
Definition search_one (query : str) (all_found_urls : list str)
    : M X (list str) :=
  found_urls <- _search_pravo_by e query ;;
  ret (all_found_urls ++ found_urls).

(** One round of the scraping loop; an exception skips the page. *)
Definition scrape_one (url : str) (scraped_data : list page)
    : M X (list page) :=
  try_except
    (page_data <- scrape_single_page e url ;;
     match page_data with
     | Some page_data =>
         if (200 <? length (page_content page_data))%nat
         then ret (scraped_data ++ [page_data])
         else ret scraped_data
     | None => ret scraped_data
     end)
    (ret scraped_data).

(** The text appended to the answer. *)
Definition source_info (n : nat) : str :=
  u "

📍 Информация найдена и добавлена из " ++ str_of_nat n ++ u " страниц pravo.by".

(** The body of the [try] block. *)
Definition search_body (user_question : str) : M X (option str * bool) :=
  let search_queries := _generate_search_queries user_question in
  all_found_urls <- for_each search_queries search_one [] ;;
  let unique_urls := elements (list_to_set all_found_urls : gset str) in
  match unique_urls with
  | [] => ret (None, false)
  | _ =>
      scraped_data <-
        for_each (firstn max_search_results unique_urls) scrape_one [] ;;
      match scraped_data with
      | [] => ret (None, false)
      | _ =>
          let filtered_data :=
            LegalContentFilter.filter_scraped_content scraped_data in
          match filtered_data with
          | [] => ret (None, false)
          | _ =>
              chunks_added <- add_to_knowledge_base e filtered_data ;;
              if 0 <? chunks_added then
                update_scraping_info e (u "https://pravo.by/")
                  (length scraped_data) chunks_added ;;
                relevant_docs <-
                  gets (fun x =>
                          KnowledgeBase.search_relevant_docs (store e) x
                            user_question 5) ;;
                match relevant_docs with
                | [] => ret (None, false)
                | _ =>
                    answer <- get_answer e user_question relevant_docs ;;
                    match answer with
                    | Some answer =>
                        ret (Some (answer ++ source_info (length scraped_data)),
                             true)
                    | None => lift_res Raise
                    end
                end
              else ret (None, false)
          end
      end
  end.

Definition search_and_add_to_knowledge_base (user_question : str)
    : M X (option str * bool) :=
  try_except (search_body user_question) (ret (None, false)).

End Searcher.

Arguments env : clear implicits.

End DynamicSearcher.


(* ===================================================================== *)
(** ** Rescan and statistics ([modules/incremental_scraper.py]) *)
(* ===================================================================== *)

Module ScraperMaintenance.
Import IncrementalScraper.

(** The dict returned by [get_scraping_statistics] (its
    [last_full_scan] entry, which no method writes, is left out). *)
Record statistics := {
  total_pages_tracked : nat;
  domains : gmap str nat;
  stat_site_maps : gmap str nat
}.

Section Maintenance.
Context {X : Type} (e : env X).

Local Open Scope py_scope.

(** The two clean-up steps of [force_full_rescan]: the site map of the
    domain goes, and so does every record whose URL is of the domain. *)
Definition forget_domain (domain : str) (s : state X) : state X :=
  let s := set_site_maps (delete domain) s in
  let urls_to_remove :=
    List.filter (fun url => bool_decide (netloc e url = domain))
      (List.map fst (map_to_list (pages s))) in
  set_pages
    (fun m => fold_left (fun m url => delete url m) urls_to_remove m) s.

Definition force_full_rescan (start_url : str) (max_pages : Z)
    : M (state X) report :=
  modify (forget_domain (netloc e start_url)) ;;
  incremental_scrape e start_url max_pages.

(** The loop of [get_scraping_statistics] over the URLs on record. *)
Definition count_domains (urls : list str) : gmap str nat :=
  fold_left
    (fun domains url =>
       let domain := netloc e url in
       let domains :=
         match domains !! domain with
         | None => <[domain := 0%nat]> domains
         | Some _ => domains
         end in
       <[domain := S (default 0%nat (domains !! domain))]> domains)
    urls ∅.

Definition get_scraping_statistics (s : state X) : statistics :=
  {| total_pages_tracked := size (pages s);
     domains := count_domains (List.map fst (map_to_list (pages s)));
     stat_site_maps := total_urls <$> site_maps s |}.

End Maintenance.

End ScraperMaintenance.

(* ===================================================================== *)
(** ** Portal search ([modules/dynamic_search.py]) *)
(* ===================================================================== *)

Module PortalSearch.
Import DynamicSearcher.

Definition search_base_url : str := u "https://pravo.by".

(** The characters [urllib.parse.quote] leaves as they are: letters,
    digits, [_.-~] and the default safe character [/]. *)
Definition is_unreserved (b : N) : bool :=
  in_range 0x41 0x5A b || in_range 0x61 0x7A b || in_range 0x30 0x39 b
  || existsb (N.eqb b) (u "_.-~/")%string.

Definition hex_upper (n : N) : N :=
  (if n <? 10 then 0x30 + n else 0x41 + (n - 10))%N.

Definition quote_byte (b : N) : str :=
  if is_unreserved b then [b]
  else [Re.ch "%"; hex_upper (b / 16)%N; hex_upper (b mod 16)%N].

(** [quote(query)]: the UTF-8 bytes, percent-encoded; a text that
    cannot be encoded raises [UnicodeEncodeError]. *)
Definition quote (query : str) : Res str :=
  match utf8_encode query with
  | Some bytes => Ok (concat (List.map quote_byte bytes))
  | None => Raise
  end.

(** The [topic_mappings] table of [_find_relevant_pages], in the order
    of the dict. *)
Definition topic_mappings : list (str * str) := [
  (u "трудовой", u "/pravovaya-informatsiya/trudovoe-pravo/");
  (u "гражданский", u "/pravovaya-informatsiya/grazhdanskoe-pravo/");
  (u "семейный", u "/pravovaya-informatsiya/semeynoe-pravo/");
  (u "административный", u "/pravovaya-informatsiya/administrativnoe-pravo/");
  (u "уголовный", u "/pravovaya-informatsiya/ugolovnoe-pravo/");
  (u "хозяйственный", u "/pravovaya-informatsiya/khozyaystvennoe-pravo/");
  (u "налоговый", u "/pravovaya-informatsiya/nalogovoe-pravo/");
  (u "земельный", u "/pravovaya-informatsiya/zemelnoe-pravo/");
  (u "жилищный", u "/pravovaya-informatsiya/zhilishchnoe-pravo/");
  (u "ип", u "/pravovaya-informatsiya/individualnoe-predprinimatelstvo/");
  (u "ооо",
   u "/pravovaya-informatsiya/obshchestva-ogranichennoj-otvetstvennostyu/");
  (u "регистрация", u "/pravovaya-informatsiya/registratsiya/");
  (u "развод", u "/pravovaya-informatsiya/semeynoe-pravo/");
  (u "увольнение", u "/pravovaya-informatsiya/trudovoe-pravo/");
  (u "договор", u "/pravovaya-informatsiya/dogovornoe-pravo/");
  (u "наследство", u "/pravovaya-informatsiya/nasledstvennoe-pravo/");
  (u "алименты", u "/pravovaya-informatsiya/semeynoe-pravo/");
  (u "штраф", u "/pravovaya-informatsiya/administrativnoe-pravo/");
  (u "суд", u "/pravovaya-informatsiya/sudebnaya-sistema/");
  (u "права", u "/pravovaya-informatsiya/prava-grazhdan/");
  (u "обязанности", u "/pravovaya-informatsiya/obyazannosti-grazhdan/")
]%string.

Definition general_urls : list str := [
  search_base_url ++ u "/pravovaya-informatsiya/";
  search_base_url ++ u "/natsionalnyy-reestr/novye-postupleniya/";
  search_base_url ++ u "/novosti/analitika/" ].

(** [_find_relevant_pages]; [urljoin] of the base URL and an absolute
    path is the base URL followed by the path, and nothing in the [try]
    block raises. *)
Definition _find_relevant_pages (query : str) : list str :=
  let query_lower := lower query in
  let relevant_urls :=
    List.map (fun '(_, url_path) => search_base_url ++ url_path)
      (List.filter (fun '(keyword, _) => contains keyword query_lower)
         topic_mappings) in
  let relevant_urls :=
    match relevant_urls with
    | [] => general_urls
    | _ => relevant_urls
    end in
  firstn max_search_results relevant_urls.

Section Portal.
(** [X] is the state of the network. *)
Context {X : Type}.

(** The portal as the searcher sees it.
    - [get_results search_url query] is the list of hrefs that
      [_extract_search_results] finds in the page served at
      [search_url]; it raises when the request, the status check or the
      parsing does;
    - [urljoin href] is [urljoin(self.search_base_url, href)], which
      raises on a malformed href. *)
Record portal := {
  get_results : str -> str -> M X (list str);
  urljoin : str -> Res str
}.

Variable p : portal.

Local Open Scope py_scope.

(** [for link in result_links]: the links joined so far stay in
    [found_urls] when a later one raises. *)
Fixpoint add_links (result_links : list str) (found_urls : list str)
    : list str :=
  match result_links with
  | [] => found_urls
  | link :: rest =>
      match urljoin p link with
      | Raise => found_urls
      | Ok full_url =>
          add_links rest
            (if bool_decide (full_url ∈ found_urls) then found_urls
             else found_urls ++ [full_url])
      end
  end.

(** One round of the loop over [search_urls]; an exception skips to
    the next search URL. *)
Definition search_url_one (query search_url : str) (found_urls : list str)
    : M X (list str) :=
  try_except
    (result_links <- get_results p search_url query ;;
     ret (add_links result_links found_urls))
    (ret found_urls).

Definition _search_pravo_by (query : str) : M X (list str) :=
  match quote query with
  | Raise => ret []
  | Ok encoded_query =>
      let search_urls := [
        search_base_url ++ u "/search/?q=" ++ encoded_query;
        search_base_url ++ u "/pravovaya-informatsiya/?search="
          ++ encoded_query ] in
      found_urls <- for_each search_urls (search_url_one query) [] ;;
      let found_urls :=
        match found_urls with
        | [] => _find_relevant_pages query
        | _ => found_urls
        end in
      ret (firstn max_search_results found_urls)
  end.

End Portal.

Arguments portal : clear implicits.

End PortalSearch.

(* ===================================================================== *)
(** ** Writing to the store ([modules/knowledge_base.py]) *)
(* ===================================================================== *)

Module KnowledgeBaseWrite.

(** A value of a metadata dict: a text, an integer, a float, or an
    explanation of the relevance gate (a text, held by its content). *)
Inductive value :=
| VStr (s : str)
| VInt (n : Z)
| VFloat (x : Q)
| VExplanation (e : WebScraper.explanation).

(** The writing side of the ChromaDB collection, over the state
    [Store] of the index; [get_ids st doc_id] is
    [collection.get(ids=[doc_id]).get('ids', [])], and [now_iso] is
    [datetime.now().isoformat()]. *)
Record writer (Store : Type) := {
  get_ids : Store -> str -> Res (list str);
  add : str -> str -> gmap str value -> Store -> Res unit * Store;
  delete : str -> Store -> Res unit * Store;
  now_iso : Store -> str
}.
Arguments get_ids {Store} _ _ _.
Arguments add {Store} _ _ _ _ _.
Arguments delete {Store} _ _ _.
Arguments now_iso {Store} _ _.

Section Write.
Context {Store : Type} (w : writer Store).

Local Open Scope py_scope.

Definition document_exists (st : Store) (doc_id : str) : bool :=
  match get_ids w st doc_id with
  | Ok ids => (0 <? length ids)%nat
  | Raise => false
  end.

(** [metadata.update({...})] of [add_document]. *)
Definition stamped (metadata : gmap str value) (doc_id document_text : str)
    (added_date : str) : gmap str value :=
  <[u "added_date" := VStr added_date]>
    (<[u "doc_id" := VStr doc_id]>
       (<[u "length" := VInt (Z.of_nat (length document_text))]> metadata)).

Definition add_document (doc_id document_text : str)
    (metadata : option (gmap str value)) : M Store bool :=
  if falsy document_text || falsy (strip document_text) then ret false
  else
    exists_already <- gets (fun st => document_exists st doc_id) ;;
    if (exists_already : bool) then ret false
    else
      let metadata := default ∅ metadata in
      added_date <- gets (now_iso w) ;;
      try_except
        (add w doc_id document_text
           (stamped metadata doc_id document_text added_date) ;;
         ret true)
        (ret false).

Definition delete_document (doc_id : str) : M Store bool :=
  try_except (delete w doc_id ;; ret true) (ret false).

End Write.

End KnowledgeBaseWrite.

(* ===================================================================== *)
(** ** Scraping tracker ([modules/scraping_tracker.py]) *)
(* ===================================================================== *)

Module ScrapingTracker.
Local Open Scope Z_scope.

(** An entry of [scraping_history]. *)
Record history_entry := {
  entry_date : str;
  entry_time : str;
  entry_site : str;
  entry_pages_scraped : Z;
  entry_chunks_added : Z
}.

(** [self.info], as the tracker writes it; a key that is absent from
    the file is [None]. *)
Record info := {
  last_scraping_date : option str;
  last_scraping_time : option str;
  last_scraped_sites : option (list str);
  total_pages_scraped : option Z;
  total_chunks_added : option Z;
  scraping_history : option (list history_entry)
}.

Section Tracker.
(** The two [strftime] readings of the clock, and [urlparse], which
    raises on a malformed URL. *)
Variables (current_date current_time : str) (netloc : str -> Res str).

(** [history[-10:]] when there are more than ten entries. *)
Definition last_ten (history : list history_entry) : list history_entry :=
  if (10 <? length history)%nat
  then skipn (length history - 10) history
  else history.

(** [update_scraping_info]; an exception ends the update where it
    stands: a malformed URL before anything is written, a missing
    [last_scraped_sites] key after the date and the time are. *)
Definition update_scraping_info (site_url : str)
    (pages_scraped chunks_added : Z) (i : info) : info :=
  match netloc site_url with
  | Raise => i
  | Ok domain =>
      match last_scraped_sites i with
      | None =>
          {| last_scraping_date := Some current_date;
             last_scraping_time := Some current_time;
             last_scraped_sites := None;
             total_pages_scraped := total_pages_scraped i;
             total_chunks_added := total_chunks_added i;
             scraping_history := scraping_history i |}
      | Some sites =>
          let sites :=
            if bool_decide (domain ∈ sites) then sites
            else sites ++ [domain] in
          let history_entry :=
            {| entry_date := current_date; entry_time := current_time;
               entry_site := domain; entry_pages_scraped := pages_scraped;
               entry_chunks_added := chunks_added |} in
          let history :=
            default [] (scraping_history i) ++ [history_entry] in
          {| last_scraping_date := Some current_date;
             last_scraping_time := Some current_time;
             last_scraped_sites := Some sites;
             total_pages_scraped :=
               Some (default 0 (total_pages_scraped i) + pages_scraped);
             total_chunks_added :=
               Some (default 0 (total_chunks_added i) + chunks_added);
             scraping_history := Some (last_ten history) |}
      end
  end.

End Tracker.

End ScrapingTracker.

(* ===================================================================== *)
(** ** Storing scraped pages ([modules/web_scraper.py]) *)
(* ===================================================================== *)

Module WebScraperStore.
Import WebScraper KnowledgeBaseWrite.
Local Open Scope Z_scope.

(** [f"{i:03d}"] *)
Definition three_digits (i : nat) : str :=
  let s := DynamicSearcher.str_of_nat i in
  repeat (Re.ch "0") (3 - length s) ++ s.

Section Store.
Context {Store : Type}.

(** The collaborators of [add_to_knowledge_base].
    - [kb] is the collection behind [self.knowledge_base];
    - [split_text] is [self.text_processor.split_text], which may
      raise;
    - [timestamp] is [datetime.now().strftime("%Y%m%d_%H%M%S")];
    - [url_hash url] is [hash(url) % 1000000]. *)
Record env := {
  kb : writer Store;
  split_text : str -> Res (list str);
  timestamp : Store -> str;
  url_hash : str -> nat
}.

Variable e : env.

Local Open Scope py_scope.

Definition chunk_id (p : page) (i : nat) (stamp : str) : str :=
  u "dynamic_" ++ stamp ++ u "_"
    ++ DynamicSearcher.str_of_nat (url_hash e (url p))
    ++ u "_chunk_" ++ three_digits i.

(** The metadata of a chunk (the [filtered_at] entry, a time stamp
    that the page record leaves out, is left out here too). *)
Definition chunk_metadata (p : page) (i total_chunks : nat) (stamp : str)
    : gmap str value :=
  list_to_map [
    (u "source", VStr (u "web_scraper"));
    (u "url", VStr (url p));
    (u "title", VStr (title p));
    (u "domain", VStr (domain p));
    (u "chunk_index", VInt (Z.of_nat i));
    (u "total_chunks", VInt (Z.of_nat total_chunks));
    (u "content_type", VStr (u "legal_website"));
    (u "source_type", VStr (u "pravo.by_dynamic"));
    (u "scraped_at", VStr stamp);
    (u "legal_score", VFloat (default 0%Q (legal_score p)));
    (u "legal_explanation",
     match legal_explanation p with
     | Some expl => VExplanation expl
     | None => VStr []
     end) ].

(** One round of [for i, chunk in enumerate(chunks)]. *)
Definition add_chunk (p : page) (total_chunks : nat) (ic : nat * str)
    (added_count : Z) : M Store Z :=
  let '(i, chunk) := ic in
  stamp <- gets (timestamp e) ;;
  added <-
    add_document (kb e) (chunk_id p i stamp) chunk
      (Some (chunk_metadata p i total_chunks stamp)) ;;
  ret (if (added : bool) then added_count + 1 else added_count).

(** One round of the loop over the filtered pages.  Only
    [split_text] can raise inside the [try] block; the page is then
    skipped with the count as it stands. *)
Definition add_page (p : page) (added_count : Z) : M Store Z :=
  match split_text e (page_content p) with
  | Raise => ret added_count
  | Ok chunks =>
      for_each (imap (fun i chunk => (i, chunk)) chunks)
        (add_chunk p (length chunks)) added_count
  end.

Definition add_to_knowledge_base (pages_data : list page) : M Store Z :=
  match pages_data with
  | [] => ret 0
  | _ =>
      let filtered_pages :=
        LegalContentFilter.filter_scraped_content pages_data in
      match filtered_pages with
      | [] => ret 0
      | _ => for_each filtered_pages add_page 0
      end
  end.

End Store.

Arguments env : clear implicits.

End WebScraperStore.

(* ===================================================================== *)
(** ** Chunking ([modules/text_processing.py]) *)
(* ===================================================================== *)

Module TextProcessor.
Local Open Scope Z_scope.

(** [text[i]]: a negative index counts from the end, and an index out
    of range raises [IndexError]. *)
Definition py_index (text : str) (i : Z) : Res N :=
  let n := Z.of_nat (length text) in
  if (0 <=? i) && (i <? n) then Ok (nth (Z.to_nat i) text 0%N)
  else if (- n <=? i) && (i <? 0) then Ok (nth (Z.to_nat (n + i)) text 0%N)
  else Raise.

(** [text[a:b]]: negative bounds count from the end, and bounds out of
    range are clipped. *)
Definition py_slice (text : str) (a b : Z) : str :=
  let n := Z.of_nat (length text) in
  let clip i := if i <? 0 then Z.max (i + n) 0 else Z.min i n in
  firstn (Z.to_nat (clip b - clip a)) (skipn (Z.to_nat (clip a)) text).

(** [for i in range(end, stop, -1): if text[i] in breaks: ...; break]:
    the first index, going down from [i] for [steps] rounds, that
    holds a break character. *)
Fixpoint find_break (breaks : list N) (text : str) (i : Z) (steps : nat)
    : Res (option Z) :=
  match steps with
  | O => Ok None
  | S steps' =>
      match py_index text i with
      | Raise => Raise
      | Ok c =>
          if existsb (N.eqb c) breaks then Ok (Some i)
          else find_break breaks text (i - 1) steps'
      end
  end.

(** The characters of [' \n\t'] and of ['\n.!?']. *)
Definition space_breaks : list N := [0x20; 0x0A; 0x09]%N.
Definition sentence_breaks : list N := [0x0A; 0x2E; 0x21; 0x3F]%N.

Section Processor.
(** [self.chunk_size] and [self.chunk_overlap] *)
Variables chunk_size chunk_overlap : Z.

(** The [while start < len(text)] loop that [_simple_split] and
    [_split_large_block] share; they differ in the break characters
    and in whether the chunk ends before the break ([after = 0]) or
    behind it ([after = 1]).  [None] is a loop that has not ended
    within [fuel] rounds. *)
Fixpoint chunk_loop (breaks : list N) (after : Z) (text : str) (fuel : nat)
    (start : Z) (chunks : list str) : option (Res (list str)) :=
  match fuel with
  | O => None
  | S fuel' =>
      if start <? Z.of_nat (length text) then
        let end_ := start + chunk_size in
        let found :=
          if end_ <? Z.of_nat (length text) then
            find_break breaks text end_
              (Z.to_nat (end_ - Z.max (start + chunk_size - 100) start))
          else Ok None in
        match found with
        | Raise => Some Raise
        | Ok found =>
            let end_ :=
              match found with Some i => i + after | None => end_ end in
            let chunk := strip (py_slice text start end_) in
            let chunks :=
              if falsy chunk then chunks else chunks ++ [chunk] in
            let start := end_ - chunk_overlap in
            let start := if start <? 0 then end_ else start in
            chunk_loop breaks after text fuel' start chunks
        end
      else Some (Ok chunks)
  end.

Definition _simple_split (text : str) (fuel : nat)
    : option (Res (list str)) :=
  chunk_loop space_breaks 0 text fuel 0 [].

Definition _split_large_block (block : str) (fuel : nat)
    : option (Res (list str)) :=
  chunk_loop sentence_breaks 1 block fuel 0 [].

End Processor.

End TextProcessor.

(* ===================================================================== *)
(** ** The properties, as the specification words them *)
(* ===================================================================== *)

Module Properties.
Import KnowledgeBase.
Local Open Scope Q_scope.

(** A fixed index that answers every query with the same matches. *)
Definition fixed_collection (r : query_result) : collection unit :=
  {| count := fun _ => Ok (Z.of_nat (length (documents r)));
     query := fun _ _ _ => Ok r |}.

Definition one_match (text : str) (d : Q) : query_result :=
  {| documents := [text]; distances := [d]; metadatas := [[]] |}.

(** The threshold of the quality gate for a query that is not
    procedural: fall back exactly when nothing was retrieved or the
    smallest distance exceeds 0.6; otherwise answer from the retrieved
    documents. *)
Definition nonprocedural_gate {Store} (coll : collection Store) (st : Store)
    (query_text : str) (n_results : Z) : Prop :=
  let docs := search_relevant_docs coll st query_text n_results in
  let r := should_use_dynamic_search coll st query_text n_results in
  (fst r = true <->
     docs = [] \/ (forall d, d ∈ docs -> 0.6 < distance d))
  /\ (docs <> [] -> (exists d, d ∈ docs /\ distance d <= 0.6) ->
      r = (false, docs)).

(** The best-matching chunk is the first one retrieved: the store lists
    its matches nearest first. *)
Definition best_chunk_has_markers (docs : list doc) : bool :=
  match docs with
  | [] => false
  | first :: _ => has_procedural_content first
  end.

(** The stricter gate for a procedural query. *)
Definition procedural_gate {Store} (coll : collection Store) (st : Store)
    (query_text : str) (n_results : Z) : Prop :=
  let docs := search_relevant_docs coll st query_text n_results in
  let r := should_use_dynamic_search coll st query_text n_results in
  (best_chunk_has_markers docs = false
   \/ (forall d, d ∈ docs -> 0.35 < distance d) -> fst r = true)
  /\ (best_chunk_has_markers docs = true ->
      (exists d, d ∈ docs /\ distance d <= 0.35) -> fst r = false).

End Properties.

Module FilterProperties.
Import LegalContentFilter.
Local Open Scope Q_scope.


Definition admissible (text title url : str) : bool :=
  fst (fst (is_legal_content text title url)).

Definition final_score (text title url : str) : Q :=
  snd (fst (is_legal_content text title url)).


(** The number of matches of the patterns [pats] in [text]. *)
Fixpoint total_matches (pats : list Re.pattern) (text : str) : nat :=
  match pats with
  | [] => 0
  | p :: rest => Re.findall_count true p text + total_matches rest text
  end.






(** A statute excerpt that mentions a price once. *)
Definition statute_with_price : str :=
  u "Закон Республики Беларусь: статья 5 от 12.05.2023 № 7 устанавливает, что цена договора определяется соглашением сторон.".

(** A text with every structural and terminological signal, under a
    URL that names every legal URL pattern. *)
Definition saturated_text : str :=
  u "1. Статья 5 закона от 12.05.2023 № 7: в соответствии с кодексом, согласно и на основании акта, в порядке и не позднее срока, в течение которого лицо подлежит учету, обязан и вправе, имеет право и несет ответственность; установленный, предусмотренный, определенный, указанный срок. Беларусь.".



End FilterProperties.

Module FingerprintProperties.
Import IncrementalScraper.




End FingerprintProperties.

Module SearcherProperties.
Import DynamicSearcher.

(** A run of the fallback search from the state [x] in which every
    step succeeds: URLs are found, pages are scraped, some pass the
    relevance gate, at least one chunk is added, the query then
    retrieves documents, and the answer generator returns a text. *)
Definition successful_search {X} (e : env X) (user_question : str) (x : X)
    (answer : str) (x' : X) : Prop :=
  exists all_found_urls scraped_data chunks_added generated x1 x2 x3 x4,
    for_each (_generate_search_queries e user_question) (search_one e) [] x
    = (Ok all_found_urls, x1)
    /\ elements (list_to_set all_found_urls : gset str) <> []
    /\ for_each
         (firstn max_search_results
            (elements (list_to_set all_found_urls : gset str)))
         (scrape_one e) [] x1
       = (Ok scraped_data, x2)
    /\ scraped_data <> []
    /\ LegalContentFilter.filter_scraped_content scraped_data <> []
    /\ add_to_knowledge_base e
         (LegalContentFilter.filter_scraped_content scraped_data) x2
       = (Ok chunks_added, x3)
    /\ (0 < chunks_added)%Z
    /\ update_scraping_info e (u "https://pravo.by/") (length scraped_data)
         chunks_added x3
       = (Ok tt, x4)
    /\ KnowledgeBase.search_relevant_docs (store e) x4 user_question 5 <> []
    /\ get_answer e user_question
         (KnowledgeBase.search_relevant_docs (store e) x4 user_question 5) x4
       = (Ok (Some generated), x')
    /\ answer = generated ++ source_info (length scraped_data).

(** A world whose state tells whether the store holds a chunk: the
    portal lists one page, the page passes the relevance gate, adding it
    puts one chunk in the store, and the answer generator answers (or
    raises, when [generator_fails]). *)
Definition demo_page : WebScraper.page :=
  {| WebScraper.url := u "https://pravo.by/a"; WebScraper.title := u "a";
     WebScraper.page_content := FilterProperties.saturated_text;
     WebScraper.domain := u "pravo.by";
     WebScraper.legal_score := None;
     WebScraper.legal_explanation := None |}.

Definition demo_world (generator_fails : bool) : env bool :=
  {| extract_words := fun _ => [];
     _search_pravo_by := fun _ => ret [u "https://pravo.by/a"];
     scrape_single_page := fun _ => ret (Some demo_page);
     add_to_knowledge_base := fun _ _ => (Ok 1%Z, true);
     update_scraping_info := fun _ _ _ => ret tt;
     store :=
       {| KnowledgeBase.count := fun x => Ok (if x : bool then 1 else 0)%Z;
          KnowledgeBase.query := fun _ _ _ =>
            Ok (Properties.one_match FilterProperties.saturated_text 0.3%Q) |};
     get_answer := fun _ _ =>
       if generator_fails then lift_res Raise else ret (Some (u "ответ")) |}.

End SearcherProperties.

Module ScraperProperties.
Import IncrementalScraper.
Local Open Scope Z_scope.

Section Site.
Context {X : Type} (e : env X).

(** The fingerprint of the content that is live at [url], [None] when
    the page cannot be fetched (or its text cannot be hashed). *)
Definition live_hash (url : str) : option str :=
  match get_page e url with
  | Some (_, content) =>
      match _get_content_hash content with
      | Ok h => Some h
      | Raise => None
      end
  | None => None
  end.

(** The record is due for a re-check at every reading of the clock
    from the state [s] on. *)
Definition due_throughout (s : state X) (r : page_info) : Prop :=
  match last_check r with
  | None => True
  | Some t =>
      forall k, (tick s <= k)%nat -> hours check_interval_hours <= clock e k - t
  end.


(** The URLs that discovery returns from the state [s]. *)
Definition site_of (s : state X) (start_url : str) (max_pages : Z)
    : list str :=
  match _discover_site_urls e start_url max_pages s with
  | (Ok all_urls, _) => all_urls
  | (Raise, _) => []
  end.

(** What holds after the first loop of [check_for_changes] has dealt
    with the URLs [done], started in the state [s0]. *)
Definition check_inv (s0 : state X) (done : list str)
    (acc : list str * list str * list str) (s : state X) : Prop :=
  let '(new, changed, deleted) := acc in
  (site_maps s = site_maps s0 /\ ext s = ext s0 /\ (tick s0 <= tick s)%nat)
  /\ new = List.filter (fun u => bool_decide (pages s0 !! u = None)) done
  /\ (forall u, u ∈ changed ->
        u ∈ done /\ exists r h, pages s0 !! u = Some r
                     /\ live_hash u = Some h /\ content_hash r <> Some h)
  /\ (forall u, u ∈ deleted ->
        u ∈ done /\ is_Some (pages s0 !! u) /\ live_hash u = None)
  /\ (forall u, pages s0 !! u = None -> pages s !! u = None)
  /\ (forall u r, pages s0 !! u = Some r ->
        exists r', pages s !! u = Some r'
          /\ (r' = r
              \/ (u ∈ done /\ exists h k,
                    live_hash u = Some h /\ content_hash r' = Some h
                    /\ last_check r' = Some (clock e k))))
  /\ (forall u r, u ∈ done -> pages s0 !! u = Some r -> due_throughout s0 r ->
        (live_hash u = None -> u ∈ deleted)
        /\ (forall h, live_hash u = Some h ->
              (content_hash r <> Some h -> u ∈ changed)
              /\ exists r', pages s !! u = Some r'
                   /\ content_hash r' = Some h))
  /\ (forall u r, u ∈ done -> pages s0 !! u = Some r -> is_Some (live_hash u) ->
        exists r' t, pages s !! u = Some r' /\ last_check r' = Some t
          /\ ((r' = r /\ exists k, clock e k - t < hours check_interval_hours)
              \/ exists k, t = clock e k)).

(** C5 as the specification words it, for the outcome
    [(new, changed, deleted)] of a check of [urls] from [s]. *)
Definition classification_as_stated (s : state X) (urls : list str)
    (new changed deleted : list str) : Prop :=
  (forall u, u ∈ deleted <-> is_Some (pages s !! u) /\ u ∉ urls)
  /\ (forall u, u ∈ urls -> u ∉ deleted)
  /\ (forall u, u ∈ urls -> pages s !! u = None -> u ∈ new)
  /\ (forall u r h, u ∈ urls -> pages s !! u = Some r -> due_throughout s r ->
        live_hash u = Some h ->
        (content_hash r <> Some h -> u ∈ changed)
        /\ (content_hash r = Some h ->
            (u ∉ new) /\ (u ∉ changed) /\ (u ∉ deleted))).

(** C5 with a failed fetch counted as a deletion. *)
Definition classification (s : state X) (urls : list str)
    (new changed deleted : list str) : Prop :=
  (forall u, u ∈ deleted ->
     is_Some (pages s !! u) /\ (u ∉ urls \/ live_hash u = None))
  /\ (forall u, is_Some (pages s !! u) -> u ∉ urls -> u ∈ deleted)
  /\ (forall u r, u ∈ urls -> pages s !! u = Some r -> due_throughout s r ->
        live_hash u = None -> u ∈ deleted)
  /\ (forall u, u ∈ urls -> is_Some (live_hash u) -> u ∉ deleted)
  /\ (forall u, u ∈ new <-> u ∈ urls /\ pages s !! u = None)
  /\ (forall u, u ∈ changed ->
        u ∈ urls /\ exists r h, pages s !! u = Some r
                     /\ live_hash u = Some h /\ content_hash r <> Some h)
  /\ (forall u r h, u ∈ urls -> pages s !! u = Some r -> due_throughout s r ->
        live_hash u = Some h -> content_hash r <> Some h -> u ∈ changed)
  /\ (forall u r h, u ∈ urls -> pages s !! u = Some r ->
        live_hash u = Some h -> content_hash r = Some h ->
        (u ∉ new) /\ (u ∉ changed) /\ (u ∉ deleted)).




End Site.

(** A site of one page, "https://pravo.by/a", that cannot be fetched,
    and a store that knows the page from an earlier pass. *)
Definition page_a : str := u "https://pravo.by/a".

Definition unreachable_site : env unit :=
  {| clock := fun _ => 0;
     netloc := fun _ => u "pravo.by";
     get_page := fun _ => None;
     get_links := fun _ => None;
     scrape_single_page := fun _ => None;
     add_to_knowledge_base := fun _ x => (Ok 0, x);
     update_scraping_info := fun _ _ _ x => x |}.

Definition record_of (h : str) (checked : option Z) : page_info :=
  {| content_hash := Some h; info_title := Some (u "a");
     last_check := checked; last_scraped := None; content_length := None |}.

Definition knows_page_a : state unit :=
  {| pages := {[ page_a := record_of (u "0") None ]};
     site_maps := ∅; tick := 0; ext := tt |}.

(** A site of one page that can be fetched, and a store that knows
    nothing yet. *)
Definition page_a_text : str :=
  u "Закон Республики Беларусь о порядке регистрации: статья 1, пункт 2, в соответствии с постановлением Совета Министров.".

Definition live_site : env unit :=
  {| clock := fun _ => 0;
     netloc := fun _ => u "pravo.by";
     get_page := fun _ => Some (u "a", page_a_text);
     get_links := fun _ => Some (Ok []);
     scrape_single_page := fun url =>
       Some {| WebScraper.url := url; WebScraper.title := u "a";
               WebScraper.page_content := page_a_text;
               WebScraper.domain := u "pravo.by";
               WebScraper.legal_score := None;
               WebScraper.legal_explanation := None |};
     add_to_knowledge_base := fun _ x => (Ok 1, x);
     update_scraping_info := fun _ _ _ x => x |}.

Definition knows_nothing : state unit :=
  {| pages := ∅; site_maps := ∅; tick := 0; ext := tt |}.

(** A site whose page is served but is too short to be scraped. *)
Definition thin_site : env unit :=
  {| clock := fun _ => 0;
     netloc := fun _ => u "pravo.by";
     get_page := fun _ => Some (u "a", u "мало");
     get_links := fun _ => Some (Ok []);
     scrape_single_page := fun _ => None;
     add_to_knowledge_base := fun _ x => (Ok 0, x);
     update_scraping_info := fun _ _ _ x => x |}.

End ScraperProperties.

(** Examples for the facts about the batch filter. *)
Module BatchProperties.
Import WebScraper LegalContentFilter.

(** A page without text. *)
Definition blank_page : page :=
  {| url := u "https://pravo.by/b"; title := []; page_content := [];
     domain := u "pravo.by"; legal_score := None;
     legal_explanation := None |}.

Definition demo_batch : list page :=
  [blank_page; SearcherProperties.demo_page].

(** [SearcherProperties.demo_page] as the filter returns it. *)
Definition kept_demo_page : page :=
  {| url := u "https://pravo.by/a"; title := u "a";
     page_content := FilterProperties.saturated_text;
     domain := u "pravo.by";
     legal_score :=
       Some (FilterProperties.final_score FilterProperties.saturated_text
               (u "a") (u "https://pravo.by/a"));
     legal_explanation :=
       Some (snd (is_legal_content FilterProperties.saturated_text (u "a")
                    (u "https://pravo.by/a"))) |}.

(** A notice of the portal that only names a law. *)
Definition portal_notice : str :=
  u "На портале размещен новый закон о защите прав потребителей.".

End BatchProperties.

(** The queue of the site traversal, and examples for the facts about
    the runs of the crawl manager. *)
Module CrawlProperties.
Import IncrementalScraper ScraperProperties.
Local Open Scope Z_scope.


(** A record of a page of another site. *)
Definition foreign_page : str := u "https://example.org/x".

Definition knows_foreign_page : state unit :=
  {| pages := {[ foreign_page := record_of (u "0") None ]};
     site_maps := ∅; tick := 0; ext := tt |}.

(** A site that tells its pages apart by their host. *)
Definition host_of (url : str) : str :=
  if starts_with (u "https://pravo.by/") url then u "pravo.by"
  else u "example.org".

Definition two_hosts : env unit :=
  {| clock := fun _ => 0;
     netloc := host_of;
     get_page := get_page live_site;
     get_links := get_links live_site;
     scrape_single_page := scrape_single_page live_site;
     add_to_knowledge_base := add_to_knowledge_base live_site;
     update_scraping_info := update_scraping_info live_site |}.

Definition knows_both_pages : state unit :=
  {| pages := {[ page_a := record_of (u "0") None;
                 foreign_page := record_of (u "0") None ]};
     site_maps := ∅; tick := 0; ext := tt |}.

(** A store with a record of the page of the site checked at time 0
    and a record of a page of another site. *)
Definition settled_with_foreign : state unit :=
  {| pages := {[ page_a := record_of (u "0") (Some 0);
                 foreign_page := record_of (u "0") None ]};
     site_maps := ∅; tick := 0; ext := tt |}.

(** One round of the loop of [get_scraping_statistics] adds one to the
    count of the domain. *)
Definition count_step {X} (e : env X) (domains : gmap str nat) (url : str)
    : gmap str nat :=
  <[netloc e url := S (default 0%nat (domains !! netloc e url))]> domains.

(** The sum of the counts of a table of domains. *)
Definition sum_counts (domains : gmap str nat) : nat :=
  map_fold (fun _ n acc => (n + acc)%nat) 0%nat domains.

End CrawlProperties.

(** A store kept as a dict from ids to texts and metadata, and a
    tracker that has recorded ten runs. *)
Module WriteProperties.
Import KnowledgeBaseWrite ScrapingTracker.
Local Open Scope Z_scope.

Definition dict_store : writer (gmap str (str * gmap str value)) :=
  {| get_ids := fun st doc_id =>
       Ok (match st !! doc_id with Some _ => [doc_id] | None => [] end);
     add := fun doc_id text metadata st =>
       (Ok tt, <[doc_id := (text, metadata)]> st);
     delete := fun doc_id st => (Ok tt, base.delete doc_id st);
     now_iso := fun _ => u "2024-01-01T00:00:00" |}.

(** After a successful [add] the id is found. *)
Definition add_then_found {Store} (w : writer Store) : Prop :=
  forall doc_id text metadata st st',
    add w doc_id text metadata st = (Ok tt, st') ->
    exists ids, get_ids w st' doc_id = Ok ids /\ ids <> [].

Definition old_entry (n : Z) : history_entry :=
  {| entry_date := u "01.01.2024"; entry_time := u "10:00";
     entry_site := u "pravo.by"; entry_pages_scraped := n;
     entry_chunks_added := n |}.

Definition full_tracker : info :=
  {| last_scraping_date := Some (u "01.01.2024");
     last_scraping_time := Some (u "10:00");
     last_scraped_sites := Some [u "pravo.by"];
     total_pages_scraped := Some 55;
     total_chunks_added := Some 55;
     scraping_history := Some (List.map old_entry [1; 2; 3; 4; 5; 6; 7; 8; 9; 10]) |}.

End WriteProperties.

(** Examples for the facts about storing scraped pages. *)
Module StoreProperties.
Import WebScraper KnowledgeBaseWrite WebScraperStore WriteProperties.

(** A text processor that keeps a page in one chunk. *)
Definition one_chunk_store : env (gmap str (str * gmap str value)) :=
  {| kb := dict_store;
     split_text := fun text => Ok [text];
     timestamp := fun _ => u "20240101_000000";
     url_hash := fun _ => 42%nat |}.

(** No document of the store comes from [url]. *)
Definition holds_nothing_from (url : str)
    (st : gmap str (str * gmap str value)) : Prop :=
  forall doc_id text md,
    st !! doc_id = Some (text, md) -> md !! u "url" <> Some (VStr url).

(** The number of chunks of a page. *)
Definition chunk_count {Store} (e : env Store) (p : page) : nat :=
  match split_text e (page_content p) with
  | Ok chunks => length chunks
  | Raise => 0
  end.

(** The number of chunks of the pages of a list. *)
Definition total_chunks {Store} (e : env Store) (l : list page) : Z :=
  fold_right (fun p acc => (Z.of_nat (chunk_count e p) + acc)%Z) 0%Z l.

(** What [add_to_knowledge_base] hands to [collection.add]: a chunk of a
    page that the filter returned, under metadata that name the URL of
    the page and mark the chunk as found by the live search. *)
Definition from_filtered_page {Store} (e : env Store)
    (pages_data : list page) (text : str)
    (md : gmap str value) : Prop :=
  exists p chunks,
    p ∈ LegalContentFilter.filter_scraped_content pages_data
    /\ split_text e (page_content p) = Ok chunks
    /\ text ∈ chunks
    /\ md !! u "url" = Some (VStr (url p))
    /\ md !! u "source_type" = Some (VStr (u "pravo.by_dynamic")).

End StoreProperties.

(** Texts for the facts about chunking. *)
Module ChunkProperties.

(** No character of the text is among [breaks]. *)
Definition free_of (breaks : list N) (text : str) : Prop :=
  Forall (fun c => existsb (N.eqb c) breaks = false) text.

(** A sentence of 100 letters and its full stop, followed by another
    word. *)
Definition long_sentence : str :=
  repeat (Re.ch "a") 100 ++ u ". bcd".

End ChunkProperties.

(* ===================================================================== *)
(** ** Facts about the retrieval quality gate *)
(* ===================================================================== *)

Module KnowledgeBaseFacts.
Import KnowledgeBase Properties.
Local Open Scope Q_scope.

Lemma Qlt_bool_true (x y : Q) : Qlt_bool x y = true <-> x < y.
Proof.
  unfold Qlt_bool. rewrite negb_true_iff.
  split.
  - intros H. apply Qnot_le_lt. intros Hle.
    apply Qle_bool_iff in Hle. congruence.
  - intros H. destruct (Qle_bool y x) eqn:E; [|reflexivity].
    apply Qle_bool_iff in E. exfalso. exact (Qlt_not_le _ _ H E).
Qed.

Lemma Qlt_bool_false (x y : Q) : Qlt_bool x y = false <-> y <= x.
Proof.
  unfold Qlt_bool. rewrite negb_false_iff. apply Qle_bool_iff.
Qed.

(** The running minimum never exceeds its start value nor any element
    it has seen. *)
Lemma running_min_le (rest : list doc) (m : Q) :
  let b := fold_left (fun m d => if Qlt_bool (distance d) m then distance d else m)
             rest m in
  b <= m /\ forall d, d ∈ rest -> b <= distance d.
Proof.
  revert m. induction rest as [|x rest IH]; intros m; simpl.
  - split; [apply Qle_refl|]. intros d Hd. inversion Hd.
  - destruct (Qlt_bool (distance x) m) eqn:E.
    + apply Qlt_bool_true in E.
      destruct (IH (distance x)) as [H1 H2]. split.
      * eapply Qle_trans; [exact H1|]. apply Qlt_le_weak; exact E.
      * intros d Hd. apply elem_of_cons in Hd as [->|Hd]; auto.
    + apply Qlt_bool_false in E.
      destruct (IH m) as [H1 H2]. split; [exact H1|].
      intros d Hd. apply elem_of_cons in Hd as [->|Hd]; auto.
      eapply Qle_trans; eauto.
Qed.

(** The running minimum is its start value or one of the elements. *)
Lemma running_min_attained (rest : list doc) (m : Q) :
  let b := fold_left (fun m d => if Qlt_bool (distance d) m then distance d else m)
             rest m in
  b = m \/ exists d, d ∈ rest /\ b = distance d.
Proof.
  revert m. induction rest as [|x rest IH]; intros m; simpl.
  - now left.
  - destruct (Qlt_bool (distance x) m).
    + right. destruct (IH (distance x)) as [H|(d & Hd & H)].
      * exists x. split; [left|exact H].
      * exists d. split; [now right|exact H].
    + destruct (IH m) as [H|(d & Hd & H)]; [now left|].
      right. exists d. split; [now right|exact H].
Qed.

Lemma best_distance_lower (first : doc) (rest : list doc) (d : doc) :
  d ∈ first :: rest -> best_distance first rest <= distance d.
Proof.
  intros Hd. destruct (running_min_le rest (distance first)) as [H1 H2].
  apply elem_of_cons in Hd as [->|Hd]; [exact H1|now apply H2].
Qed.

Lemma best_distance_attained (first : doc) (rest : list doc) :
  exists d, d ∈ first :: rest /\ best_distance first rest = distance d.
Proof.
  destruct (running_min_attained rest (distance first)) as [H|(d & Hd & H)].
  - exists first. split; [left|exact H].
  - exists d. split; [now right|exact H].
Qed.

(** The best distance exceeds a bound exactly when every distance
    does. *)
Lemma best_distance_above (first : doc) (rest : list doc) (bound : Q) :
  bound < best_distance first rest <->
  forall d, d ∈ first :: rest -> bound < distance d.
Proof.
  split.
  - intros H d Hd. eapply Qlt_le_trans; [exact H|].
    now apply best_distance_lower.
  - intros H. destruct (best_distance_attained first rest) as (d & Hd & ->).
    now apply H.
Qed.

Lemma best_distance_within (first : doc) (rest : list doc) (bound : Q) :
  best_distance first rest <= bound <->
  exists d, d ∈ first :: rest /\ distance d <= bound.
Proof.
  split.
  - intros H. destruct (best_distance_attained first rest) as (d & Hd & E).
    exists d. split; [exact Hd|]. now rewrite <- E.
  - intros (d & Hd & H). eapply Qle_trans; [|exact H].
    now apply best_distance_lower.
Qed.

(** If the store lists its matches nearest first, the first retrieved
    document is a best match. *)
Lemma first_is_best (first : doc) (rest : list doc) :
  (forall d, d ∈ rest -> distance first <= distance d) ->
  best_distance first rest == distance first.
Proof.
  intros H. apply Qle_antisym.
  - apply best_distance_lower. left.
  - destruct (best_distance_attained first rest) as (d & Hd & ->).
    apply elem_of_cons in Hd as [->|Hd]; [apply Qle_refl|now apply H].
Qed.

(** C1, as amended: for a query that is neither procedural nor about
    the bot itself, the gate asks for a fallback exactly when nothing
    was retrieved or the smallest distance exceeds 0.6, and otherwise
    returns no fallback together with the retrieved documents. *)
Theorem nonprocedural_threshold {Store} (coll : collection Store) (st : Store)
    (query_text : str) (n_results : Z) :
  is_procedural query_text = false ->
  is_bot_related query_text = false ->
  nonprocedural_gate coll st query_text n_results.
Proof.
  intros Hproc Hbot. unfold nonprocedural_gate, should_use_dynamic_search.
  destruct (search_relevant_docs coll st query_text n_results)
    as [|first rest] eqn:Hdocs.
  - split; [|congruence]. simpl. split; auto.
  - rewrite Hbot, Hproc.
    destruct (Qlt_bool 0.6 (best_distance first rest)) eqn:E; simpl.
    + apply Qlt_bool_true in E. split.
      * split; [|reflexivity]. intros _. right.
        now apply best_distance_above.
      * intros _ Hex. apply best_distance_within in Hex.
        exfalso. exact (Qlt_not_le _ _ E Hex).
    + apply Qlt_bool_false in E. split; [|reflexivity].
      split; [discriminate|]. intros [H|H]; [discriminate|].
      apply best_distance_above in H. exfalso. exact (Qlt_not_le _ _ H E).
Qed.

(** The gate at the query "what is a contract" over one match at
    distance 0.8. *)
Lemma nonprocedural_threshold_holds_for_plain_query :
  nonprocedural_gate (fixed_collection (one_match (u "договор") 0.8)) tt
    (u "что такое договор") 3.
Proof.
  apply (nonprocedural_threshold
           (fixed_collection (one_match (u "договор") 0.8)) tt
           (u "что такое договор") 3); vm_compute; reflexivity.
Defined.

(** C1 as stated fails: the query "бот" is not procedural and its only
    match lies at distance 0.8 > 0.6, yet the gate returns no fallback,
    because the query mentions the bot. *)
Lemma nonprocedural_threshold_fails_for_bot_query :
  is_procedural (u "бот") = false /\
  ~ nonprocedural_gate (fixed_collection (one_match (u "текст") 0.8)) tt
      (u "бот") 3.
Proof.
  split; [vm_compute; reflexivity|].
  intros [H _]. destruct H as [_ H].
  assert (E : fst (should_use_dynamic_search
                     (fixed_collection (one_match (u "текст") 0.8)) tt
                     (u "бот") 3) = false) by (vm_compute; reflexivity).
  rewrite E in H. enough (false = true) by discriminate.
  apply H. right. intros d Hd.
  assert (Hdocs : search_relevant_docs
            (fixed_collection (one_match (u "текст") 0.8)) tt (u "бот") 3
          = [{| content := u "текст"; doc_metadata := []; distance := 0.8 |}])
    by (vm_compute; reflexivity).
  rewrite Hdocs in Hd. apply list_elem_of_singleton in Hd as ->.
  simpl. reflexivity.
Qed.

(** C3, as amended: for a procedural query that does not mention the
    bot, the gate asks for a fallback whenever the best chunk lacks
    procedural markers or the best distance exceeds 0.35, and does not
    when the best chunk has a marker and the best distance is at most
    0.35. *)
Theorem procedural_threshold {Store} (coll : collection Store) (st : Store)
    (query_text : str) (n_results : Z) :
  is_procedural query_text = true ->
  is_bot_related query_text = false ->
  procedural_gate coll st query_text n_results.
Proof.
  intros Hproc Hbot. unfold procedural_gate, should_use_dynamic_search.
  destruct (search_relevant_docs coll st query_text n_results)
    as [|first rest] eqn:Hdocs.
  - split; [reflexivity|]. simpl. discriminate.
  - rewrite Hbot, Hproc. simpl.
    destruct (has_procedural_content first) eqn:Hm; simpl.
    + destruct (Qlt_bool 0.35 (best_distance first rest)) eqn:E; simpl.
      * split; [reflexivity|]. intros _ Hex.
        apply Qlt_bool_true in E. apply best_distance_within in Hex.
        exfalso. exact (Qlt_not_le _ _ E Hex).
      * split; [|reflexivity]. intros [H|H]; [discriminate|].
        apply Qlt_bool_false in E. apply best_distance_above in H.
        exfalso. exact (Qlt_not_le _ _ H E).
    + split; [reflexivity|discriminate].
Qed.

(** The gate at the query "how to obtain a licence" over a match with
    procedural content at distance 0.3. *)
Lemma procedural_threshold_holds_for_licence_query :
  procedural_gate
    (fixed_collection (one_match (u "порядок получения лицензии") 0.3)) tt
    (u "как получить лицензию") 3.
Proof.
  apply (procedural_threshold
           (fixed_collection (one_match (u "порядок получения лицензии") 0.3))
           tt (u "как получить лицензию") 3); vm_compute; reflexivity.
Defined.

(** C3 as stated fails: "как получить лицензию на сайте" is procedural,
    its best chunk has no procedural marker and lies at distance 0.5,
    yet the gate returns no fallback, because the query mentions the
    site. *)
Lemma procedural_threshold_fails_for_site_query :
  is_procedural (u "как получить лицензию на сайте") = true /\
  ~ procedural_gate (fixed_collection (one_match (u "общие сведения") 0.5)) tt
      (u "как получить лицензию на сайте") 3.
Proof.
  split; [vm_compute; reflexivity|].
  intros [H _].
  assert (E : fst (should_use_dynamic_search
                     (fixed_collection (one_match (u "общие сведения") 0.5)) tt
                     (u "как получить лицензию на сайте") 3) = false)
    by (vm_compute; reflexivity).
  rewrite E in H. enough (false = true) by discriminate.
  apply H. left. vm_compute. reflexivity.
Qed.

(** The loop of [search_relevant_docs] keeps, in their order, the
    store's matches below 0.9. *)
Lemma relevant_from_filter (i : nat) (docs : list str) (dists : list Q)
    (metas : list metadata) :
  relevant_from i docs dists metas =
  List.filter (fun d => Qlt_bool (distance d) 0.9)
    (imap (fun j '(d, x) =>
             {| content := d; doc_metadata := nth (i + j) metas [];
                distance := x |})
          (zip docs dists)).
Proof.
  revert i dists. induction docs as [|d docs IH]; intros i dists.
  - reflexivity.
  - destruct dists as [|x dists]; [reflexivity|].
    cbn [relevant_from zip zip_with imap List.filter distance].
    rewrite Nat.add_0_r, (IH (S i) dists).
    assert (E : imap (fun j '(d0, x0) =>
                        {| content := d0;
                           doc_metadata := nth (S i + j) metas [];
                           distance := x0 |}) (zip docs dists)
              = imap ((fun j '(d0, x0) =>
                         {| content := d0;
                            doc_metadata := nth (i + j) metas [];
                            distance := x0 |}) ∘ S) (zip docs dists)).
    { apply imap_ext. intros j [d0 x0] _. simpl.
      now rewrite Nat.add_succ_r. }
    rewrite E. destruct (Qlt_bool x 0.9); reflexivity.
Qed.

Lemma filter_sublist {A} (f : A -> bool) (l : list A) :
  sublist (List.filter f l) l.
Proof.
  induction l as [|x l IH]; simpl.
  - constructor.
  - destruct (f x); now constructor.
Qed.

(** C9: every document returned by [search_relevant_docs] lies at a
    distance below 0.9; the list returned is the store's list of
    matches with the others removed, in the store's order; so it is
    empty, and the gate takes its empty-results path, when the store
    returned matches that all lie at 0.9 or beyond. *)
Theorem search_relevant_docs_below_threshold {Store}
    (coll : collection Store) (st : Store) (query_text : str)
    (n_results : Z) :
  let docs := search_relevant_docs coll st query_text n_results in
  (forall d, d ∈ docs -> distance d < 0.9)
  /\ (forall c r,
        falsy query_text = false ->
        falsy (strip query_text) = false ->
        count coll st = Ok c ->
        c <> 0%Z ->
        query coll st query_text (Z.min n_results c) = Ok r ->
        docs = List.filter (fun d => Qlt_bool (distance d) 0.9)
                 (store_matches r)
        /\ sublist docs (store_matches r)
        /\ ((forall d, d ∈ store_matches r -> 0.9 <= distance d) ->
            docs = []
            /\ should_use_dynamic_search coll st query_text n_results
               = (true, []))).
Proof.
  cbv zeta.
  assert (Hshape : forall c r,
            falsy query_text = false ->
            falsy (strip query_text) = false ->
            count coll st = Ok c ->
            c <> 0%Z ->
            query coll st query_text (Z.min n_results c) = Ok r ->
            search_relevant_docs coll st query_text n_results
            = List.filter (fun d => Qlt_bool (distance d) 0.9)
                (store_matches r)).
  { intros c r H1 H2 Hc Hne Hq. unfold search_relevant_docs.
    rewrite H1, H2, Hc. simpl.
    destruct (Z.eqb_spec c 0) as [->|_]; [contradiction|].
    rewrite Hq. apply relevant_from_filter. }
  split.
  - intros d Hd. unfold search_relevant_docs in Hd.
    destruct (falsy query_text || falsy (strip query_text));
      [inversion Hd|].
    destruct (count coll st) as [c|]; [|inversion Hd].
    destruct (c =? 0)%Z; [inversion Hd|].
    destruct (query coll st query_text (Z.min n_results c)) as [r|];
      [|inversion Hd].
    rewrite relevant_from_filter in Hd.
    apply list_elem_of_In, filter_In in Hd as [_ Hd].
    now apply Qlt_bool_true.
  - intros c r H1 H2 Hc Hne Hq.
    pose proof (Hshape c r H1 H2 Hc Hne Hq) as E.
    split; [exact E|]. split.
    + rewrite E. apply filter_sublist.
    + intros Hfar.
      assert (Hnil : search_relevant_docs coll st query_text n_results = []).
      { rewrite E. clear E. induction (store_matches r) as [|d l IH];
          [reflexivity|]. simpl.
        assert (Hd : Qlt_bool (distance d) 0.9 = false).
        { apply Qlt_bool_false. apply Hfar. left. }
        rewrite Hd. apply IH. intros d' Hd'. apply Hfar. now right. }
      split; [exact Hnil|].
      unfold should_use_dynamic_search. now rewrite Hnil.
Qed.

(** The store returns one match at distance 0.95: nothing is
    retrieved, and the gate asks for a fallback. *)
Lemma search_relevant_docs_drops_far_match :
  store_matches (one_match (u "текст") 0.95) <> []
  /\ search_relevant_docs (fixed_collection (one_match (u "текст") 0.95)) tt
       (u "закон") 3 = []
  /\ should_use_dynamic_search
       (fixed_collection (one_match (u "текст") 0.95)) tt (u "закон") 3
     = (true, []).
Proof.
  split; [discriminate|].
  destruct (search_relevant_docs_below_threshold
              (fixed_collection (one_match (u "текст") 0.95)) tt
              (u "закон") 3) as [_ H].
  apply (H 1%Z (one_match (u "текст") 0.95)); try reflexivity.
  - discriminate.
  - intros d Hd. apply list_elem_of_singleton in Hd as ->.
    vm_compute. discriminate.
Defined.

End KnowledgeBaseFacts.

(* ===================================================================== *)
(** ** Facts about the relevance gate *)
(* ===================================================================== *)

Module LegalContentFilterFacts.
Import LegalContentFilter FilterProperties KnowledgeBaseFacts.
Local Open Scope Q_scope.

Lemma of_nat_add (a b : nat) : of_nat (a + b) == of_nat a + of_nat b.
Proof.
  unfold of_nat. now rewrite Nat2Z.inj_add, inject_Z_plus.
Qed.

(** Every match adds 0.1. *)
Lemma matches_score_total (pats : list Re.pattern) (text : str) :
  matches_score pats text == of_nat (total_matches pats text) * 0.1.
Proof.
  induction pats as [|p pats IH]; simpl.
  - reflexivity.
  - rewrite IH, of_nat_add. ring.
Qed.

Lemma cap1_above_half (x : Q) : 0.5 < x -> 0.5 < cap1 x.
Proof.
  intros H. unfold cap1. destruct (Qlt_bool 1 x); [reflexivity|exact H].
Qed.

(** Six matches or more push the non-legal score above 0.5. *)
Lemma six_matches_disqualify (text : str) :
  (6 <= total_matches non_legal_patterns text)%nat ->
  0.5 < _calculate_non_legal_score text.
Proof.
  intros H. unfold _calculate_non_legal_score. apply cap1_above_half.
  rewrite matches_score_total.
  generalize dependent (total_matches non_legal_patterns text). intros n H.
  unfold Qlt, of_nat. simpl. lia.
Qed.

(** Five matches or fewer do not. *)
Lemma five_matches_pass (text : str) :
  (total_matches non_legal_patterns text <= 5)%nat ->
  _calculate_non_legal_score text <= 0.5.
Proof.
  intros H. unfold _calculate_non_legal_score, cap1.
  assert (E : matches_score non_legal_patterns text <= 0.5).
  { rewrite matches_score_total.
    generalize dependent (total_matches non_legal_patterns text). intros n H.
    unfold Qle, of_nat. simpl. lia. }
  destruct (Qlt_bool 1 (matches_score non_legal_patterns text)) eqn:E1;
    [|exact E].
  apply Qlt_bool_true in E1. exfalso.
  apply (Qlt_not_le _ _ E1). eapply Qle_trans; [exact E|]. discriminate.
Qed.







End LegalContentFilterFacts.

(* ===================================================================== *)
(** ** Facts about the content fingerprint *)
(* ===================================================================== *)

Module FingerprintFacts.
Import IncrementalScraper FingerprintProperties.

(** The MD5 model on the test suite of RFC 1321 and on a Cyrillic
    text. *)
Example md5_empty :
  MD5.hexdigest [] = u "d41d8cd98f00b204e9800998ecf8427e".
Proof. vm_compute. reflexivity. Qed.

Example md5_abc :
  option_map MD5.hexdigest (utf8_encode (u "abc"))
  = Some (u "900150983cd24fb0d6963f7d28e17f72").
Proof. vm_compute. reflexivity. Qed.

Example md5_two_blocks :
  option_map MD5.hexdigest
    (utf8_encode
       (u "xxxxxxxxxxxxxxxxxxxxxxxxxxxxxxxxxxxxxxxxxxxxxxxxxxxxxxxx"))
  = Some (u "668a72d5ba17f08e62dabcafad6db14b").
Proof. vm_compute. reflexivity. Qed.

Example content_hash_of_statute_title :
  _get_content_hash (u "  Закон 	 РБ
") = Ok (u "377a730cabe497d8ff73cda3acbcfc9e").
Proof. vm_compute. reflexivity. Qed.
















End FingerprintFacts.

(* ===================================================================== *)
(** ** Facts about the fallback search orchestrator *)
(* ===================================================================== *)

Module DynamicSearcherFacts.
Import DynamicSearcher SearcherProperties.

Section Searcher.
Context {X : Type} (e : env X).

(** What the [try] block returns when it returns. *)
Lemma search_body_returns (q : str) (x x' : X) (r : option str * bool) :
  search_body e q x = (Ok r, x') ->
  r = (None, false)
  \/ exists answer, r = (Some answer, true) /\ successful_search e q x answer x'.
Proof.
  unfold search_body, bind, ret, gets, lift_res. intros E.
  destruct (for_each (_generate_search_queries e q) (search_one e) [] x)
    as [[found|] x1] eqn:E1; [|discriminate].
  destruct (elements (list_to_set found : gset str)) as [|u0 us] eqn:Eu;
    [inversion E; now left|].
  destruct (for_each (firstn max_search_results (u0 :: us)) (scrape_one e) [] x1)
    as [[scraped|] x2] eqn:E2; [|discriminate].
  destruct scraped as [|p ps]; [inversion E; now left|].
  destruct (LegalContentFilter.filter_scraped_content (p :: ps))
    as [|f fs] eqn:Ef; [inversion E; now left|].
  destruct (add_to_knowledge_base e (f :: fs) x2) as [[chunks|] x3] eqn:E3;
    [|discriminate].
  destruct (0 <? chunks)%Z eqn:Ec; [|inversion E; now left].
  destruct (update_scraping_info e (u "https://pravo.by/") (length (p :: ps))
              chunks x3) as [[[]|] x4] eqn:E4; [|discriminate].
  destruct (KnowledgeBase.search_relevant_docs (store e) x4 q 5)
    as [|d ds] eqn:Ed; [inversion E; now left|].
  destruct (get_answer e q (d :: ds) x4) as [[[a|]|] x5] eqn:E5;
    try discriminate.
  inversion E; subst. right.
  exists (a ++ source_info (length (p :: ps))). split; [reflexivity|].
  exists found, (p :: ps), chunks, a, x1, x2, x3, x4.
  rewrite Eu, Ef, Ed.
  repeat split; auto; try discriminate. now apply Z.ltb_lt.
Qed.

(** A run in which every step succeeds returns its answer. *)
Lemma successful_search_returns (q : str) (x x' : X) (answer : str) :
  successful_search e q x answer x' ->
  search_body e q x = (Ok (Some answer, true), x').
Proof.
  intros (found & scraped & chunks & a & x1 & x2 & x3 & x4 &
          E1 & Hu & E2 & Hs & Hf & E3 & Hc & E4 & Hd & E5 & ->).
  unfold search_body, bind, ret, gets, lift_res. rewrite E1.
  destruct (elements (list_to_set found : gset str)) as [|u0 us] eqn:Eu;
    [contradiction|].
  rewrite E2. destruct scraped as [|p ps]; [contradiction|].
  destruct (LegalContentFilter.filter_scraped_content (p :: ps))
    as [|f fs] eqn:Ef; [contradiction|].
  rewrite E3. apply Z.ltb_lt in Hc. rewrite Hc, E4.
  destruct (KnowledgeBase.search_relevant_docs (store e) x4 q 5)
    as [|d ds] eqn:Ed; [contradiction|].
  now rewrite E5.
Qed.

(** C7: the fallback search never raises past its boundary.  It
    returns [(None, False)] or an answer with [True]; it returns an
    answer exactly when every step succeeded (URLs found, pages parsed,
    pages admissible, at least one chunk added, documents retrieved
    afterwards, an answer generated); and an exception raised at any
    step inside becomes [(None, False)]. *)
Theorem fallback_search_never_raises (user_question : str) (x : X) :
  (exists r x',
     search_and_add_to_knowledge_base e user_question x = (Ok r, x')
     /\ (r = (None, false)
         \/ exists answer,
              r = (Some answer, true)
              /\ successful_search e user_question x answer x'))
  /\ (forall answer x',
        successful_search e user_question x answer x' ->
        search_and_add_to_knowledge_base e user_question x
        = (Ok (Some answer, true), x'))
  /\ (forall x',
        search_body e user_question x = (Raise, x') ->
        search_and_add_to_knowledge_base e user_question x
        = (Ok (None, false), x')).
Proof.
  unfold search_and_add_to_knowledge_base, try_except, ret.
  split; [|split].
  - destruct (search_body e user_question x) as [[r|] x'] eqn:E.
    + exists r, x'. split; [reflexivity|]. now apply search_body_returns in E.
    + exists (None, false), x'. split; [reflexivity|now left].
  - intros answer x' H. now rewrite (successful_search_returns _ _ _ _ H).
  - intros x' E. now rewrite E.
Qed.

End Searcher.

(** On the demo world the fallback search answers from the chunk it has
    just added. *)
Example fallback_search_answers :
  search_and_add_to_knowledge_base (demo_world false) (u "вопрос") false
  = (Ok (Some (u "ответ" ++ source_info 1), true), true).
Proof. vm_compute. reflexivity. Qed.

(** When the answer generator raises, the caller gets [(None, False)];
    the chunk stays in the store. *)
Example fallback_search_absorbs_exception :
  search_and_add_to_knowledge_base (demo_world true) (u "вопрос") false
  = (Ok (None, false), true).
Proof. vm_compute. reflexivity. Qed.

End DynamicSearcherFacts.

(* ===================================================================== *)
(** ** Facts about the incremental crawl manager *)
(* ===================================================================== *)

Module IncrementalScraperFacts.
Import IncrementalScraper ScraperProperties.
Local Open Scope Z_scope.

(** A loop whose body never raises and keeps an invariant of the
    elements dealt with so far. *)
Lemma for_each_total {S A B} (body : B -> A -> M S A) (P : B -> Prop)
    (I : list B -> A -> S -> Prop) (l : list B) :
  (forall done x acc s, P x -> I done acc s ->
     exists acc' s', body x acc s = (Ok acc', s') /\ I (done ++ [x]) acc' s') ->
  forall done acc s, Forall P l -> I done acc s ->
    exists acc' s',
      for_each l body acc s = (Ok acc', s') /\ I (done ++ l) acc' s'.
Proof.
  intros Hstep. induction l as [|x l IH]; intros done acc s HP HI; simpl.
  - exists acc, s. rewrite app_nil_r. now split.
  - inversion HP as [|? ? Hx Hl]; subst.
    destruct (Hstep done x acc s Hx HI) as (acc1 & s1 & E & HI1).
    unfold bind. rewrite E.
    destruct (IH (done ++ [x]) acc1 s1 Hl HI1) as (acc' & s' & E' & HI').
    exists acc', s'. rewrite <- app_assoc in HI'. now split.
Qed.

(** A loop that returned kept the invariant its body keeps whenever
    the body returns. *)
Lemma for_each_partial {S A B} (body : B -> A -> M S A) (P : B -> Prop)
    (I : list B -> A -> S -> Prop) (l : list B) :
  (forall done x acc s acc' s', P x -> I done acc s ->
     body x acc s = (Ok acc', s') -> I (done ++ [x]) acc' s') ->
  forall done acc s acc' s', Forall P l -> I done acc s ->
    for_each l body acc s = (Ok acc', s') -> I (done ++ l) acc' s'.
Proof.
  intros Hstep. induction l as [|x l IH]; intros done acc s acc' s' HP HI E;
    simpl in E.
  - inversion E; subst. now rewrite app_nil_r.
  - inversion HP as [|? ? Hx Hl]; subst. unfold bind in E.
    destruct (body x acc s) as [[acc1|] s1] eqn:E1; [|discriminate].
    replace (done ++ x :: l) with ((done ++ [x]) ++ l)
      by now rewrite <- app_assoc.
    eapply IH; eauto.
Qed.

Section Scraper.
Context {X : Type} (e : env X).

(** The four ways a round of the check can go: the URL is new, its
    record is fresh, its fetch fails, or its fingerprint is read and
    stored. *)
Lemma check_one_cases (url : str) (n c d : list str) (s : state X) :
  exists acc' s',
    check_one e url (n, c, d) s = (Ok acc', s')
    /\ site_maps s' = site_maps s /\ ext s' = ext s
    /\ (tick s <= tick s')%nat
    /\ ((pages s !! url = None /\ acc' = (n ++ [url], c, d)
         /\ pages s' = pages s)
        \/ (exists r t, pages s !! url = Some r /\ last_check r = Some t
              /\ clock e (tick s) - t < hours check_interval_hours
              /\ acc' = (n, c, d) /\ pages s' = pages s)
        \/ (exists r, pages s !! url = Some r
              /\ match last_check r with
                 | None => True
                 | Some t => hours check_interval_hours <= clock e (tick s) - t
                 end
              /\ ((live_hash e url = None /\ acc' = (n, c, d ++ [url])
                   /\ pages s' = pages s)
                  \/ exists h k ttl,
                       live_hash e url = Some h
                       /\ acc' = (n, (if decide (content_hash r = Some h)
                                      then c else c ++ [url]), d)
                       /\ pages s'
                          = <[url := {| content_hash := Some h;
                                        info_title := Some ttl;
                                        last_check := Some (clock e k);
                                        last_scraped := last_scraped r;
                                        content_length := content_length r |}]>
                              (pages s)))).
Proof.
  unfold check_one, bind, gets, ret, now, _get_page_info, modify, live_hash.
  destruct (pages s !! url) as [r|] eqn:Er.
  2:{ eexists _, _. split; [reflexivity|]. repeat split; auto. }
  destruct (last_check r) as [t|] eqn:Et.
  - destruct (Z.ltb_spec (clock e (tick s) - t) (hours check_interval_hours))
      as [Hf|Hd].
    + eexists _, _. split; [reflexivity|]. simpl.
      do 3 (split; [auto|]). right. left. eauto 10.
    + destruct (get_page e url) as [[ttl content]|].
      * destruct (_get_content_hash content) as [h|]; unfold bind, now.
        -- eexists _, _. split; [reflexivity|]. simpl.
           do 3 (split; [auto|]). right. right. exists r. rewrite Et.
           do 2 (split; [auto|]). right. exists h, (S (tick s)), ttl. auto.
        -- eexists _, _. split; [reflexivity|]. simpl.
           do 3 (split; [auto|]). right. right. exists r. rewrite Et.
           do 2 (split; [auto|]). left. auto.
      * eexists _, _. split; [reflexivity|]. simpl.
        do 3 (split; [auto|]). right. right. exists r. rewrite Et.
           do 2 (split; [auto|]). left. auto.
  - destruct (get_page e url) as [[ttl content]|].
    + destruct (_get_content_hash content) as [h|]; unfold bind, now.
      * eexists _, _. split; [reflexivity|]. simpl.
        do 3 (split; [auto|]). right. right. exists r. rewrite Et.
        do 2 (split; [auto|]). right. exists h, (tick s), ttl. auto.
      * eexists _, _. split; [reflexivity|]. simpl.
        do 3 (split; [auto|]). right. right. exists r. rewrite Et.
           do 2 (split; [auto|]). left. auto.
    + eexists _, _. split; [reflexivity|]. simpl.
      do 3 (split; [auto|]). right. right. exists r. rewrite Et.
           do 2 (split; [auto|]). left. auto.
Qed.


(** A record the store holds now was there at the start. *)
Lemma known_from_start (s0 s : state X) (done : list str)
    (acc : list str * list str * list str) (url : str) (r : page_info) :
  check_inv e s0 done acc s -> pages s !! url = Some r ->
  exists r0, pages s0 !! url = Some r0.
Proof.
  destruct acc as [[n c] d]. intros (_ & _ & _ & _ & I5 & _) Hr.
  destruct (pages s0 !! url) as [r0|] eqn:E0; [now exists r0|].
  rewrite (I5 url E0) in Hr. discriminate.
Qed.

(** A round of the check keeps [check_inv]. *)
Lemma check_one_keeps_inv (s0 : state X) (done : list str) (url : str)
    (acc : list str * list str * list str) (s : state X) :
  check_inv e s0 done acc s ->
  exists acc' s',
    check_one e url acc s = (Ok acc', s')
    /\ check_inv e s0 (done ++ [url]) acc' s'.
Proof.
  intros Hinv. pose proof (known_from_start s0 s done acc url) as Hknown.
  specialize (Hknown) with (1 := Hinv).
  destruct acc as [[n c] d].
  destruct Hinv as ((Hsm0 & Hext0 & Htick0) & I2 & I3 & I4 & I5 & I6 & I7 & I8).
  destruct (check_one_cases url n c d s)
    as (acc' & s' & E & Hsm & Hext & Htick & Hcase).
  exists acc', s'. split; [exact E|].
  assert (Hframe : site_maps s' = site_maps s0 /\ ext s' = ext s0
                   /\ (tick s0 <= tick s')%nat)
    by (repeat split; [congruence|congruence|lia]).
  assert (Hmono : forall u, u ∈ done -> u ∈ done ++ [url])
    by (intros u Hu; apply elem_of_app; now left).
  assert (Hlast : url ∈ done ++ [url])
    by (apply elem_of_app; right; now apply list_elem_of_singleton).
  destruct Hcase as
    [(Hnone & -> & Hp)
    |[(r & t & Hr & Ht & Hfresh & -> & Hp)
     |(r & Hr & Hdue & [(Hlive & -> & Hp)|(h & k & ttl & Hlive & -> & Hp)])]].
  - (* the URL is new *)
    assert (H0 : pages s0 !! url = None).
    { destruct (pages s0 !! url) as [r0|] eqn:E0; [|reflexivity].
      destruct (I6 _ _ E0) as (r' & Hr' & _). congruence. }
    unfold check_inv. rewrite Hp. split; [exact Hframe|].
    split.
    { rewrite List.filter_app. simpl. rewrite bool_decide_true by exact H0.
      now rewrite <- I2. }
    split. { intros u Hu. destruct (I3 u Hu) as (Hd & Hrest). auto. }
    split. { intros u Hu. destruct (I4 u Hu) as (Hd & Hrest). auto. }
    split; [exact I5|].
    split.
    { intros u r0 Hu0. destruct (I6 u r0 Hu0) as (r' & Hr' & [->|(Hd & Hrest)]);
        eauto 10. }
    split.
    { intros u r0 Hu Hu0. apply elem_of_app in Hu as [Hu|Hu]; [now apply I7|].
      apply list_elem_of_singleton in Hu as ->. congruence. }
    intros u r0 Hu Hu0. apply elem_of_app in Hu as [Hu|Hu]; [now apply I8|].
    apply list_elem_of_singleton in Hu as ->. congruence.
  - (* the record is fresh *)
    destruct (Hknown r Hr) as (r0 & H0).
    unfold check_inv. rewrite Hp. split; [exact Hframe|].
    split.
    { rewrite List.filter_app. simpl.
      rewrite bool_decide_false by congruence. now rewrite app_nil_r. }
    split. { intros u Hu. destruct (I3 u Hu) as (Hd & Hrest). auto. }
    split. { intros u Hu. destruct (I4 u Hu) as (Hd & Hrest). auto. }
    split; [exact I5|].
    split.
    { intros u r1 Hu0. destruct (I6 u r1 Hu0) as (r' & Hr' & [->|(Hd & Hrest)]);
        eauto 10. }
    split.
    { intros u r1 Hu Hu0 Hdue0.
      apply elem_of_app in Hu as [Hu|Hu]; [now apply I7|].
      apply list_elem_of_singleton in Hu as ->.
      destruct (I6 url r1 Hu0) as (r' & Hr' & Hev).
      assert (r' = r) by congruence. subst r'.
      destruct Hev as [Heq|(Hd & _)]; [subst r1|now apply I7]. exfalso.
      unfold due_throughout in Hdue0. rewrite Ht in Hdue0.
      specialize (Hdue0 (tick s) Htick0). lia. }
    intros u r1 Hu Hu0 Hl.
    apply elem_of_app in Hu as [Hu|Hu]; [now apply I8|].
    apply list_elem_of_singleton in Hu as ->.
    destruct (I6 url r1 Hu0) as (r' & Hr' & Hev).
    assert (r' = r) by congruence. subst r'.
    exists r, t. split; [exact Hr|]. split; [exact Ht|].
    destruct Hev as [->|(_ & h & k & _ & _ & Hk)].
    + left. split; [reflexivity|]. now exists (tick s).
    + right. exists k. congruence.
  - (* the fetch fails *)
    destruct (Hknown r Hr) as (r0 & H0).
    unfold check_inv. rewrite Hp. split; [exact Hframe|].
    split.
    { rewrite List.filter_app. simpl.
      rewrite bool_decide_false by congruence. now rewrite app_nil_r. }
    split. { intros u Hu. destruct (I3 u Hu) as (Hd & Hrest). auto. }
    split.
    { intros u Hu. apply elem_of_app in Hu as [Hu|Hu].
      - destruct (I4 u Hu) as (Hd & Hrest). auto.
      - apply list_elem_of_singleton in Hu as ->.
        split; [exact Hlast|]. split; [rewrite H0; eauto|exact Hlive]. }
    split; [exact I5|].
    split.
    { intros u r1 Hu0. destruct (I6 u r1 Hu0) as (r' & Hr' & [->|(Hd & Hrest)]);
        eauto 10. }
    split.
    { intros u r1 Hu Hu0 Hdue0. apply elem_of_app in Hu as [Hu|Hu].
      - destruct (I7 u r1 Hu Hu0 Hdue0) as [Ha Hb]. split; [|exact Hb].
        intros Hl. apply elem_of_app. left. now apply Ha.
      - apply list_elem_of_singleton in Hu as ->. split.
        + intros _. apply elem_of_app. right. now apply list_elem_of_singleton.
        + intros h Hh. congruence. }
    intros u r1 Hu Hu0 Hl.
    apply elem_of_app in Hu as [Hu|Hu]; [now apply I8|].
    apply list_elem_of_singleton in Hu as ->.
    rewrite Hlive in Hl. now destruct Hl.
  - (* the fingerprint is read and stored *)
    destruct (Hknown r Hr) as (r0 & H0).
    assert (Hsub : forall u, u ∈ c ->
              u ∈ (if decide (content_hash r = Some h) then c else c ++ [url])).
    { intros u Hu. destruct (decide (content_hash r = Some h)); [exact Hu|].
      apply elem_of_app. now left. }
    unfold check_inv. rewrite Hp. split; [exact Hframe|].
    split.
    { rewrite List.filter_app. simpl.
      rewrite bool_decide_false by congruence. now rewrite app_nil_r. }
    split.
    { intros u Hu. destruct (decide (content_hash r = Some h)) as [Heq|Hne].
      - destruct (I3 u Hu) as (Hd & Hrest). auto.
      - apply elem_of_app in Hu as [Hu|Hu].
        + destruct (I3 u Hu) as (Hd & Hrest). auto.
        + apply list_elem_of_singleton in Hu as ->. split; [exact Hlast|].
          exists r0, h. split; [exact H0|]. split; [exact Hlive|].
          destruct (I6 url r0 H0) as (r' & Hr' & Hev).
          assert (r' = r) by congruence. subst r'.
          destruct Hev as [->|(_ & h' & k' & Hl' & Hc' & _)]; [exact Hne|].
          congruence. }
    split. { intros u Hu. destruct (I4 u Hu) as (Hd & Hrest). auto. }
    split.
    { intros u Hu0. rewrite lookup_insert_ne by congruence. now apply I5. }
    split.
    { intros u r1 Hu0. destruct (decide (url = u)) as [<-|Hne].
      - rewrite lookup_insert_eq. eexists. split; [reflexivity|].
        right. split; [exact Hlast|]. exists h, k. auto.
      - rewrite lookup_insert_ne by exact Hne.
        destruct (I6 u r1 Hu0) as (r' & Hr' & [->|(Hd & Hrest)]); eauto 10. }
    split.
    { intros u r1 Hu Hu0 Hdue0. destruct (decide (url = u)) as [<-|Hne].
      - split; [congruence|]. intros h0 Hh0.
        assert (h0 = h) by congruence. subst h0. split.
        + intros Hdiff. destruct (I6 url r1 Hu0) as (r' & Hr' & Hev).
          assert (r' = r) by congruence. subst r'.
          destruct Hev as [->|(Hd & _)].
          * rewrite decide_False by exact Hdiff.
            apply elem_of_app. right. now apply list_elem_of_singleton.
          * apply Hsub. destruct (I7 url r1 Hd Hu0 Hdue0) as [_ Hb].
            now apply (Hb h Hlive).
        + rewrite lookup_insert_eq. eexists. split; reflexivity.
      - apply elem_of_app in Hu as [Hu|Hu];
          [|apply list_elem_of_singleton in Hu; congruence].
        destruct (I7 u r1 Hu Hu0 Hdue0) as [Ha Hb]. split; [exact Ha|].
        intros h0 Hh0. destruct (Hb h0 Hh0) as [Hb1 Hb2]. split.
        + intros Hdiff. apply Hsub. now apply Hb1.
        + now rewrite lookup_insert_ne by exact Hne. }
    intros u r1 Hu Hu0 Hl. destruct (decide (url = u)) as [<-|Hne].
    + rewrite lookup_insert_eq. eexists _, _. split; [reflexivity|].
      split; [reflexivity|]. right. now exists k.
    + apply elem_of_app in Hu as [Hu|Hu];
        [|apply list_elem_of_singleton in Hu; congruence].
      rewrite lookup_insert_ne by exact Hne. now apply I8.
Qed.


Lemma check_inv_start (s : state X) : check_inv e s [] ([], [], []) s.
Proof.
  unfold check_inv. split; [auto|]. split; [reflexivity|].
  split; [intros u Hu; inversion Hu|]. split; [intros u Hu; inversion Hu|].
  split; [auto|]. split; [eauto|].
  split; intros u r Hu; inversion Hu.
Qed.

(** The first loop of [check_for_changes] returns, with [check_inv] of
    the whole list. *)
Lemma check_loop_spec (urls : list str) (s : state X) :
  exists acc s',
    for_each urls (check_one e) ([], [], []) s = (Ok acc, s')
    /\ check_inv e s urls acc s'.
Proof.
  destruct (for_each_total (check_one e) (fun _ => True) (check_inv e s) urls)
    with (done := @nil str) (acc := (@nil str, @nil str, @nil str)) (s := s)
    as (acc & s' & E & Hinv).
  - intros done x acc s1 _ Hinv. now apply check_one_keeps_inv.
  - now apply Forall_forall.
  - apply check_inv_start.
  - now exists acc, s'.
Qed.

(** [check_for_changes] returns the lists of the first loop, the
    deleted one followed by the stored URLs that are not listed. *)
Lemma check_for_changes_spec (urls : list str) (s : state X) :
  exists new changed unreachable removed s',
    check_for_changes e urls s
    = (Ok (new, changed, unreachable ++ removed), s')
    /\ check_inv e s urls (new, changed, unreachable) s'
    /\ (forall u, u ∈ removed <-> is_Some (pages s !! u) /\ u ∉ urls).
Proof.
  destruct (check_loop_spec urls s) as ([[n c] d] & s' & E & Hinv).
  exists n, c, d,
    (List.filter (fun url => negb (bool_decide (url ∈ urls)))
       (List.map fst (map_to_list (pages s')))), s'.
  split; [|split; [exact Hinv|]].
  - unfold check_for_changes, bind, gets, ret. now rewrite E.
  - destruct Hinv as (_ & _ & _ & _ & I5 & I6 & _).
    intros u. rewrite list_elem_of_In, filter_In, negb_true_iff,
      bool_decide_eq_false, in_map_iff.
    split.
    + intros [([k r] & <- & Hin) Hu]. split; [|exact Hu].
      apply list_elem_of_In, elem_of_map_to_list in Hin. simpl in *.
      destruct (pages s !! k) as [r0|] eqn:E0; [eauto|].
      rewrite (I5 k E0) in Hin. discriminate.
    + intros [[r Hr] Hu]. split; [|exact Hu].
      destruct (I6 u r Hr) as (r' & Hr' & _).
      exists (u, r'). split; [reflexivity|].
      now apply list_elem_of_In, elem_of_map_to_list.
Qed.

(** C5, as amended: [check_for_changes] returns.  A URL is in the
    deleted list only if it has a record and either is absent from
    [urls] or its fetch failed; it is in the list when it has a record
    and is absent from [urls], or is listed, due for a re-check and its
    fetch fails; a listed URL whose fetch succeeds is never deleted.  A
    URL is new exactly when it is listed and has no record.  A listed
    URL with a record is changed only if its live fingerprint differs
    from the stored one, is changed when it is due and they differ, and
    is left unclassified when they are equal. *)
Theorem check_for_changes_classifies (urls : list str) (s : state X) :
  exists new changed deleted s',
    check_for_changes e urls s = (Ok (new, changed, deleted), s')
    /\ classification e s urls new changed deleted.
Proof.
  destruct (check_for_changes_spec urls s)
    as (n & c & d & removed & s' & E & Hinv & Hrem).
  exists n, c, (d ++ removed), s'. split; [exact E|].
  destruct Hinv as (_ & I2 & I3 & I4 & I5 & I6 & I7 & _).
  assert (Hdel : forall u, u ∈ d ++ removed ->
            is_Some (pages s !! u) /\ (u ∉ urls \/ live_hash e u = None)).
  { intros u Hu. apply elem_of_app in Hu as [Hu|Hu].
    - destruct (I4 u Hu) as (_ & Hs & Hl). auto.
    - apply Hrem in Hu as [Hs Hn]. auto. }
  assert (Hlive : forall u, u ∈ urls -> is_Some (live_hash e u) ->
            u ∉ d ++ removed).
  { intros u Hu [h Hh] Hd. destruct (Hdel u Hd) as [_ [Hn|Hl]];
      [contradiction|congruence]. }
  assert (Hnew : forall u, u ∈ n <-> u ∈ urls /\ pages s !! u = None).
  { intros u. rewrite I2, list_elem_of_In, filter_In,
      bool_decide_eq_true, <- list_elem_of_In. reflexivity. }
  unfold classification.
  split; [exact Hdel|].
  split. { intros u Hs Hn. apply elem_of_app. right. now apply Hrem. }
  split.
  { intros u r Hu Hr Hdue Hl. apply elem_of_app. left.
    now apply (I7 u r Hu Hr Hdue). }
  split; [exact Hlive|].
  split; [exact Hnew|].
  split; [exact I3|].
  split.
  { intros u r h Hu Hr Hdue Hl Hdiff.
    destruct (I7 u r Hu Hr Hdue) as [_ Hb]. now apply (Hb h Hl). }
  intros u r h Hu Hr Hl Heq. split; [|split].
  - intros Hn. apply Hnew in Hn as [_ Hn]. congruence.
  - intros Hc. destruct (I3 u Hc) as (_ & r' & h' & Hr' & Hl' & Hdiff).
    congruence.
  - apply Hlive; [exact Hu|]. rewrite Hl. eauto.
Qed.


(** C10: a check overwrites the stored fingerprint.  For a listed URL
    with a record that is due for a re-check and whose fetch succeeds,
    the record holds the fingerprint of the live content after the
    call, also when the URL was classified changed (as it is when the
    fingerprints differ); a check repeated right after leaves the URL
    unclassified. *)
Theorem check_overwrites_fingerprint (urls : list str) (s : state X)
    (u : str) (r : page_info) (h : str) :
  u ∈ urls ->
  pages s !! u = Some r ->
  due_throughout e s r ->
  live_hash e u = Some h ->
  exists new changed deleted s1,
    check_for_changes e urls s = (Ok (new, changed, deleted), s1)
    /\ (exists r1, pages s1 !! u = Some r1 /\ content_hash r1 = Some h)
    /\ (content_hash r <> Some h -> u ∈ changed)
    /\ exists new2 changed2 deleted2 s2,
         check_for_changes e urls s1 = (Ok (new2, changed2, deleted2), s2)
         /\ (u ∉ new2) /\ (u ∉ changed2) /\ (u ∉ deleted2).
Proof.
  intros Hu Hr Hdue Hl.
  destruct (check_for_changes_spec urls s)
    as (n & c & d & removed & s1 & E1 & Hinv1 & _).
  exists n, c, (d ++ removed), s1. split; [exact E1|].
  destruct Hinv1 as (_ & _ & _ & _ & _ & _ & I7 & _).
  destruct (I7 u r Hu Hr Hdue) as [_ Hb].
  destruct (Hb h Hl) as [Hch (r1 & Hr1 & Hh1)].
  split; [now exists r1|]. split; [exact Hch|].
  destruct (check_for_changes_spec urls s1)
    as (n2 & c2 & d2 & removed2 & s2 & E2 & Hinv2 & Hrem2).
  exists n2, c2, (d2 ++ removed2), s2. split; [exact E2|].
  destruct Hinv2 as (_ & J2 & J3 & J4 & _).
  split; [|split].
  - rewrite J2, list_elem_of_In, filter_In, bool_decide_eq_true.
    intros [_ Hn]. congruence.
  - intros Hc. destruct (J3 u Hc) as (_ & r' & h' & Hr' & Hl' & Hdiff).
    congruence.
  - intros Hd. apply elem_of_app in Hd as [Hd|Hd].
    + destruct (J4 u Hd) as (_ & _ & Hnone). congruence.
    + apply Hrem2 in Hd as [_ Hn]. contradiction.
Qed.


(** Discovery returns, leaves the page records alone, and leaves a site
    map that lists what it returned, scanned either at one of the
    readings of the clock or, if the old map was used, at a time that
    was less than seven days back at some reading. *)
Lemma discover_spec (start_url : str) (max_pages : Z) (s : state X) :
  exists l s',
    _discover_site_urls e start_url max_pages s = (Ok l, s')
    /\ pages s' = pages s
    /\ exists sm t,
         site_maps s' !! netloc e start_url = Some sm
         /\ urls sm = l /\ last_scan sm = Some t
         /\ ((site_maps s !! netloc e start_url = Some sm
              /\ exists k, clock e k - t < days 7)
             \/ exists k, t = clock e k).
Proof.
  unfold _discover_site_urls, bind, gets, ret, now, modify.
  destruct (site_maps s !! netloc e start_url) as [sm|] eqn:Esm.
  - destruct (last_scan sm) as [t|] eqn:Et.
    + destruct (Z.ltb_spec (clock e (tick s) - t) (days 7)) as [Hf|Hs].
      * eexists _, _. split; [reflexivity|]. split; [reflexivity|].
        exists sm, t. simpl. repeat split; auto. left. eauto.
      * eexists _, _. split; [reflexivity|]. split; [reflexivity|].
        eexists _, _. simpl. rewrite lookup_insert_eq.
        repeat split. right. eauto.
    + eexists _, _. split; [reflexivity|]. split; [reflexivity|].
      eexists _, _. simpl. rewrite lookup_insert_eq.
      repeat split. right. eauto.
  - eexists _, _. split; [reflexivity|]. split; [reflexivity|].
    eexists _, _. simpl. rewrite lookup_insert_eq.
    repeat split. right. eauto.
Qed.




(** Forgetting the deleted pages leaves the others alone. *)
Lemma lookup_forget (deleted : list str) (m : gmap str page_info) (u : str) :
  u ∉ deleted ->
  fold_left (fun m url => delete url m) deleted m !! u = m !! u.
Proof.
  revert m. induction deleted as [|d deleted IH]; intros m Hu; simpl.
  - reflexivity.
  - rewrite IH.
    + apply lookup_delete_ne. intros ->. apply Hu. left.
    + intros Hd. apply Hu. now right.
Qed.

Lemma filter_nil_none {A} (f : A -> bool) (l : list A) (x : A) :
  List.filter f l = [] -> In x l -> f x = false.
Proof.
  intros E Hx. destruct (f x) eqn:Ex; [|reflexivity].
  assert (Hin : In x (List.filter f l)) by (apply filter_In; auto).
  rewrite E in Hin. destruct Hin.
Qed.




End Scraper.

(** C5 as stated fails: the page is listed and has a record, its fetch
    fails, and the check puts it in the deleted list. *)
Lemma classification_as_stated_fails_for_unreachable_page :
  check_for_changes unreachable_site [page_a] knows_page_a
  = (Ok ([], [], [page_a]), knows_page_a)
  /\ ~ classification_as_stated unreachable_site knows_page_a [page_a]
         [] [] [page_a].
Proof.
  split; [vm_compute; reflexivity|].
  intros (_ & H & _). apply (H page_a); left.
Qed.

(** The live fingerprint of the page of [live_site]. *)
Example live_hash_of_page_a :
  live_hash live_site page_a = Some (u "8fe0cf1c652901788587d88eb8e98310").
Proof. vm_compute. reflexivity. Qed.

(** On the live site the store holds another fingerprint for the page:
    the check classifies the page as changed and stores the live
    fingerprint, and a second check leaves the page unclassified. *)
Lemma check_overwrites_fingerprint_on_live_site :
  exists new changed deleted s1,
    check_for_changes live_site [page_a] knows_page_a
    = (Ok (new, changed, deleted), s1)
    /\ (exists r1, pages s1 !! page_a = Some r1
          /\ content_hash r1 = Some (u "8fe0cf1c652901788587d88eb8e98310"))
    /\ (content_hash (record_of (u "0") None)
        <> Some (u "8fe0cf1c652901788587d88eb8e98310") -> page_a ∈ changed)
    /\ exists new2 changed2 deleted2 s2,
         check_for_changes live_site [page_a] s1
         = (Ok (new2, changed2, deleted2), s2)
         /\ (page_a ∉ new2) /\ (page_a ∉ changed2) /\ (page_a ∉ deleted2).
Proof.
  apply (check_overwrites_fingerprint live_site [page_a] knows_page_a page_a
           (record_of (u "0") None) (u "8fe0cf1c652901788587d88eb8e98310")).
  - left.
  - vm_compute. reflexivity.
  - exact I.
  - vm_compute. reflexivity.
Defined.


(** Where [scrape_single_page] returns nothing for a page (its text is
    too short, say), no record is made, and the page is new again on
    every run. *)
Example unscraped_page_stays_new :
  exists r1 s1 r2 s2,
    incremental_scrape thin_site page_a 10 knows_nothing = (Ok r1, s1)
    /\ incremental_scrape thin_site page_a 10 s1 = (Ok r2, s2)
    /\ new_pages r1 = 1%nat /\ new_pages r2 = 1%nat.
Proof.
  eexists _, _, _, _. split; [vm_compute; reflexivity|].
  split; [vm_compute; reflexivity|]. split; reflexivity.
Qed.

End IncrementalScraperFacts.

(* ===================================================================== *)
(** ** More on the retrieval quality gate *)
(* ===================================================================== *)

Module KnowledgeBaseMoreFacts.
Import KnowledgeBase Properties KnowledgeBaseFacts.
Local Open Scope Q_scope.

(** X1: a decision not to fall back always carries the documents that
    were retrieved, and there is at least one; and a question that
    mentions the bot never falls back once something was retrieved. *)
Theorem gate_answers_only_from_retrieved_docs {Store}
    (coll : collection Store) (st : Store) (query_text : str)
    (n_results : Z) :
  let docs := search_relevant_docs coll st query_text n_results in
  let r := should_use_dynamic_search coll st query_text n_results in
  (fst r = false -> snd r = docs /\ docs <> [])
  /\ (docs <> [] -> snd r = docs)
  /\ (docs = [] -> r = (true, []))
  /\ (is_bot_related query_text = true -> docs <> [] -> r = (false, docs)).
Proof.
  cbv zeta. unfold should_use_dynamic_search.
  destruct (search_relevant_docs coll st query_text n_results)
    as [|first rest].
  - repeat split; try discriminate; try congruence.
  - assert (Hsnd :
      snd (if is_bot_related query_text then (false, first :: rest)
           else if is_procedural query_text
                then if negb (has_procedural_content first)
                        || Qlt_bool 0.35 (best_distance first rest)
                     then (true, first :: rest) else (false, first :: rest)
                else if Qlt_bool 0.6 (best_distance first rest)
                     then (true, first :: rest) else (false, first :: rest))
      = first :: rest).
    { destruct (is_bot_related query_text); [reflexivity|].
      destruct (is_procedural query_text).
      - now destruct (negb (has_procedural_content first)
                      || Qlt_bool 0.35 (best_distance first rest)).
      - now destruct (Qlt_bool 0.6 (best_distance first rest)). }
    split; [intros _; split; [exact Hsnd|discriminate]|].
    split; [intros _; exact Hsnd|].
    split; [discriminate|].
    intros Hbot _. now rewrite Hbot.
Qed.

(** X2: when the store lists its matches nearest first, the gate
    decides on the first document alone: a procedural question (that
    does not mention the bot) is answered from the store exactly when
    the first document has a procedural marker and lies within 0.35,
    any other such question exactly when it lies within 0.6. *)
Theorem gate_decides_on_first_document {Store}
    (coll : collection Store) (st : Store) (query_text : str)
    (n_results : Z) (first : doc) (rest : list doc) :
  search_relevant_docs coll st query_text n_results = first :: rest ->
  (forall d, d ∈ rest -> distance first <= distance d) ->
  is_bot_related query_text = false ->
  let r := should_use_dynamic_search coll st query_text n_results in
  (is_procedural query_text = true ->
     (fst r = false <->
      has_procedural_content first = true /\ distance first <= 0.35))
  /\ (is_procedural query_text = false ->
        (fst r = false <-> distance first <= 0.6)).
Proof.
  intros Hdocs Hsorted Hbot. cbv zeta.
  pose proof (first_is_best first rest Hsorted) as Hbest.
  unfold should_use_dynamic_search. rewrite Hdocs, Hbot.
  split; intros Hproc; rewrite Hproc.
  - destruct (has_procedural_content first); simpl.
    + destruct (Qlt_bool 0.35 (best_distance first rest)) eqn:E; simpl.
      * apply Qlt_bool_true in E. rewrite Hbest in E.
        split; [discriminate|]. intros [_ H].
        exfalso. exact (Qlt_not_le _ _ E H).
      * apply Qlt_bool_false in E. rewrite Hbest in E. now split.
    + split; [discriminate|]. now intros [H _].
  - destruct (Qlt_bool 0.6 (best_distance first rest)) eqn:E; simpl.
    + apply Qlt_bool_true in E. rewrite Hbest in E.
      split; [discriminate|]. intros H.
      exfalso. exact (Qlt_not_le _ _ E H).
    + apply Qlt_bool_false in E. rewrite Hbest in E. now split.
Qed.

(** The gate over two matches listed nearest first. *)
Lemma gate_decides_on_first_of_two :
  let coll := fixed_collection
                {| documents := [u "порядок регистрации"; u "прочее"];
                   distances := [0.3; 0.7];
                   metadatas := [] |} in
  let r := should_use_dynamic_search coll tt (u "как оформить договор") 3 in
  (is_procedural (u "как оформить договор") = true ->
     (fst r = false <->
      has_procedural_content
        {| content := u "порядок регистрации"; doc_metadata := [];
           distance := 0.3 |} = true
      /\ 0.3 <= 0.35))
  /\ (is_procedural (u "как оформить договор") = false ->
        (fst r = false <-> 0.3 <= 0.6)).
Proof.
  apply (gate_decides_on_first_document
           (fixed_collection
              {| documents := [u "порядок регистрации"; u "прочее"];
                 distances := [0.3; 0.7];
                 metadatas := [] |}) tt (u "как оформить договор") 3
           {| content := u "порядок регистрации"; doc_metadata := [];
              distance := 0.3 |}
           [{| content := u "прочее"; doc_metadata := []; distance := 0.7 |}]).
  - vm_compute. reflexivity.
  - intros d Hd. apply list_elem_of_singleton in Hd as ->.
    vm_compute. discriminate.
  - vm_compute. reflexivity.
Defined.

(** X3: filtering does not shift the metadata: every document returned
    stands in the store's answer at some position, with the text, the
    distance and the metadata of that position (no metadata when the
    store gave none there). *)
Theorem retrieved_docs_keep_their_metadata {Store}
    (coll : collection Store) (st : Store) (query_text : str)
    (n_results c : Z) (r : query_result) (d : doc) :
  count coll st = Ok c ->
  query coll st query_text (Z.min n_results c) = Ok r ->
  d ∈ search_relevant_docs coll st query_text n_results ->
  exists i : nat,
    documents r !! i = Some (content d)
    /\ distances r !! i = Some (distance d)
    /\ doc_metadata d = nth i (metadatas r) [].
Proof.
  intros Hc Hq Hd. unfold search_relevant_docs in Hd.
  destruct (falsy query_text || falsy (strip query_text)); [inversion Hd|].
  rewrite Hc in Hd. destruct (c =? 0)%Z; [inversion Hd|].
  rewrite Hq, relevant_from_filter in Hd.
  apply list_elem_of_In, filter_In in Hd as [Hd _].
  apply list_elem_of_In, list_elem_of_lookup in Hd as [i Hi].
  rewrite list_lookup_imap in Hi.
  destruct (zip (documents r) (distances r) !! i) as [[t x]|] eqn:Ez;
    [|discriminate].
  simpl in Hi. injection Hi as <-. simpl.
  rewrite lookup_zip_with in Ez.
  destruct (documents r !! i) as [t'|] eqn:Et; [|discriminate].
  simpl in Ez.
  destruct (distances r !! i) as [x'|] eqn:Ex; [|discriminate].
  simpl in Ez.
  injection Ez as -> ->. exists i. auto.
Qed.

(** The second match of a store answer keeps the second metadata when
    the first match is filtered out. *)
Lemma second_match_keeps_its_metadata :
  exists i : nat,
    [u "далеко"; u "близко"] !! i = Some (u "близко")
    /\ [0.95; 0.2] !! i = Some 0.2
    /\ [(u "title", u "b")] = nth i [[(u "title", u "a")]; [(u "title", u "b")]] [].
Proof.
  apply (retrieved_docs_keep_their_metadata
           (fixed_collection
              {| documents := [u "далеко"; u "близко"];
                 distances := [0.95; 0.2];
                 metadatas := [[(u "title", u "a")]; [(u "title", u "b")]] |})
           tt (u "закон") 3 2
           {| documents := [u "далеко"; u "близко"];
              distances := [0.95; 0.2];
              metadatas := [[(u "title", u "a")]; [(u "title", u "b")]] |}
           {| content := u "близко"; doc_metadata := [(u "title", u "b")];
              distance := 0.2 |}).
  - reflexivity.
  - reflexivity.
  - vm_compute. apply list_elem_of_singleton. reflexivity.
Defined.

End KnowledgeBaseMoreFacts.

(* ===================================================================== *)
(** ** More on the relevance gate *)
(* ===================================================================== *)

Module LegalContentFilterMoreFacts.
Import WebScraper LegalContentFilter FilterProperties BatchProperties.
Import KnowledgeBaseFacts LegalContentFilterFacts.
Local Open Scope Q_scope.

Lemma of_nat_nonneg (n : nat) : 0 <= of_nat n.
Proof.
  unfold of_nat, Qle. simpl. lia.
Qed.

Lemma of_nat_ge_1 (n : nat) : (1 <= n)%nat -> 1 <= of_nat n.
Proof.
  intros H. unfold of_nat, Qle. simpl. lia.
Qed.

Lemma weights_get_nonneg (category : str) :
  0 <= weights_get weights category.
Proof.
  unfold weights. cbn [weights_get].
  repeat case_decide; discriminate.
Qed.

Lemma ratio_nonneg (a b : nat) : 0 <= of_nat a / of_nat b.
Proof.
  unfold Qdiv. apply Qmult_le_0_compat; [apply of_nat_nonneg|].
  apply Qinv_le_0_compat, of_nat_nonneg.
Qed.

Lemma keyword_score_nonneg (cats : list (str * list str)) (text : str) :
  0 <= keyword_score cats text.
Proof.
  induction cats as [|[category keywords] rest IH]; cbn [keyword_score].
  - discriminate.
  - pose proof (Qmult_le_0_compat _ _
      (ratio_nonneg (count_present keywords text) (length keywords))
      (weights_get_nonneg category)).
    lra.
Qed.

Lemma keyword_score_head (category : str) (keywords : list str)
    (rest : list (str * list str)) (text : str) :
  of_nat (count_present keywords text) / of_nat (length keywords)
    * weights_get weights category
  <= keyword_score ((category, keywords) :: rest) text.
Proof.
  cbn [keyword_score]. pose proof (keyword_score_nonneg rest text). lra.
Qed.

Lemma matches_score_nonneg (pats : list Re.pattern) (text : str) :
  0 <= matches_score pats text.
Proof.
  rewrite matches_score_total.
  pose proof (of_nat_nonneg (total_matches pats text)). lra.
Qed.

Lemma cap1_le_1 (x : Q) : cap1 x <= 1.
Proof.
  unfold cap1. destruct (Qlt_bool 1 x) eqn:E; [discriminate|].
  now apply Qlt_bool_false in E.
Qed.

Lemma cap1_lower (x y : Q) : y <= 1 -> y <= x -> y <= cap1 x.
Proof.
  intros H1 Hx. unfold cap1. now destruct (Qlt_bool 1 x).
Qed.




Lemma structure_score_bounds (text : str) :
  0 <= _check_legal_structure text <= 1.
Proof.
  unfold _check_legal_structure. cbv zeta. split; [|apply cap1_le_1].
  apply cap1_lower; [discriminate|].
  destruct (Re.search false _ text), (Re.search true _ text),
    (Re.search false _ text), (Re.search false _ text); discriminate.
Qed.

Lemma terminology_score_bounds (text : str) :
  0 <= _check_legal_terminology text <= 1.
Proof.
  unfold _check_legal_terminology. split; [|apply cap1_le_1].
  apply cap1_lower; [discriminate|apply ratio_nonneg].
Qed.


Lemma admissible_score (text title url : str) :
  admissible text title url = true ->
  min_legal_score <= final_score text title url.
Proof.
  unfold admissible, final_score, is_legal_content.
  destruct (falsy text || (length (strip text) <? 50)%nat); [discriminate|].
  cbv zeta.
  destruct (Qlt_bool 0.5
              (_calculate_non_legal_score (full_text_of title text)));
    [discriminate|].
  cbn [fst snd]. intros Hok. apply Qle_bool_iff in Hok. exact Hok.
Qed.

(** X5: a page the gate lets through has at least 50 characters after
    stripping, at most five matches of the disqualifying patterns in its
    title and text, and a score of at least 0.20. *)
Theorem admissible_page_is_long_and_clean (text title url : str) :
  admissible text title url = true ->
  (50 <= length (strip text))%nat
  /\ (total_matches non_legal_patterns (full_text_of title text) <= 5)%nat
  /\ 0.20 <= final_score text title url.
Proof.
  unfold admissible, final_score, is_legal_content.
  destruct (falsy text || (length (strip text) <? 50)%nat) eqn:Eshort;
    [discriminate|].
  cbv zeta.
  destruct (Qlt_bool 0.5
              (_calculate_non_legal_score (full_text_of title text)))
    eqn:Enl; [discriminate|].
  cbn [fst snd]. intros Hok.
  apply orb_false_elim in Eshort as [_ Hlen].
  apply Nat.ltb_ge in Hlen.
  split; [exact Hlen|]. split.
  - apply Qlt_bool_false in Enl.
    destruct (le_lt_dec (total_matches non_legal_patterns
                           (full_text_of title text)) 5) as [H|H];
      [exact H|].
    exfalso. apply six_matches_disqualify in H.
    exact (Qlt_not_le _ _ H Enl).
  - apply Qle_bool_iff in Hok. exact Hok.
Qed.

(** The statute excerpt passes the gate. *)
Lemma statute_is_long_and_clean :
  (50 <= length (strip statute_with_price))%nat
  /\ (total_matches non_legal_patterns
        (full_text_of [] statute_with_price) <= 5)%nat
  /\ 0.20 <= final_score statute_with_price [] [].
Proof.
  apply (admissible_page_is_long_and_clean statute_with_price [] []).
  vm_compute. reflexivity.
Defined.

Lemma filter_cons (p : page) (rest : list page) :
  filter_scraped_content (p :: rest)
  = if negb (falsy (page_content p))
       && admissible (page_content p) (title p) (url p)
    then {| url := url p; title := title p;
            page_content := page_content p; domain := domain p;
            legal_score :=
              Some (final_score (page_content p) (title p) (url p));
            legal_explanation :=
              Some (snd (is_legal_content (page_content p) (title p)
                           (url p))) |}
           :: filter_scraped_content rest
    else filter_scraped_content rest.
Proof.
  cbn [filter_scraped_content]. unfold admissible, final_score.
  destruct (falsy (page_content p)); [reflexivity|].
  destruct (is_legal_content (page_content p) (title p) (url p))
    as [[is_legal score] expl].
  cbn [fst snd negb andb]. reflexivity.
Qed.

(** X6: every page the batch filter returns is a page of the batch
    with a non-empty text that passes the gate; it keeps its URL, title,
    text and domain and carries the score the gate gave it, which is at
    least 0.20. *)
Theorem filter_returns_admissible_pages (scraped_data : list page)
    (p : page) :
  p ∈ filter_scraped_content scraped_data ->
  exists p0 : page,
    p0 ∈ scraped_data
    /\ url p = url p0 /\ title p = title p0
    /\ page_content p = page_content p0 /\ domain p = domain p0
    /\ page_content p0 <> []
    /\ admissible (page_content p0) (title p0) (url p0) = true
    /\ legal_score p
       = Some (final_score (page_content p0) (title p0) (url p0))
    /\ min_legal_score <= final_score (page_content p0) (title p0) (url p0).
Proof.
  induction scraped_data as [|q rest IH]; intros Hp.
  - inversion Hp.
  - rewrite filter_cons in Hp.
    destruct (negb (falsy (page_content q))
              && admissible (page_content q) (title q) (url q)) eqn:E.
    + apply elem_of_cons in Hp as [->|Hp].
      * apply andb_true_iff in E as [Hne Hadm].
        exists q. cbn. split; [left|].
        repeat (split; [reflexivity|]).
        split; [now destruct (page_content q)|].
        split; [exact Hadm|]. split; [reflexivity|].
        exact (admissible_score _ _ _ Hadm).
      * destruct (IH Hp) as (p0 & Hin & H). exists p0.
        split; [now right|exact H].
    + destruct (IH Hp) as (p0 & Hin & H). exists p0.
      split; [now right|exact H].
Qed.

(** The page that the filter keeps from a batch of a blank page and a
    saturated one. *)
Lemma filter_returns_saturated_page :
  exists p0 : page,
    p0 ∈ demo_batch
    /\ url kept_demo_page = url p0 /\ title kept_demo_page = title p0
    /\ page_content kept_demo_page = page_content p0
    /\ domain kept_demo_page = domain p0
    /\ page_content p0 <> []
    /\ admissible (page_content p0) (title p0) (url p0) = true
    /\ legal_score kept_demo_page
       = Some (final_score (page_content p0) (title p0) (url p0))
    /\ min_legal_score <= final_score (page_content p0) (title p0) (url p0).
Proof.
  apply (filter_returns_admissible_pages demo_batch kept_demo_page).
  replace (filter_scraped_content demo_batch) with [kept_demo_page]
    by (vm_compute; reflexivity).
  left.
Defined.


Lemma count_present_pos (keywords : list str) (text k : str) :
  In k keywords -> contains k text = true ->
  (1 <= count_present keywords text)%nat.
Proof.
  intros Hin Hc. unfold count_present.
  assert (H : In k (List.filter (fun k => contains k text) keywords))
    by (apply filter_In; auto).
  destruct (List.filter (fun k => contains k text) keywords);
    [destruct H|simpl; lia].
Qed.

Lemma contains_nonempty (p s : str) :
  p <> [] -> contains p s = true -> s <> [].
Proof.
  intros Hp Hc ->. destruct p; [congruence|discriminate].
Qed.

(** X8: a page of pravo.by that names a law, a code, an edict, a decree
    or a resolution passes the gate as soon as it has 50 characters and
    at most five matches of the disqualifying patterns, whatever its
    structure and terminology scores. *)
Theorem official_portal_page_is_admissible (text title url : str) :
  (50 <= length (strip text))%nat ->
  (total_matches non_legal_patterns (full_text_of title text) <= 5)%nat ->
  contains (u "pravo.by") (lower url) = true ->
  official_marker (full_text_of title text) = true ->
  admissible text title url = true.
Proof.
  intros Hlen Hclean Hurl Hoff.
  pose proof (structure_score_bounds text) as Hs.
  pose proof (terminology_score_bounds (full_text_of title text)) as Ht.
  assert (Hl : 0.1083 <= _calculate_legal_score (full_text_of title text) url).
  { unfold _calculate_legal_score. cbv zeta.
    apply cap1_lower; [discriminate|].
    pose proof (matches_score_nonneg legal_patterns (full_text_of title text)).
    assert (Hu : 0.1 <= (if falsy url then 0
                  else of_nat (count_present legal_url_patterns (lower url))
                       * 0.1)).
    { assert (falsy url = false) as ->.
      { destruct url; [discriminate Hurl|reflexivity]. }
      assert (Hc : (1 <= count_present legal_url_patterns (lower url))%nat).
      { apply (count_present_pos _ _ (u "pravo.by")); [|exact Hurl].
        left. reflexivity. }
      apply of_nat_ge_1 in Hc. lra. }
    assert (Hk : 0.0083 <= keyword_score legal_keywords (full_text_of title text)).
    { unfold legal_keywords.
      eapply Qle_trans; [|apply keyword_score_head].
      set (core := List.map u _).
      assert (Hc : (1 <= count_present core (full_text_of title text))%nat).
      { unfold official_marker, any_in in Hoff.
        apply existsb_exists in Hoff as (k & Hk & Hc).
        apply (count_present_pos _ _ k); [|exact Hc].
        assert (Hall : forallb (fun k => bool_decide (In k core))
                         (List.map u ["постановление"; "декрет"; "указ";
                                      "закон"; "кодекс"]%string) = true)
          by (vm_compute; reflexivity).
        rewrite forallb_forall in Hall.
        apply Hall in Hk. now apply bool_decide_eq_true in Hk. }
      apply of_nat_ge_1 in Hc.
      replace (length core) with 36%nat by (vm_compute; reflexivity).
      replace (weights_get weights (u "core_legal")) with 0.3
        by (vm_compute; reflexivity).
      change (of_nat 36) with 36.
      generalize dependent (of_nat (count_present core
                                      (full_text_of title text))).
      intros c Hc. unfold Qdiv. change (/ 36) with (1 # 36). lra. }
    lra. }
  unfold admissible, is_legal_content.
  assert (falsy text || (length (strip text) <? 50)%nat = false) as ->.
  { apply orb_false_intro.
    - destruct text; [simpl in Hlen; lia|reflexivity].
    - now apply Nat.ltb_ge. }
  cbv zeta.
  apply five_matches_pass, Qlt_bool_false in Hclean. rewrite Hclean.
  cbn [fst snd].
  assert (jurisdiction_marker (full_text_of title text) url = true) as ->.
  { unfold jurisdiction_marker. rewrite Hurl. apply orb_true_r. }
  rewrite Hoff. apply Qle_bool_iff. unfold min_legal_score.
  generalize dependent (_calculate_legal_score (full_text_of title text) url).
  generalize dependent (_check_legal_structure text).
  generalize dependent (_check_legal_terminology (full_text_of title text)).
  intros. lra.
Qed.

(** The notice passes the gate under a URL of the portal. *)
Lemma portal_notice_is_admissible :
  admissible portal_notice [] (u "https://Pravo.by/news/1") = true.
Proof.
  apply (official_portal_page_is_admissible portal_notice []
           (u "https://Pravo.by/news/1")).
  - vm_compute. lia.
  - vm_compute. lia.
  - vm_compute. reflexivity.
  - vm_compute. reflexivity.
Defined.

End LegalContentFilterMoreFacts.

(* ===================================================================== *)
(** ** More on the incremental crawl manager *)
(* ===================================================================== *)

Module IncrementalScraperMoreFacts.
Import IncrementalScraper ScraperMaintenance ScraperProperties CrawlProperties.
Import IncrementalScraperFacts.
Local Open Scope Z_scope.

Section Scraper.
Context {X : Type} (e : env X).







Lemma filter_all {A} (f : A -> bool) (l : list A) :
  (forall x, In x l -> f x = true) -> List.filter f l = l.
Proof.
  induction l as [|x l IH]; intros H; simpl; [reflexivity|].
  rewrite (H x) by now left. rewrite IH; [reflexivity|].
  intros y Hy. apply H. now right.
Qed.


(** X11: a check neither makes nor drops a record and leaves the site
    maps and the collaborators alone; in a record it may replace the
    fingerprint, the title and the time of the last check, never the
    time of the last scrape or the content length, and the record of a
    URL that is not listed stays as it is. *)
Theorem check_keeps_the_records (urls : list str) (s : state X) :
  exists out s',
    check_for_changes e urls s = (Ok out, s')
    /\ site_maps s' = site_maps s /\ ext s' = ext s
    /\ forall u,
         match pages s !! u, pages s' !! u with
         | None, None => True
         | Some r, Some r' =>
             last_scraped r' = last_scraped r
             /\ content_length r' = content_length r
             /\ (u ∉ urls -> r' = r)
         | _, _ => False
         end.
Proof.
  destruct (for_each_total (check_one e) (fun _ => True)
              (fun done (_ : list str * list str * list str) s' =>
                 site_maps s' = site_maps s /\ ext s' = ext s
                 /\ forall u,
                      match pages s !! u, pages s' !! u with
                      | None, None => True
                      | Some r, Some r' =>
                          last_scraped r' = last_scraped r
                          /\ content_length r' = content_length r
                          /\ (u ∉ done -> r' = r)
                      | _, _ => False
                      end) urls)
    with (done := @nil str) (acc := (@nil str, @nil str, @nil str)) (s := s)
    as ([[n c] d] & s' & E & Hsm & Hext & Hrec).
  - intros done x [[n c] d] s1 _ (Hsm & Hext & Hrec).
    destruct (check_one_cases e x n c d s1)
      as (acc' & s2 & E & Hsm2 & Hext2 & _ & Hcase).
    exists acc', s2. split; [exact E|].
    split; [congruence|]. split; [congruence|].
    assert (Hkeep : pages s2 = pages s1 ->
              forall u,
                match pages s !! u, pages s2 !! u with
                | None, None => True
                | Some r, Some r' =>
                    last_scraped r' = last_scraped r
                    /\ content_length r' = content_length r
                    /\ (u ∉ done ++ [x] -> r' = r)
                | _, _ => False
                end).
    { intros Hp u. rewrite Hp. specialize (Hrec u).
      destruct (pages s !! u), (pages s1 !! u); try exact Hrec.
      destruct Hrec as (H1 & H2 & H3). do 2 (split; [assumption|]).
      intros Hu. apply H3. intros Hd. apply Hu, elem_of_app. now left. }
    destruct Hcase as [(_ & _ & Hp)|[(r & t & _ & _ & _ & _ & Hp)|
                       (r & Hr & _ & [(_ & _ & Hp)|
                                      (h & k & ttl & _ & _ & Hp)])]];
      try (now apply Hkeep).
    intros u. rewrite Hp. destruct (decide (x = u)) as [<-|Hne].
    + rewrite lookup_insert_eq. specialize (Hrec x). rewrite Hr in Hrec.
      destruct (pages s !! x); [|exact Hrec].
      destruct Hrec as (H1 & H2 & _). cbn. do 2 (split; [assumption|]).
      intros Hu. exfalso. apply Hu, elem_of_app. right.
      now apply list_elem_of_singleton.
    + rewrite lookup_insert_ne by exact Hne. specialize (Hrec u).
      destruct (pages s !! u), (pages s1 !! u); try exact Hrec.
      destruct Hrec as (H1 & H2 & H3). do 2 (split; [assumption|]).
      intros Hu. apply H3. intros Hd. apply Hu, elem_of_app. now left.
  - now apply Forall_forall.
  - do 2 (split; [reflexivity|]). intros u.
    destruct (pages s !! u); auto.
  - unfold check_for_changes, bind, gets, ret. rewrite E.
    eexists _, _. split; [reflexivity|]. auto.
Qed.

Lemma lookup_forget_none (deleted : list str) (m : gmap str page_info)
    (u : str) :
  m !! u = None ->
  fold_left (fun m url => delete url m) deleted m !! u = None.
Proof.
  revert m. induction deleted as [|d deleted IH]; intros m Hu; simpl.
  - exact Hu.
  - apply IH, lookup_delete_None. now right.
Qed.

Lemma lookup_forget_in (deleted : list str) (m : gmap str page_info)
    (u : str) :
  u ∈ deleted ->
  fold_left (fun m url => delete url m) deleted m !! u = None.
Proof.
  revert m. induction deleted as [|d deleted IH]; intros m Hu; simpl.
  - inversion Hu.
  - apply elem_of_cons in Hu as [->|Hu]; [|now apply IH].
    apply lookup_forget_none, lookup_delete_eq.
Qed.

(** The scraping loop makes records for the pages it is given and for
    no other, and drops none. *)
Lemma scrape_loop_frame (l : list str) (s s' : state X)
    (scraped_data : list WebScraper.page) :
  for_each l (scrape_one e) [] s = (Ok scraped_data, s') ->
  site_maps s' = site_maps s /\ ext s' = ext s
  /\ (forall u, u ∉ l -> pages s' !! u = pages s !! u)
  /\ (length scraped_data <= length l)%nat.
Proof.
  intros E.
  apply (for_each_partial (scrape_one e) (fun _ => True)
           (fun done acc s1 =>
              site_maps s1 = site_maps s /\ ext s1 = ext s
              /\ (forall u, u ∉ done -> pages s1 !! u = pages s !! u)
              /\ (length acc <= length done)%nat)
           l) with (done := @nil str) (acc := @nil WebScraper.page) (s := s)
    in E; [exact E| |now apply Forall_forall|].
  - clear. intros done x acc s1 acc' s2 _ (Hsm & Hext & Hout & Hlen) E.
    assert (Hnot : forall u, u ∉ done ++ [x] -> (u ∉ done) /\ x <> u).
    { intros u Hu. split.
      - intros Hd. apply Hu, elem_of_app. now left.
      - intros ->. apply Hu, elem_of_app. right.
        now apply list_elem_of_singleton. }
    unfold scrape_one, bind, lift_res, now, modify, ret in E.
    destruct (scrape_single_page e x) as [pd|].
    + destruct (_get_content_hash (WebScraper.page_content pd)) as [h|];
        [|discriminate].
      inversion E; subst; clear E. cbn.
      do 2 (split; [assumption|]). split.
      * intros u Hu. destruct (Hnot u Hu) as [Hd Hne].
        rewrite lookup_insert_ne by exact Hne. now apply Hout.
      * rewrite !length_app. simpl. lia.
    + inversion E; subst; clear E.
      do 2 (split; [assumption|]). split.
      * intros u Hu. destruct (Hnot u Hu) as [Hd Hne]. now apply Hout.
      * rewrite length_app. simpl. lia.
  - do 2 (split; [reflexivity|]). split; [reflexivity|]. simpl. lia.
Qed.

Lemma discover_keeps_ext (start_url : str) (max_pages : Z) (s s' : state X)
    (l : list str) :
  _discover_site_urls e start_url max_pages s = (Ok l, s') -> ext s' = ext s.
Proof.
  unfold _discover_site_urls, bind, gets, ret, now, modify.
  destruct (site_maps s !! netloc e start_url) as [sm|].
  - destruct (last_scan sm) as [t|].
    + destruct (clock e (tick s) - t <? days 7); now intros [= <- <-].
    + now intros [= <- <-].
  - now intros [= <- <-].
Qed.

(** The outline of a run that returned: the list discovered, the
    outcome of the check, and either the early return or the scraping
    loop followed by the removal of the deleted records. *)
Lemma run_spec (start_url : str) (max_pages : Z) (s0 s1 : state X)
    (r : report) :
  incremental_scrape e start_url max_pages s0 = (Ok r, s1) ->
  exists l sa n c d removed sb,
    _discover_site_urls e start_url max_pages s0 = (Ok l, sa)
    /\ pages sa = pages s0 /\ ext sa = ext s0
    /\ check_inv e sa l (n, c, d) sb
    /\ (forall u, u ∈ removed <-> is_Some (pages s0 !! u) /\ u ∉ l)
    /\ total_urls_checked r = length l
    /\ deleted_pages r = length (d ++ removed)
    /\ ((n ++ c = [] /\ s1 = sb /\ new_pages r = 0%nat
         /\ changed_pages r = 0%nat /\ pages_scraped r = 0%nat
         /\ chunks_added r = 0 /\ scraped_urls r = None)
        \/ (n ++ c <> [] /\ new_pages r = length n
            /\ changed_pages r = length c
            /\ exists scraped sc,
                 for_each (n ++ c) (scrape_one e) [] sb = (Ok scraped, sc)
                 /\ pages s1
                    = fold_left (fun m url => delete url m) (d ++ removed)
                        (pages sc)
                 /\ site_maps s1 = site_maps sc
                 /\ pages_scraped r = length scraped)).
Proof.
  intros Hrun.
  destruct (discover_spec e start_url max_pages s0)
    as (l & sa & Ed & Hpa & _).
  pose proof (discover_keeps_ext _ _ _ _ _ Ed) as Hea.
  destruct (check_for_changes_spec e l sa)
    as (n & c & d & removed & sb & Ec & Hinv & Hrem).
  exists l, sa, n, c, d, removed, sb.
  split; [exact Ed|]. split; [exact Hpa|]. split; [exact Hea|].
  split; [exact Hinv|].
  split; [intros u; rewrite <- Hpa; apply Hrem|].
  unfold incremental_scrape, bind in Hrun. rewrite Ed, Ec in Hrun.
  destruct (n ++ c) as [|p ps] eqn:Enc.
  - pose proof (f_equal fst Hrun) as Hr. pose proof (f_equal snd Hrun) as Hs.
    cbn in Hr, Hs. injection Hr as <-. cbn.
    do 2 (split; [reflexivity|]). left. auto 10.
  - rewrite <- Enc in Hrun.
    destruct (for_each (n ++ c) (scrape_one e) [] sb)
      as [[scraped|] sc] eqn:Es; [|discriminate].
    unfold modify, ret, forget, set_pages in Hrun. cbn in Hrun.
    assert (Hne : n ++ c <> []) by (rewrite Enc; discriminate).
    destruct scraped as [|q qs].
    + pose proof (f_equal fst Hrun) as Hr.
      pose proof (f_equal snd Hrun) as Hs.
      cbn in Hr, Hs. injection Hr as <-. cbn.
      do 2 (split; [reflexivity|]). right.
      do 3 (split; [auto|]). exists [], sc. rewrite <- Hs.
      split; [rewrite Enc in Es; exact Es|]. repeat split.
    + cbn in Hrun.
      destruct (add_to_knowledge_base e (q :: qs) (ext sc)) as [[a|] x];
        cbn in Hrun; [|discriminate].
      pose proof (f_equal fst Hrun) as Hr.
      pose proof (f_equal snd Hrun) as Hs.
      cbn in Hr, Hs. injection Hr as <-. cbn.
      do 2 (split; [reflexivity|]). right.
      do 3 (split; [auto|]). exists (q :: qs), sc. rewrite <- Hs.
      split; [rewrite Enc in Es; exact Es|]. repeat split.
Qed.

(** X12: a run that finds nothing new and nothing changed scrapes
    nothing and leaves the collaborators alone; it counts the records of
    pages that are no longer on the site as deleted, and keeps them. *)
Theorem idle_run_keeps_stale_records (start_url : str) (max_pages : Z)
    (s0 s1 : state X) (r : report) :
  incremental_scrape e start_url max_pages s0 = (Ok r, s1) ->
  new_pages r = 0%nat -> changed_pages r = 0%nat ->
  pages_scraped r = 0%nat /\ scraped_urls r = None /\ ext s1 = ext s0
  /\ (forall u, is_Some (pages s1 !! u) <-> is_Some (pages s0 !! u))
  /\ (forall u, is_Some (pages s0 !! u) ->
        u ∉ site_of e s0 start_url max_pages -> (0 < deleted_pages r)%nat).
Proof.
  intros Hrun Hn0 Hc0.
  destruct (run_spec start_url max_pages s0 s1 r Hrun)
    as (l & sa & n & c & d & removed & sb & Ed & Hpa & Hea & Hinv & Hrem
        & _ & Hdel & Hcase).
  assert (Hsite : site_of e s0 start_url max_pages = l)
    by (unfold site_of; now rewrite Ed).
  destruct Hcase as [(_ & -> & _ & _ & Hps & _ & Hsu)|(Hne & Hn & Hc & _)].
  - destruct Hinv as ((_ & Heb & _) & _ & _ & _ & I5 & I6 & _).
    split; [exact Hps|]. split; [exact Hsu|]. split; [congruence|]. split.
    + intros u. rewrite <- Hpa. split.
      * intros [r' Hr']. destruct (pages sa !! u) eqn:E0; [eauto|].
        rewrite (I5 u E0) in Hr'. discriminate.
      * intros [r0 Hr0]. destruct (I6 u r0 Hr0) as (r' & Hr' & _). eauto.
    + intros u Hu Hout. rewrite Hsite in Hout.
      assert (Hin : u ∈ d ++ removed).
      { apply elem_of_app. right. now apply Hrem. }
      rewrite Hdel. destruct (d ++ removed); [inversion Hin|simpl; lia].
  - exfalso. apply Hne. rewrite Hn0 in Hn. rewrite Hc0 in Hc.
    destruct n; [|discriminate Hn]. destruct c; [|discriminate Hc].
    reflexivity.
Qed.

(** After the scraping loop and the removal of the deleted records no
    URL outside the list that was checked has a record. *)
Lemma unlisted_records_dropped (l n c d removed : list str)
    (s0 sa sb sc : state X) (scraped : list WebScraper.page)
    (m : gmap str page_info) (u : str) :
  pages sa = pages s0 ->
  check_inv e sa l (n, c, d) sb ->
  (forall u, u ∈ removed <-> is_Some (pages s0 !! u) /\ u ∉ l) ->
  for_each (n ++ c) (scrape_one e) [] sb = (Ok scraped, sc) ->
  m = fold_left (fun m url => delete url m) (d ++ removed) (pages sc) ->
  u ∉ l -> m !! u = None.
Proof.
  intros Hpa Hinv Hrem Es -> Hout.
  destruct (pages s0 !! u) as [r0|] eqn:E0.
  - apply lookup_forget_in, elem_of_app. right. apply Hrem. eauto.
  - apply lookup_forget_none.
    destruct Hinv as (_ & I2 & I3 & _ & I5 & _).
    destruct (scrape_loop_frame _ _ _ _ Es) as (_ & _ & Hframe & _).
    rewrite Hframe.
    + apply I5. now rewrite Hpa.
    + intros Hu. apply Hout. apply elem_of_app in Hu as [Hu|Hu].
      * rewrite I2 in Hu. apply list_elem_of_In, filter_In in Hu as [Hu _].
        now apply list_elem_of_In.
      * now destruct (I3 u Hu).
Qed.

(** X13: a run that finds something new or changed ends with no record
    of any URL outside the list it discovered: the records of pages
    that left the site are dropped, and so are the records of every
    other site. *)
Theorem scraping_run_forgets_unlisted_records (start_url : str)
    (max_pages : Z) (s0 s1 : state X) (r : report) :
  incremental_scrape e start_url max_pages s0 = (Ok r, s1) ->
  (0 < new_pages r + changed_pages r)%nat ->
  forall u, u ∉ site_of e s0 start_url max_pages -> pages s1 !! u = None.
Proof.
  intros Hrun Hpos u Hout.
  destruct (run_spec start_url max_pages s0 s1 r Hrun)
    as (l & sa & n & c & d & removed & sb & Ed & Hpa & Hea & Hinv & Hrem
        & _ & Hdel & Hcase).
  assert (Hsite : site_of e s0 start_url max_pages = l)
    by (unfold site_of; now rewrite Ed).
  rewrite Hsite in Hout.
  destruct Hcase as [(_ & _ & Hn & Hc & _)|
                     (_ & _ & _ & scraped & sc & Es & Hp & _)]; [lia|].
  now apply (unlisted_records_dropped l n c d removed s0 sa sb sc scraped).
Qed.

Lemma pages_forget_domain (domain : str) (s : state X) (u : str) :
  pages (forget_domain e domain s) !! u
  = if decide (netloc e u = domain) then None else pages s !! u.
Proof.
  unfold forget_domain. cbn.
  destruct (decide (netloc e u = domain)) as [Hd|Hd].
  - destruct (pages s !! u) as [r|] eqn:Er.
    + apply lookup_forget_in, list_elem_of_In, filter_In. split.
      * apply in_map_iff. exists (u, r). split; [reflexivity|].
        now apply list_elem_of_In, elem_of_map_to_list.
      * now apply bool_decide_eq_true.
    + now apply lookup_forget_none.
  - rewrite lookup_forget; [reflexivity|].
    intros Hin. apply list_elem_of_In, filter_In in Hin as [_ Hin].
    now apply bool_decide_eq_true in Hin.
Qed.

(** X14: a forced rescan of a site whose pages all lie in the domain of
    the start URL reports every page it discovers as new and none as
    changed; and when it discovers a page at all, the records that are
    left afterwards are of that domain only. *)
Theorem full_rescan_reports_every_page_new (start_url : str)
    (max_pages : Z) (s0 s1 : state X) (r : report) :
  force_full_rescan e start_url max_pages s0 = (Ok r, s1) ->
  (forall u,
     u ∈ site_of e (forget_domain e (netloc e start_url) s0) start_url
           max_pages ->
     netloc e u = netloc e start_url) ->
  new_pages r = total_urls_checked r /\ changed_pages r = 0%nat
  /\ ((0 < total_urls_checked r)%nat ->
      forall u, is_Some (pages s1 !! u) -> netloc e u = netloc e start_url).
Proof.
  intros Hrun Hdom.
  unfold force_full_rescan, bind, modify in Hrun. cbn in Hrun.
  destruct (run_spec start_url max_pages _ s1 r Hrun)
    as (l & sa & n & c & d & removed & sb & Ed & Hpa & Hea & Hinv & Hrem
        & Htot & Hdel & Hcase).
  unfold site_of in Hdom. rewrite Ed in Hdom.
  assert (Hnone : forall u, u ∈ l -> pages sa !! u = None).
  { intros u Hu. rewrite Hpa, pages_forget_domain.
    now rewrite decide_True by now apply Hdom. }
  pose proof Hinv as (_ & I2 & I3 & _).
  assert (Hn : n = l).
  { rewrite I2. apply filter_all. intros u Hu.
    apply bool_decide_eq_true, Hnone. now apply list_elem_of_In. }
  assert (Hc : c = []).
  { destruct c as [|x c']; [reflexivity|].
    destruct (I3 x) as (Hx & r0 & h & Hr0 & _); [left|].
    rewrite (Hnone x Hx) in Hr0. discriminate. }
  rewrite Htot.
  destruct Hcase as [(Hnil & _ & -> & -> & _)|
                     (_ & -> & -> & scraped & sc & Es & Hp & _)].
  - rewrite Hn, Hc, app_nil_r in Hnil. rewrite Hnil.
    split; [reflexivity|]. split; [reflexivity|]. simpl. lia.
  - rewrite Hn, Hc. split; [reflexivity|]. split; [reflexivity|].
    intros _ u [r' Hr']. apply Hdom.
    destruct (decide (u ∈ l)) as [Hu|Hu]; [exact Hu|]. exfalso.
    rewrite (unlisted_records_dropped l n c d removed _ sa sb sc scraped
               (pages s1) u Hpa Hinv Hrem Es Hp Hu) in Hr'.
    discriminate.
Qed.

Lemma count_domains_fold (urls : list str) :
  count_domains e urls = fold_left (count_step e) urls ∅.
Proof.
  unfold count_domains. generalize (∅ : gmap str nat).
  induction urls as [|x urls IH]; intros d; simpl; [reflexivity|].
  rewrite IH. f_equal. unfold count_step.
  destruct (d !! netloc e x) eqn:E.
  - now rewrite E.
  - rewrite lookup_insert_eq, insert_insert_eq. reflexivity.
Qed.

Lemma sum_counts_insert (domains : gmap str nat) (k : str) (n : nat) :
  domains !! k = None ->
  sum_counts (<[k := n]> domains) = (n + sum_counts domains)%nat.
Proof.
  intros H. unfold sum_counts. apply map_fold_insert_L; [|exact H].
  intros. lia.
Qed.

Lemma sum_counts_step (domains : gmap str nat) (url : str) :
  sum_counts ((count_step e) domains url) = S (sum_counts domains).
Proof.
  unfold count_step. destruct (domains !! netloc e url) as [n|] eqn:E.
  - rewrite <- (insert_delete_id domains (netloc e url) n E) at 2.
    rewrite <- insert_delete_eq.
    rewrite !sum_counts_insert by apply lookup_delete_eq. simpl. lia.
  - rewrite sum_counts_insert by exact E. reflexivity.
Qed.

Lemma count_fold_spec (urls : list str) :
  forall domains : gmap str nat,
    (forall k n, domains !! k = Some n -> (0 < n)%nat) ->
    (forall domain,
       default 0%nat (fold_left (count_step e) urls domains !! domain)
       = (default 0%nat (domains !! domain)
          + length (List.filter
                      (fun url => bool_decide (netloc e url = domain))
                      urls))%nat)
    /\ (forall k n, fold_left (count_step e) urls domains !! k = Some n ->
          (0 < n)%nat)
    /\ sum_counts (fold_left (count_step e) urls domains)
       = (sum_counts domains + length urls)%nat.
Proof.
  induction urls as [|x urls IH]; intros d Hpos; simpl.
  - split; [intros; lia|]. split; [exact Hpos|lia].
  - destruct (IH ((count_step e) d x)) as (H1 & H2 & H3).
    { intros k n. unfold count_step.
      destruct (decide (netloc e x = k)) as [<-|Hne].
      - rewrite lookup_insert_eq. intros [= <-]. lia.
      - rewrite lookup_insert_ne by exact Hne. apply Hpos. }
    split; [|split; [exact H2|]].
    + intros domain. rewrite H1. unfold count_step.
      destruct (decide (netloc e x = domain)) as [<-|Hne].
      * rewrite lookup_insert_eq, bool_decide_true by reflexivity.
        simpl. lia.
      * rewrite lookup_insert_ne, bool_decide_false by exact Hne.
        reflexivity.
    + rewrite H3, sum_counts_step. lia.
Qed.

(** X15: in the statistics the count of a domain is the number of
    URLs on record whose domain it is, no domain is listed with a count
    of zero, and the counts add up to the total of pages tracked. *)
Theorem statistics_count_by_domain (s : state X) :
  let st := get_scraping_statistics e s in
  (forall domain,
     default 0%nat (domains st !! domain)
     = length (List.filter (fun url => bool_decide (netloc e url = domain))
                 (List.map fst (map_to_list (pages s)))))
  /\ (forall domain n, domains st !! domain = Some n -> (0 < n)%nat)
  /\ map_fold (fun _ n acc => (n + acc)%nat) 0%nat (domains st)
     = total_pages_tracked st.
Proof.
  cbv zeta. unfold get_scraping_statistics. cbn.
  rewrite count_domains_fold.
  destruct (count_fold_spec (List.map fst (map_to_list (pages s))) ∅)
    as (H1 & H2 & H3).
  { intros k n H. rewrite lookup_empty in H. discriminate. }
  split; [|split; [exact H2|]].
  - intros domain. rewrite H1, lookup_empty. reflexivity.
  - fold (sum_counts
            (fold_left (count_step e) (List.map fst (map_to_list (pages s))) ∅)).
    rewrite H3. unfold sum_counts. rewrite map_fold_empty.
    now rewrite length_map, length_map_to_list.
Qed.

End Scraper.


(** A run on the live site from a store that holds a fresh record of
    its page and a record of a page of another site: one page is
    reported deleted, and both records stay. *)
Lemma idle_run_on_live_site :
  exists r s1,
    incremental_scrape live_site page_a 10 settled_with_foreign = (Ok r, s1)
    /\ deleted_pages r = 1%nat
    /\ pages_scraped r = 0%nat /\ scraped_urls r = None
    /\ ext s1 = ext settled_with_foreign
    /\ (forall u, is_Some (pages s1 !! u)
                  <-> is_Some (pages settled_with_foreign !! u))
    /\ (forall u, is_Some (pages settled_with_foreign !! u) ->
          u ∉ site_of live_site settled_with_foreign page_a 10 ->
          (0 < deleted_pages r)%nat).
Proof.
  eexists _, _. split; [vm_compute; reflexivity|].
  split; [reflexivity|].
  eapply (idle_run_keeps_stale_records live_site page_a 10
            settled_with_foreign).
  - vm_compute. reflexivity.
  - reflexivity.
  - reflexivity.
Defined.

(** A run on the live site from a store that only holds a record of a
    page of another site: the page of the site is scraped, and the
    other record is gone. *)
Lemma scraping_run_on_live_site_forgets_foreign_page :
  exists r s1,
    incremental_scrape live_site page_a 10 knows_foreign_page = (Ok r, s1)
    /\ is_Some (pages knows_foreign_page !! foreign_page)
    /\ forall u, u ∉ site_of live_site knows_foreign_page page_a 10 ->
                 pages s1 !! u = None.
Proof.
  eexists _, _. split; [vm_compute; reflexivity|].
  split; [eexists; reflexivity|].
  eapply (scraping_run_forgets_unlisted_records live_site page_a 10
            knows_foreign_page).
  - vm_compute. reflexivity.
  - vm_compute. lia.
Defined.

(** A forced rescan of the portal from a store that holds a record of
    its page and one of a page of another site. *)
Lemma full_rescan_of_portal :
  exists r s1,
    force_full_rescan two_hosts page_a 10 knows_both_pages = (Ok r, s1)
    /\ new_pages r = total_urls_checked r /\ changed_pages r = 0%nat
    /\ ((0 < total_urls_checked r)%nat ->
        forall u, is_Some (pages s1 !! u) ->
                  netloc two_hosts u = netloc two_hosts page_a).
Proof.
  eexists _, _. split; [vm_compute; reflexivity|].
  eapply (full_rescan_reports_every_page_new two_hosts page_a 10
            knows_both_pages).
  - vm_compute. reflexivity.
  - intros x Hx. vm_compute in Hx.
    apply list_elem_of_singleton in Hx as ->. reflexivity.
Defined.

End IncrementalScraperMoreFacts.

(* ===================================================================== *)
(** ** More on the fallback search *)
(* ===================================================================== *)

Module DynamicSearcherMoreFacts.
Import WebScraper DynamicSearcher PortalSearch SearcherProperties.
Import DynamicSearcherFacts IncrementalScraperFacts.

Lemma elem_of_firstn {A} (x : A) (n : nat) (l : list A) :
  x ∈ firstn n l -> x ∈ l.
Proof.
  intros H. apply elem_of_take in H as (i & Hi & _).
  now apply list_elem_of_lookup_2 in Hi.
Qed.

Lemma firstn_nonempty {A} (n : nat) (l : list A) :
  l <> [] -> (1 <= length (firstn (S n) l))%nat.
Proof.
  destruct l; [congruence|]. simpl. lia.
Qed.

Section Searcher.
Context {X : Type} (e : env X).

(** X16: the key words of a text are at most ten of its words, in
    their order; none of them is a stop word and each has more than two
    letters. *)
Theorem keywords_are_filtered_words (text : str) :
  (length (_extract_keywords e text) <= 10)%nat
  /\ sublist (_extract_keywords e text) (extract_words e (lower text))
  /\ forall word, word ∈ _extract_keywords e text ->
       (word ∉ stop_words) /\ (2 < length word)%nat.
Proof.
  unfold _extract_keywords. cbv zeta.
  split; [apply firstn_le_length|]. split.
  - etransitivity; [apply sublist_take|].
    apply KnowledgeBaseFacts.filter_sublist.
  - intros word H. apply elem_of_firstn, list_elem_of_In, filter_In in H
      as [_ H].
    apply andb_true_iff in H as [H1 H2].
    apply negb_true_iff, bool_decide_eq_false in H1.
    apply Nat.ltb_lt in H2. now split.
Qed.

(** X17: the searcher sends between one and three queries to the
    portal, and the first is the question as it was asked. *)
Theorem first_query_is_the_question (user_question : str) :
  exists more,
    _generate_search_queries e user_question = user_question :: more
    /\ (length more <= 2)%nat.
Proof.
  unfold _generate_search_queries. cbv zeta.
  set (keywords := _extract_keywords e user_question).
  destruct (1 <? length keywords)%nat;
    destruct (find (fun term => contains term (lower user_question))
                rb_specific_terms) as [term|];
    try destruct (bool_decide _);
    cbn [app firstn]; eexists; (split; [reflexivity|simpl; lia]).
Qed.

(** The scraping loop of the fallback search never raises; it keeps at
    most one page for each URL, and only pages of more than 200
    characters. *)
Lemma scrape_loop_keeps_long_pages (l : list str) (x : X) :
  exists scraped_data x',
    for_each l (scrape_one e) [] x = (Ok scraped_data, x')
    /\ (length scraped_data <= length l)%nat
    /\ forall p, p ∈ scraped_data -> (200 < length (page_content p))%nat.
Proof.
  destruct (for_each_total (scrape_one e) (fun _ => True)
              (fun done acc (_ : X) =>
                 (length acc <= length done)%nat
                 /\ forall p, p ∈ acc -> (200 < length (page_content p))%nat)
              l)
    with (done := @nil str) (acc := @nil page) (s := x)
    as (acc & x' & E & H).
  - clear. intros done url acc x _ (Hlen & Hlong).
    unfold scrape_one, try_except, bind, ret.
    rewrite length_app. simpl.
    destruct (scrape_single_page e url x) as [[[pd|]|] x1].
    + destruct (200 <? length (page_content pd))%nat eqn:E200.
      * eexists _, _. split; [reflexivity|]. split.
        -- rewrite length_app. simpl. lia.
        -- intros p Hp. apply elem_of_app in Hp as [Hp|Hp]; [auto|].
           apply list_elem_of_singleton in Hp as ->.
           now apply Nat.ltb_lt.
      * eexists _, _. split; [reflexivity|]. split; [lia|exact Hlong].
    + eexists _, _. split; [reflexivity|]. split; [lia|exact Hlong].
    + eexists _, _. split; [reflexivity|]. split; [lia|exact Hlong].
  - now apply Forall_forall.
  - split; [simpl; lia|]. intros p Hp. inversion Hp.
  - exists acc, x'. now split.
Qed.

(** X18: an answer of the fallback search comes with [True] and ends
    with the note on its sources, for a count of pages between one and
    five: at most [max_search_results] URLs are scraped, and there is
    no answer unless a page was. *)
Theorem fallback_answer_cites_its_pages (user_question : str) (x x' : X)
    (answer : str) (ok : bool) :
  search_and_add_to_knowledge_base e user_question x
  = (Ok (Some answer, ok), x') ->
  ok = true
  /\ exists generated n,
       answer = generated ++ source_info n /\ (1 <= n <= 5)%nat.
Proof.
  unfold search_and_add_to_knowledge_base, try_except, ret. intros E.
  destruct (search_body e user_question x) as [[r|] x1] eqn:Eb;
    [|discriminate].
  injection E as -> ->.
  destruct (search_body_returns e _ _ _ _ Eb) as [H|(a & H & Hrun)];
    [discriminate|].
  injection H as -> ->. split; [reflexivity|].
  destruct Hrun as (found & scraped & chunks & generated & x2 & x3 & x4 & x5
                    & _ & _ & Es & Hne & _ & _ & _ & _ & _ & _ & ->).
  exists generated, (length scraped). split; [reflexivity|].
  destruct (scrape_loop_keeps_long_pages
              (firstn max_search_results
                 (elements (list_to_set found : gset str))) x2)
    as (scraped' & x3' & Es' & Hlen & _).
  rewrite Es in Es'. injection Es' as <- <-.
  pose proof (firstn_le_length max_search_results
                (elements (list_to_set found : gset str))) as H5.
  unfold max_search_results in *.
  split; [destruct scraped; [congruence|simpl; lia]|lia].
Qed.

End Searcher.

(** The answer of the demo world cites one page. *)
Lemma demo_answer_cites_one_page :
  true = true
  /\ exists generated n,
       u "ответ" ++ source_info 1 = generated ++ source_info n
       /\ (1 <= n <= 5)%nat.
Proof.
  apply (fallback_answer_cites_its_pages (demo_world false) (u "вопрос")
           false true (u "ответ" ++ source_info 1) true).
  vm_compute. reflexivity.
Defined.

Lemma general_urls_on_portal :
  Forall (fun url => starts_with (u "https://pravo.by/") url = true)
    general_urls.
Proof.
  apply Forall_forall. intros url H.
  assert (Hall : forallb (starts_with (u "https://pravo.by/")) general_urls
                 = true) by (vm_compute; reflexivity).
  rewrite forallb_forall in Hall. now apply Hall, list_elem_of_In.
Qed.

Lemma topic_urls_on_portal (keyword url_path : str) :
  In (keyword, url_path) topic_mappings ->
  starts_with (u "https://pravo.by/") (search_base_url ++ url_path) = true.
Proof.
  intros H.
  assert (Hall : forallb (fun '(_, url_path) =>
                            starts_with (u "https://pravo.by/")
                              (search_base_url ++ url_path))
                   topic_mappings = true) by (vm_compute; reflexivity).
  rewrite forallb_forall in Hall. exact (Hall _ H).
Qed.

Lemma static_lookup_length (query : str) :
  (1 <= length (_find_relevant_pages query) <= 5)%nat.
Proof.
  unfold _find_relevant_pages. cbv zeta.
  split; [|apply firstn_le_length].
  apply firstn_nonempty.
  destruct (List.filter _ topic_mappings) as [|[k path] ms];
    cbn [List.map]; discriminate.
Qed.

(** X19: the static lookup proposes between one and five URLs, all of
    them on the portal; when the query names no topic of its table
    they are the three general sections. *)
Theorem static_lookup_is_never_empty (query : str) :
  (1 <= length (_find_relevant_pages query) <= 5)%nat
  /\ (forall url, url ∈ _find_relevant_pages query ->
        starts_with (u "https://pravo.by/") url = true)
  /\ ((forall keyword url_path, In (keyword, url_path) topic_mappings ->
         contains keyword (lower query) = false) ->
      _find_relevant_pages query = general_urls).
Proof.
  unfold _find_relevant_pages. cbv zeta.
  set (matching := List.filter _ topic_mappings).
  assert (Hsub : forall kp, In kp matching -> In kp topic_mappings).
  { intros kp H. now apply filter_In in H. }
  assert (Hnone : (forall keyword url_path,
                     In (keyword, url_path) topic_mappings ->
                     contains keyword (lower query) = false) ->
                  matching = []).
  { intros Hnone. subst matching. clear Hsub.
    induction topic_mappings as [|[k path] rest IH]; [reflexivity|].
    simpl. rewrite (Hnone k path) by now left.
    apply IH. intros k' p' H. apply (Hnone k' p'). now right. }
  split; [|split]; [| |intros H; now rewrite (Hnone H)].
  - split; [|apply firstn_le_length].
    apply firstn_nonempty.
    destruct matching as [|[k path] ms]; cbn [List.map]; discriminate.
  - intros url H. apply elem_of_firstn in H.
    destruct matching as [|[k path] ms] eqn:Em; cbn [List.map] in H.
    + pose proof general_urls_on_portal as Hg.
      rewrite Forall_forall in Hg. now apply Hg.
    + apply list_elem_of_In in H.
      change (In url (List.map (fun '(_, url_path) =>
                                  search_base_url ++ url_path)
                        ((k, path) :: ms))) in H.
      apply in_map_iff in H as ([k' path'] & <- & Hin).
      apply (topic_urls_on_portal k'), Hsub, Hin.
Qed.

Section Portal.
Context {X : Type} (p : portal X).

Lemma add_links_NoDup (result_links found_urls : list str) :
  NoDup found_urls -> NoDup (add_links p result_links found_urls).
Proof.
  revert found_urls.
  induction result_links as [|link rest IH]; intros found H; simpl.
  - exact H.
  - destruct (urljoin p link) as [full|]; [|exact H].
    apply IH. destruct (bool_decide (full ∈ found)) eqn:E; [exact H|].
    apply bool_decide_eq_false in E.
    apply NoDup_app. split; [exact H|]. split; [|apply NoDup_singleton].
    intros y Hy Hs. apply list_elem_of_singleton in Hs as ->. contradiction.
Qed.

(** X20: whatever the portal does, the portal search returns, with at
    most five URLs; it returns none only if the query cannot be
    encoded; and what it returns is free of repetitions unless it is
    the static lookup, which takes over when the portal gave no link. *)
Theorem portal_search_always_proposes (query : str) (x : X) :
  exists l x',
    _search_pravo_by p query x = (Ok l, x')
    /\ (length l <= 5)%nat
    /\ (l = [] -> utf8_encode query = None)
    /\ (NoDup l \/ l = _find_relevant_pages query).
Proof.
  unfold _search_pravo_by, quote.
  destruct (utf8_encode query) as [bytes|].
  2:{ exists [], x. split; [reflexivity|]. split; [simpl; lia|].
      split; [reflexivity|]. left. constructor. }
  cbv beta iota zeta. unfold bind at 1.
  set (search_urls := [_; _]).
  destruct (for_each_total (search_url_one p query) (fun _ => True)
              (fun _ acc (_ : X) => NoDup acc) search_urls)
    with (done := @nil str) (acc := @nil str) (s := x)
    as (found & x' & E & Hnd).
  - intros done url acc x1 _ Hacc.
    unfold search_url_one, try_except, bind, ret.
    destruct (get_results p url query x1) as [[links|] x2].
    + eexists _, _. split; [reflexivity|]. now apply add_links_NoDup.
    + eexists _, _. split; [reflexivity|]. exact Hacc.
  - now apply Forall_forall.
  - constructor.
  - destruct (for_each _ _ _ _) as [r x2] eqn:E2.
    injection E as -> ->.
    unfold ret. eexists _, _. split; [reflexivity|].
    split; [apply firstn_le_length|].
    destruct found as [|f fs].
    + pose proof (static_lookup_length query) as [H1 H5].
      split.
      * intros H0. exfalso. unfold max_search_results in H0.
        rewrite firstn_all2 in H0 by exact H5. rewrite H0 in H1.
        simpl in H1. lia.
      * right. unfold max_search_results. now apply firstn_all2.
    + split; [discriminate|]. left.
      eapply sublist_NoDup; [exact Hnd|apply sublist_take].
Qed.

End Portal.

End DynamicSearcherMoreFacts.

(* ===================================================================== *)
(** ** Facts about writing to the store and about the tracker *)
(* ===================================================================== *)

Module KnowledgeBaseWriteFacts.
Import KnowledgeBaseWrite WriteProperties.

Section Write.
Context {Store : Type} (w : writer Store).

(** X21: [add_document] never raises.  It returns [True] only for a
    text that is not blank and an id that the store does not report,
    after one successful [collection.add] of the text under metadata
    that carry its length, its id and the time, the caller's other keys
    being kept; for a blank text or an id already present it returns
    [False] and leaves the store as it is. *)
Theorem add_document_is_guarded (doc_id document_text : str)
    (metadata : option (gmap str value)) (st : Store) :
  exists b st',
    add_document w doc_id document_text metadata st = (Ok b, st')
    /\ (b = true ->
        strip document_text <> []
        /\ document_exists w st doc_id = false
        /\ exists md,
             add w doc_id document_text md st = (Ok tt, st')
             /\ md !! u "doc_id" = Some (VStr doc_id)
             /\ md !! u "length"
                = Some (VInt (Z.of_nat (length document_text)))
             /\ md !! u "added_date" = Some (VStr (now_iso w st))
             /\ forall k, k <> u "doc_id" -> k <> u "length" ->
                  k <> u "added_date" ->
                  md !! k = default ∅ metadata !! k)
    /\ (strip document_text = [] \/ document_exists w st doc_id = true ->
        b = false /\ st' = st).
Proof.
  unfold add_document, bind, gets, ret, try_except.
  destruct (falsy document_text || falsy (strip document_text)) eqn:Eb.
  - exists false, st. split; [reflexivity|]. split; [discriminate|auto].
  - apply orb_false_elim in Eb as [_ Eb].
    assert (Hne : strip document_text <> [])
      by (destruct (strip document_text); [discriminate|discriminate]).
    destruct (document_exists w st doc_id) eqn:Ee.
    + exists false, st. split; [reflexivity|]. split; [discriminate|auto].
    + destruct (add w doc_id document_text
                  (stamped (default ∅ metadata) doc_id document_text
                     (now_iso w st)) st) as [[[]|] st'] eqn:Ea.
      * exists true, st'. split; [reflexivity|]. split.
        -- intros _. split; [exact Hne|]. split; [reflexivity|].
           exists (stamped (default ∅ metadata) doc_id document_text
                     (now_iso w st)).
           split; [exact Ea|]. unfold stamped.
           split.
           { rewrite lookup_insert_ne by (intros Hk; discriminate Hk).
             apply lookup_insert_eq. }
           split.
           { rewrite !lookup_insert_ne by (intros Hk; discriminate Hk).
             apply lookup_insert_eq. }
           split; [apply lookup_insert_eq|].
           intros k H1 H2 H3. now rewrite !lookup_insert_ne by congruence.
        -- intros [H|H]; [contradiction|discriminate].
      * exists false, st'. split; [reflexivity|]. split; [discriminate|].
        intros [H|H]; [contradiction|discriminate].
Qed.

Lemma add_document_true (doc_id text : str)
    (metadata : option (gmap str value)) (st st1 : Store) :
  add_document w doc_id text metadata st = (Ok true, st1) ->
  exists md, add w doc_id text md st = (Ok tt, st1).
Proof.
  unfold add_document, bind, gets, ret, try_except.
  destruct (falsy text || falsy (strip text)); [discriminate|].
  destruct (document_exists w st doc_id); [discriminate|].
  destruct (add w doc_id text _ st) as [[[]|] st'] eqn:Ea; [|discriminate].
  intros [= <-]. eauto.
Qed.

Lemma add_document_present (doc_id text : str)
    (metadata : option (gmap str value)) (st : Store) :
  document_exists w st doc_id = true ->
  add_document w doc_id text metadata st = (Ok false, st).
Proof.
  intros H. unfold add_document, bind, gets, ret.
  destruct (falsy text || falsy (strip text)); [reflexivity|].
  now rewrite H.
Qed.

(** X22: over a store that finds an id once it was added, a document
    is stored once: after [add_document] returned [True] for an id, a
    second call for that id returns [False] and leaves the store as it
    is, whatever the text. *)
Theorem add_document_stores_once (doc_id text text' : str)
    (metadata metadata' : option (gmap str value)) (st st1 : Store) :
  add_then_found w ->
  add_document w doc_id text metadata st = (Ok true, st1) ->
  add_document w doc_id text' metadata' st1 = (Ok false, st1).
Proof.
  intros Hlaw E.
  destruct (add_document_true _ _ _ _ _ E) as (md & Ea).
  destruct (Hlaw _ _ _ _ _ Ea) as (ids & Hids & Hne).
  apply add_document_present.
  unfold document_exists. rewrite Hids. now destruct ids.
Qed.

End Write.

(** Over the dict store a second call for the same id adds
    nothing. *)
Lemma dict_store_stores_once :
  add_document dict_store (u "doc-1") (u "другой текст") None
    {[ u "doc-1" :=
         (u "текст закона",
          stamped ∅ (u "doc-1") (u "текст закона")
            (u "2024-01-01T00:00:00")) ]}
  = (Ok false,
     {[ u "doc-1" :=
          (u "текст закона",
           stamped ∅ (u "doc-1") (u "текст закона")
             (u "2024-01-01T00:00:00")) ]}).
Proof.
  apply (add_document_stores_once dict_store (u "doc-1") (u "текст закона")
           (u "другой текст") None None ∅).
  - intros doc_id text metadata st st' E. injection E as <-.
    eexists. cbn. rewrite lookup_insert_eq. split; [reflexivity|discriminate].
  - vm_compute. reflexivity.
Defined.

End KnowledgeBaseWriteFacts.

Module ScrapingTrackerFacts.
Import ScrapingTracker WriteProperties.
Local Open Scope Z_scope.

Section Tracker.
Variables (current_date current_time : str) (netloc : str -> Res str).

Lemma last_ten_spec (history : list history_entry) (x : history_entry) :
  exists dropped older,
    history = dropped ++ older
    /\ last_ten (history ++ [x]) = older ++ [x]
    /\ (length (older ++ [x]) <= 10)%nat
    /\ ((length history < 10)%nat -> dropped = []).
Proof.
  unfold last_ten. rewrite length_app. simpl.
  destruct (Nat.ltb_spec 10 (length history + 1)) as [H|H].
  - exists (firstn (length history + 1 - 10) history),
           (skipn (length history + 1 - 10) history).
    split; [now rewrite firstn_skipn|].
    split; [apply drop_app_le; lia|].
    split; [|lia].
    rewrite length_app, length_drop. simpl. lia.
  - exists [], history. split; [reflexivity|]. split; [reflexivity|].
    split; [|reflexivity]. rewrite length_app. simpl. lia.
Qed.

(** X23: an update for a well-formed URL of a tracker that has its
    list of sites adds the amounts to the totals, lists the domain
    once, and appends an entry to the history, of which the last ten
    entries are kept; the entries kept stay in their order. *)
Theorem tracker_keeps_last_ten (site_url domain : str)
    (pages_scraped chunks_added : Z) (i : info) (sites : list str) :
  netloc site_url = Ok domain ->
  last_scraped_sites i = Some sites ->
  let i' := update_scraping_info current_date current_time netloc site_url
              pages_scraped chunks_added i in
  let new_entry :=
    {| entry_date := current_date; entry_time := current_time;
       entry_site := domain; entry_pages_scraped := pages_scraped;
       entry_chunks_added := chunks_added |} in
  (exists dropped older,
     default [] (scraping_history i) = dropped ++ older
     /\ scraping_history i' = Some (older ++ [new_entry])
     /\ (length (older ++ [new_entry]) <= 10)%nat
     /\ ((length (default [] (scraping_history i)) < 10)%nat ->
         dropped = []))
  /\ (exists sites',
        last_scraped_sites i' = Some sites' /\ domain ∈ sites'
        /\ (domain ∈ sites -> sites' = sites)
        /\ (domain ∉ sites -> sites' = sites ++ [domain]))
  /\ total_pages_scraped i'
     = Some (default 0 (total_pages_scraped i) + pages_scraped)
  /\ total_chunks_added i'
     = Some (default 0 (total_chunks_added i) + chunks_added).
Proof.
  intros Hn Hs. cbv zeta. unfold update_scraping_info. rewrite Hn, Hs.
  cbn [scraping_history last_scraped_sites total_pages_scraped
       total_chunks_added].
  split; [|split; [|split; reflexivity]].
  - destruct (last_ten_spec (default [] (scraping_history i))
                {| entry_date := current_date; entry_time := current_time;
                   entry_site := domain;
                   entry_pages_scraped := pages_scraped;
                   entry_chunks_added := chunks_added |})
      as (dropped & older & H1 & H2 & H3 & H4).
    exists dropped, older. rewrite H2. auto.
  - destruct (bool_decide (domain ∈ sites)) eqn:E.
    + apply bool_decide_eq_true in E. exists sites.
      split; [reflexivity|]. split; [exact E|]. split; [reflexivity|].
      intros H. contradiction.
    + apply bool_decide_eq_false in E. exists (sites ++ [domain]).
      split; [reflexivity|]. split.
      * apply elem_of_app. right. now apply list_elem_of_singleton.
      * split; [intros H; contradiction|reflexivity].
Qed.

End Tracker.

(** The eleventh run pushes the first entry out of the history. *)
Lemma eleventh_run_drops_first_entry :
  let i' := update_scraping_info (u "02.01.2024") (u "11:00")
              (fun _ => Ok (u "pravo.by")) (u "https://pravo.by/") 3 7
              full_tracker in
  let new_entry :=
    {| entry_date := u "02.01.2024"; entry_time := u "11:00";
       entry_site := u "pravo.by"; entry_pages_scraped := 3;
       entry_chunks_added := 7 |} in
  (exists dropped older,
     default [] (scraping_history full_tracker) = dropped ++ older
     /\ scraping_history i' = Some (older ++ [new_entry])
     /\ (length (older ++ [new_entry]) <= 10)%nat
     /\ ((length (default [] (scraping_history full_tracker)) < 10)%nat ->
         dropped = []))
  /\ (exists sites',
        last_scraped_sites i' = Some sites' /\ u "pravo.by" ∈ sites'
        /\ (u "pravo.by" ∈ [u "pravo.by"] -> sites' = [u "pravo.by"])
        /\ (u "pravo.by" ∉ [u "pravo.by"] ->
            sites' = [u "pravo.by"] ++ [u "pravo.by"]))
  /\ total_pages_scraped i'
     = Some (default 0 (total_pages_scraped full_tracker) + 3)
  /\ total_chunks_added i'
     = Some (default 0 (total_chunks_added full_tracker) + 7).
Proof.
  apply (tracker_keeps_last_ten (u "02.01.2024") (u "11:00")
           (fun _ => Ok (u "pravo.by")) (u "https://pravo.by/")
           (u "pravo.by") 3 7 full_tracker [u "pravo.by"]).
  - reflexivity.
  - reflexivity.
Defined.

End ScrapingTrackerFacts.

(* ===================================================================== *)
(** ** Facts about storing scraped pages *)
(* ===================================================================== *)

Module WebScraperStoreFacts.
Import WebScraper KnowledgeBaseWrite WebScraperStore.
Import WriteProperties StoreProperties BatchProperties.
Import IncrementalScraperFacts.
Local Open Scope Z_scope.

Section Store.
Context {Store : Type} (e : env Store).

(** [add_document] returns, and the store it leaves is the one it
    found or the one a single [collection.add] of the text made. *)
Lemma add_document_cases (w : writer Store) (doc_id text : str)
    (metadata : gmap str value) (st : Store) :
  exists b st',
    add_document w doc_id text (Some metadata) st = (Ok b, st')
    /\ (st' = st
        \/ exists r,
             add w doc_id text
               (stamped metadata doc_id text (now_iso w st)) st = (r, st')).
Proof.
  unfold add_document, bind, gets, ret, try_except.
  destruct (falsy text || falsy (strip text)).
  { exists false, st. split; [reflexivity|now left]. }
  destruct (document_exists w st doc_id).
  { exists false, st. split; [reflexivity|now left]. }
  change (default ∅ (Some metadata)) with metadata.
  destruct (add w doc_id text
              (stamped metadata doc_id text (now_iso w st)) st)
    as [[[]|] st'] eqn:Ea.
  - exists true, st'. split; [reflexivity|]. right. now exists (Ok tt).
  - exists false, st'. split; [reflexivity|]. right. now exists Raise.
Qed.

Lemma stamped_keeps (metadata : gmap str value) (doc_id text date k : str) :
  k <> u "added_date" -> k <> u "doc_id" -> k <> u "length" ->
  stamped metadata doc_id text date !! k = metadata !! k.
Proof.
  intros H1 H2 H3. unfold stamped.
  now rewrite !lookup_insert_ne by congruence.
Qed.

Lemma chunk_metadata_url (p : page) (i total : nat) (stamp : str) :
  chunk_metadata p i total stamp !! u "url" = Some (VStr (url p))
  /\ chunk_metadata p i total stamp !! u "source_type"
     = Some (VStr (u "pravo.by_dynamic")).
Proof.
  unfold chunk_metadata. cbn [list_to_map foldr fst snd curry].
  split.
  - rewrite lookup_insert_ne by discriminate. apply lookup_insert_eq.
  - rewrite !lookup_insert_ne by discriminate. apply lookup_insert_eq.
Qed.

Lemma add_to_knowledge_base_filtered (pages_data : list page) :
  add_to_knowledge_base e pages_data
  = match LegalContentFilter.filter_scraped_content pages_data with
    | [] => ret 0
    | _ =>
        for_each (LegalContentFilter.filter_scraped_content pages_data)
          (add_page e) 0
    end.
Proof.
  now destruct pages_data.
Qed.

Section Invariant.
(** A property of the store that every [collection.add] of a chunk of a
    filtered page keeps, whether the call returns or raises. *)
Variables (I : Store -> Prop) (pages_data : list page).
Hypothesis add_keeps :
  forall doc_id text md s r s',
    add (kb e) doc_id text md s = (r, s') -> I s ->
    from_filtered_page e pages_data text md -> I s'.

Lemma add_chunk_keeps (p : page) (chunks : list str) (i : nat)
    (chunk : str) (count : Z) (st : Store) :
  p ∈ LegalContentFilter.filter_scraped_content pages_data ->
  split_text e (page_content p) = Ok chunks -> chunk ∈ chunks -> I st ->
  exists count' st',
    add_chunk e p (length chunks) (i, chunk) count st = (Ok count', st')
    /\ I st' /\ count <= count' <= count + 1.
Proof.
  intros Hp Hs Hc HI. unfold add_chunk, bind, gets, ret.
  destruct (add_document_cases (kb e) (chunk_id e p i (timestamp e st))
              chunk
              (chunk_metadata p i (length chunks) (timestamp e st)) st)
    as (b & st' & E & Hst).
  rewrite E. eexists _, _. split; [reflexivity|]. split.
  - destruct Hst as [->|[r Ha]]; [exact HI|].
    apply (add_keeps _ _ _ _ _ _ Ha HI).
    exists p, chunks. do 3 (split; [assumption|]).
    destruct (chunk_metadata_url p i (length chunks) (timestamp e st))
      as [H1 H2].
    split; (rewrite stamped_keeps by discriminate; assumption).
  - destruct b; lia.
Qed.

Lemma add_page_keeps (p : page) (count : Z) (st : Store) :
  p ∈ LegalContentFilter.filter_scraped_content pages_data -> I st ->
  exists count' st',
    add_page e p count st = (Ok count', st')
    /\ I st' /\ count <= count' <= count + Z.of_nat (chunk_count e p).
Proof.
  intros Hp HI. unfold add_page, chunk_count.
  destruct (split_text e (page_content p)) as [chunks|] eqn:Es.
  2:{ exists count, st. split; [reflexivity|]. split; [exact HI|lia]. }
  destruct (for_each_total (add_chunk e p (length chunks))
              (fun ic => snd ic ∈ chunks)
              (fun done acc s =>
                 I s /\ count <= acc <= count + Z.of_nat (length done))
              (imap (fun i chunk => (i, chunk)) chunks))
    with (done := @nil (nat * str)) (acc := count) (s := st)
    as (count' & st' & E & HI' & Hc).
  - intros done [i chunk] acc s Hin (HIs & Hacc).
    destruct (add_chunk_keeps p chunks i chunk acc s Hp Es Hin HIs)
      as (acc' & s' & E & HI' & Hacc').
    exists acc', s'. split; [exact E|]. split; [exact HI'|].
    rewrite length_app. simpl. lia.
  - apply Forall_forall. intros [i chunk] Hin.
    apply list_elem_of_lookup in Hin as [j Hj].
    rewrite list_lookup_imap in Hj.
    destruct (chunks !! j) as [c|] eqn:Ec; [|discriminate].
    injection Hj as <- <-. cbn. now apply list_elem_of_lookup_2 in Ec.
  - split; [exact HI|simpl; lia].
  - exists count', st'. split; [exact E|]. split; [exact HI'|].
    rewrite app_nil_l, length_imap in Hc. exact Hc.
Qed.

Lemma total_chunks_snoc (l : list page) (p : page) :
  total_chunks e (l ++ [p])
  = total_chunks e l + Z.of_nat (chunk_count e p).
Proof.
  unfold total_chunks. induction l as [|q l IH]; simpl; [lia|].
  rewrite IH. lia.
Qed.

(** X24: [add_to_knowledge_base] never raises, and all it hands to the
    store are chunks of pages that its relevance filter returned, each
    under the URL of its page: a property of the store that every such
    addition keeps holds after the call.  The count it returns is at
    most the number of chunks of the filtered pages; when the filter
    returns no page the count is 0 and the store is as it was. *)
Theorem only_filtered_pages_reach_the_store (st : Store) :
  I st ->
  exists n st',
    add_to_knowledge_base e pages_data st = (Ok n, st')
    /\ I st'
    /\ 0 <= n
         <= total_chunks e
              (LegalContentFilter.filter_scraped_content pages_data)
    /\ (LegalContentFilter.filter_scraped_content pages_data = [] ->
        n = 0 /\ st' = st).
Proof.
  intros HI. rewrite add_to_knowledge_base_filtered.
  destruct (LegalContentFilter.filter_scraped_content pages_data)
    as [|f fs] eqn:Ef.
  { exists 0, st. split; [reflexivity|]. split; [exact HI|].
    split; [simpl; lia|auto]. }
  rewrite <- Ef.
  destruct (for_each_total (add_page e)
              (fun p =>
                 p ∈ LegalContentFilter.filter_scraped_content pages_data)
              (fun done acc s => I s /\ 0 <= acc <= total_chunks e done)
              (LegalContentFilter.filter_scraped_content pages_data))
    with (done := @nil page) (acc := 0) (s := st)
    as (n & st' & E & HI' & Hn).
  - intros done p acc s Hp (HIs & Hacc).
    destruct (add_page_keeps p acc s Hp HIs) as (acc' & s' & E & HI' & Hacc').
    exists acc', s'. split; [exact E|]. split; [exact HI'|].
    rewrite total_chunks_snoc. lia.
  - now apply Forall_forall.
  - split; [exact HI|simpl; lia].
  - exists n, st'. split; [exact E|]. split; [exact HI'|].
    split; [exact Hn|]. rewrite Ef. discriminate.
Qed.

End Invariant.

End Store.

(** Storing the batch of a blank page and a saturated one leaves the
    store without a document of the blank page. *)
Lemma blank_page_never_reaches_the_store :
  exists n st',
    add_to_knowledge_base one_chunk_store demo_batch ∅ = (Ok n, st')
    /\ holds_nothing_from (url blank_page) st'
    /\ 0 <= n
         <= total_chunks one_chunk_store
              (LegalContentFilter.filter_scraped_content demo_batch)
    /\ (LegalContentFilter.filter_scraped_content demo_batch = [] ->
        n = 0 /\ st' = ∅).
Proof.
  apply (only_filtered_pages_reach_the_store one_chunk_store
           (holds_nothing_from (url blank_page)) demo_batch).
  - intros doc_id text md s r s' Ha HI (p & chunks & Hp & _ & _ & Hurl & _).
    injection Ha as _ <-.
    replace (LegalContentFilter.filter_scraped_content demo_batch)
      with [kept_demo_page] in Hp by (vm_compute; reflexivity).
    apply list_elem_of_singleton in Hp as ->.
    intros doc_id' text' md' Hl.
    destruct (decide (doc_id = doc_id')) as [<-|Hne].
    + rewrite lookup_insert_eq in Hl. injection Hl as <- <-.
      rewrite Hurl. discriminate.
    + rewrite lookup_insert_ne in Hl by exact Hne. now apply (HI doc_id' text').
  - intros doc_id text md Hl. rewrite lookup_empty in Hl. discriminate.
Defined.

End WebScraperStoreFacts.

(* ===================================================================== *)
(** ** More on the content fingerprint *)
(* ===================================================================== *)

Module FingerprintMoreFacts.
Import IncrementalScraper.
Local Open Scope N_scope.

Lemma le_bytes_spec (n : nat) (x : N) :
  length (MD5.le_bytes n x) = n
  /\ Forall (fun b => b < 256) (MD5.le_bytes n x).
Proof.
  revert x. induction n as [|n IH]; intros x; simpl.
  - split; [reflexivity|constructor].
  - destruct (IH (x / 256)) as [H1 H2]. split; [now rewrite H1|].
    constructor; [|exact H2]. now apply N.mod_lt.
Qed.

Lemma digest_spec (msg : list N) :
  length (MD5.digest msg) = 16%nat
  /\ Forall (fun b => b < 256) (MD5.digest msg).
Proof.
  unfold MD5.digest. cbv zeta.
  destruct (fold_left MD5.process_block _ MD5.init) as [[[a b] c] d].
  destruct (le_bytes_spec 4 a) as [A1 A2], (le_bytes_spec 4 b) as [B1 B2],
    (le_bytes_spec 4 c) as [C1 C2], (le_bytes_spec 4 d) as [D1 D2].
  split.
  - rewrite !length_app, A1, B1, C1, D1. reflexivity.
  - repeat (apply Forall_app; split); assumption.
Qed.

Lemma hex_digit_spec (x : N) :
  x < 16 ->
  in_range 0x30 0x39 (MD5.hex_digit x)
  || in_range 0x61 0x66 (MD5.hex_digit x) = true.
Proof.
  intros H. unfold MD5.hex_digit, in_range.
  destruct (N.ltb_spec x 10).
  - apply orb_true_iff. left. apply andb_true_iff.
    split; apply N.leb_le; lia.
  - apply orb_true_iff. right. apply andb_true_iff.
    split; apply N.leb_le; lia.
Qed.

Lemma hex_of_bytes (bytes : list N) :
  Forall (fun b => b < 256) bytes ->
  let h := flat_map (fun b => [MD5.hex_digit (b / 16);
                               MD5.hex_digit (b mod 16)]) bytes in
  length h = (2 * length bytes)%nat
  /\ Forall (fun c => in_range 0x30 0x39 c || in_range 0x61 0x66 c = true) h.
Proof.
  cbv zeta. induction 1 as [|b bytes Hb _ [IH1 IH2]]; simpl.
  - split; [reflexivity|constructor].
  - split; [rewrite IH1; lia|].
    constructor.
    { apply hex_digit_spec. apply N.Div0.div_lt_upper_bound. lia. }
    constructor; [|exact IH2].
    apply hex_digit_spec. now apply N.mod_lt.
Qed.

(** X25: a fingerprint is a text of 32 characters, each a digit or a
    letter from a to f. *)
Theorem content_hash_is_32_hex_digits (content h : str) :
  _get_content_hash content = Ok h ->
  length h = 32%nat
  /\ Forall (fun c => in_range 0x30 0x39 c || in_range 0x61 0x66 c = true) h.
Proof.
  unfold _get_content_hash. cbv zeta.
  destruct (utf8_encode _) as [bytes|]; [|discriminate].
  intros [= <-]. unfold MD5.hexdigest.
  destruct (digest_spec bytes) as [H1 H2].
  destruct (hex_of_bytes _ H2) as [H3 H4]. rewrite H1 in H3.
  now split.
Qed.

(** The fingerprint of a statute title. *)
Lemma statute_title_hash_is_32_hex_digits :
  length (u "377a730cabe497d8ff73cda3acbcfc9e") = 32%nat
  /\ Forall (fun c => in_range 0x30 0x39 c || in_range 0x61 0x66 c = true)
       (u "377a730cabe497d8ff73cda3acbcfc9e").
Proof.
  apply (content_hash_is_32_hex_digits (u "Закон  РБ")
           (u "377a730cabe497d8ff73cda3acbcfc9e")).
  vm_compute. reflexivity.
Defined.

End FingerprintMoreFacts.

(* ===================================================================== *)
(** ** Facts about chunking *)
(* ===================================================================== *)

Module TextProcessorFacts.
Import TextProcessor ChunkProperties.
Local Open Scope Z_scope.

Lemma lstrip_length (s : str) : (length (lstrip s) <= length s)%nat.
Proof.
  induction s as [|c s IH]; simpl; [lia|].
  destruct (is_space c); simpl; lia.
Qed.

Lemma strip_length (s : str) : (length (strip s) <= length s)%nat.
Proof.
  unfold strip, rstrip. rewrite length_rev.
  etransitivity; [apply lstrip_length|]. rewrite length_rev.
  apply lstrip_length.
Qed.

Lemma py_slice_length (text : str) (a b : Z) :
  0 <= a -> 0 <= b ->
  Z.of_nat (length (py_slice text a b)) <= Z.max (b - a) 0.
Proof.
  intros Ha Hb. unfold py_slice. cbv zeta.
  rewrite length_take, length_drop.
  destruct (Z.ltb_spec a 0); [lia|]. destruct (Z.ltb_spec b 0); lia.
Qed.

(** Going down from an index inside the text, the search does not
    raise, and what it finds lies among the indices it visited. *)
Lemma find_break_spec (breaks : list N) (text : str) (steps : nat) :
  forall i,
    Z.of_nat steps <= i -> i < Z.of_nat (length text) ->
    exists found,
      find_break breaks text i steps = Ok found
      /\ match found with
         | Some j => i - Z.of_nat steps < j <= i
         | None => True
         end.
Proof.
  induction steps as [|steps IH]; intros i Hlo Hhi; simpl.
  - now exists None.
  - unfold py_index. cbv zeta.
    destruct (Z.leb_spec 0 i); [|lia]. destruct (Z.ltb_spec i (Z.of_nat (length text)));
      [|lia].
    cbn [andb].
    destruct (existsb _ breaks).
    + exists (Some i). split; [reflexivity|lia].
    + destruct (IH (i - 1)) as (found & E & H1); [lia|lia|].
      exists found. split; [exact E|]. destruct found; [lia|exact I].
Qed.

Lemma find_break_none (breaks : list N) (text : str) (steps : nat) :
  free_of breaks text ->
  forall i,
    Z.of_nat steps <= i -> i < Z.of_nat (length text) ->
    find_break breaks text i steps = Ok None.
Proof.
  intros Hfree. induction steps as [|steps IH]; intros i Hlo Hhi; simpl.
  - reflexivity.
  - unfold py_index. cbv zeta.
    destruct (Z.leb_spec 0 i); [|lia]. destruct (Z.ltb_spec i (Z.of_nat (length text)));
      [|lia].
    cbn [andb].
    assert (Hc : existsb (N.eqb (nth (Z.to_nat i) text 0%N)) breaks = false).
    { unfold free_of in Hfree. rewrite Forall_forall in Hfree.
      apply Hfree, list_elem_of_In, nth_In. lia. }
    rewrite Hc. apply IH; lia.
Qed.

Section Processor.
Variables chunk_size chunk_overlap : Z.
Hypothesis overlap_nonneg : 0 <= chunk_overlap.
Hypothesis room : chunk_overlap + 100 <= chunk_size.

(** Every round moves [start] forward, so the loop ends within
    [len(text) - start] rounds; it does not raise, and each chunk it
    adds is non-empty and has at most [chunk_size + after]
    characters. *)
Lemma chunk_loop_spec (breaks : list N) (after : Z) (text : str)
    (fuel : nat) :
  0 <= after <= 1 ->
  forall start chunks,
    0 <= start ->
    Z.max (Z.of_nat (length text) - start) 0 < Z.of_nat fuel ->
    Forall (fun c => c <> [] /\ Z.of_nat (length c) <= chunk_size + after)
      chunks ->
    exists out,
      chunk_loop chunk_size chunk_overlap breaks after text fuel start chunks
      = Some (Ok out)
      /\ Forall (fun c => c <> []
                          /\ Z.of_nat (length c) <= chunk_size + after) out.
Proof.
  intros Hafter. induction fuel as [|fuel IH]; intros start chunks Hs Hf Hc.
  - lia.
  - cbn [chunk_loop].
    destruct (Z.ltb_spec start (Z.of_nat (length text))) as [Hlt|Hge];
      [|now exists chunks].
    cbv zeta.
    assert (Hfound : exists found,
              (if start + chunk_size <? Z.of_nat (length text)
               then find_break breaks text (start + chunk_size)
                      (Z.to_nat (start + chunk_size
                                 - Z.max (start + chunk_size - 100) start))
               else Ok None) = Ok found
              /\ match found with
                 | Some j =>
                     Z.max (start + chunk_size - 100) start < j
                     <= start + chunk_size
                 | None => True
                 end).
    { destruct (Z.ltb_spec (start + chunk_size) (Z.of_nat (length text))) as [He|He].
      - destruct (find_break_spec breaks text
                    (Z.to_nat (start + chunk_size
                               - Z.max (start + chunk_size - 100) start))
                    (start + chunk_size)) as (found & E & H); [lia|lia|].
        exists found. split; [exact E|]. destruct found; [lia|exact I].
      - now exists None. }
    destruct Hfound as (found & -> & Hj).
    set (end_ := match found with
                 | Some i => i + after
                 | None => start + chunk_size
                 end).
    assert (Hend : start + chunk_size - 99 <= end_ <= start + chunk_size + after).
    { subst end_. destruct found; lia. }
    destruct (Z.ltb_spec (end_ - chunk_overlap) 0); [lia|].
    apply IH; [lia|lia|].
    destruct (falsy (strip (py_slice text start end_))) eqn:Ef; [exact Hc|].
    apply Forall_app. split; [exact Hc|]. constructor; [|constructor].
    split; [now destruct (strip (py_slice text start end_))|].
    pose proof (strip_length (py_slice text start end_)).
    assert (Hb : 0 <= end_) by lia.
    pose proof (py_slice_length text start end_ Hs Hb). lia.
Qed.

(** X26: with an overlap that leaves at least 100 characters of the
    chunk size (as the default 1000 and 200 do), [_simple_split] and
    [_split_large_block] end within [len(text)] rounds and do not
    raise; every chunk is non-empty, a chunk of [_simple_split] has at
    most [chunk_size] characters, and a chunk of [_split_large_block]
    at most [chunk_size + 1]. *)
Theorem splitting_ends_with_bounded_chunks (text : str) (fuel : nat) :
  (length text < fuel)%nat ->
  (exists chunks,
     _simple_split chunk_size chunk_overlap text fuel = Some (Ok chunks)
     /\ Forall (fun c => c <> [] /\ Z.of_nat (length c) <= chunk_size)
          chunks)
  /\ (exists chunks,
        _split_large_block chunk_size chunk_overlap text fuel
        = Some (Ok chunks)
        /\ Forall (fun c => c <> []
                            /\ Z.of_nat (length c) <= chunk_size + 1) chunks).
Proof.
  intros Hfuel. split.
  - destruct (chunk_loop_spec space_breaks 0 text fuel) with
      (start := 0) (chunks := @nil str) as (out & E & H);
      [lia|lia|lia|constructor|].
    exists out. split; [exact E|].
    eapply Forall_impl; [exact H|]. cbn. intros c [H1 H2]. split; [exact H1|lia].
  - destruct (chunk_loop_spec sentence_breaks 1 text fuel) with
      (start := 0) (chunks := @nil str) as (out & E & H);
      [lia|lia|lia|constructor|].
    now exists out.
Qed.

End Processor.

(** With the default sizes a sentence of 100 letters is one chunk. *)
Lemma default_split_of_long_sentence :
  (exists chunks,
     _simple_split 1000 200 long_sentence 200 = Some (Ok chunks)
     /\ Forall (fun c => c <> [] /\ Z.of_nat (length c) <= 1000) chunks)
  /\ (exists chunks,
        _split_large_block 1000 200 long_sentence 200 = Some (Ok chunks)
        /\ Forall (fun c => c <> [] /\ Z.of_nat (length c) <= 1000 + 1)
             chunks).
Proof.
  apply (splitting_ends_with_bounded_chunks 1000 200); [lia|lia|].
  vm_compute. lia.
Defined.

(** The bound of [_split_large_block] is reached: with a chunk size of
    100 the sentence is cut behind its full stop, 101 characters
    long. *)
Example large_block_chunk_exceeds_chunk_size :
  exists chunk rest,
    _split_large_block 100 0 long_sentence 200 = Some (Ok (chunk :: rest))
    /\ length chunk = 101%nat.
Proof.
  eexists _, _. split; [vm_compute; reflexivity|reflexivity].
Qed.

(** X27: when the overlap equals the chunk size, [_simple_split] never
    ends on a text that is longer than a chunk and has no space, line
    break or tab: [start] stays at 0. *)
Theorem equal_overlap_never_ends (chunk_size : Z) (text : str)
    (fuel : nat) :
  0 < chunk_size < Z.of_nat (length text) ->
  free_of space_breaks text ->
  _simple_split chunk_size chunk_size text fuel = None.
Proof.
  intros [Hpos Hlen] Hfree. unfold _simple_split.
  generalize (@nil str).
  induction fuel as [|fuel IH]; intros chunks; [reflexivity|].
  cbn [chunk_loop].
  destruct (Z.ltb_spec 0 (Z.of_nat (length text))); [|lia]. cbv zeta.
  rewrite Z.add_0_l.
  destruct (Z.ltb_spec chunk_size (Z.of_nat (length text))); [|lia].
  rewrite (find_break_none space_breaks text _ Hfree) by lia.
  rewrite Z.sub_diag. cbn [Z.ltb Z.compare]. apply IH.
Qed.

(** A word of 101 letters under a chunk size and an overlap of 100. *)
Lemma long_word_never_ends :
  _simple_split 100 100 (repeat (Re.ch "a") 101) 1000 = None.
Proof.
  apply (equal_overlap_never_ends 100 (repeat (Re.ch "a") 101) 1000).
  - vm_compute. split; reflexivity.
  - apply Forall_forall. intros c Hc.
    apply list_elem_of_In, repeat_spec in Hc as ->. reflexivity.
Defined.

End TextProcessorFacts.
